(** * Bepensa commercial-intelligence simulator: population and assignment engine

    A shallow embedding of [src/src/simulador_reduced.py]: the weight
    normaliser, the schema enforcer, the holiday seasonality loop, the
    customer lifecycle simulator, the fleet generator and the route
    generator, with the properties the specification states about them.

    Conventions of the embedding.
    - Python [float]s are idealised as exact rationals ([Q]); every result
      about a numeric value is a result about that idealisation.
    - A Python [dict] with string keys is an association list, looked up
      from the left; a raised exception is a value of [PyError].
    - Library randomness (numpy's [Generator], Python's [random], Faker) is
      an interface ([Azar]) of state-passing operations with the range
      contracts the libraries document. *)

From Stdlib Require Import List ZArith QArith Qround Qabs Qminmax Lqa Lia Bool.
From Stdlib Require Import String Ascii Decimal DecimalNat DecimalString.
Import ListNotations.

Local Open Scope string_scope.
Local Open Scope Q_scope.

(* ================================================================== *)
(** ** Python run-time values shared by every component *)

Inductive PyError : Type :=
| ValueError (msg : string)
| KeyError (key : string)
| IndexError (msg : string).

Inductive LogRecord : Type :=
| LogInfo (msg : string)
| LogWarning (msg : string)
| LogError (msg : string).

Definition Dict (V : Type) : Type := list (string * V).

(** [d.get(k)] *)
Fixpoint dict_get {V : Type} (d : Dict V) (k : string) : option V :=
  match d with
  | [] => None
  | (k', v) :: rest => if String.eqb k' k then Some v else dict_get rest k
  end.

(** [d[k] = v]: an existing key keeps its position, a new key goes last. *)
Fixpoint dict_set {V : Type} (d : Dict V) (k : string) (v : V) : Dict V :=
  match d with
  | [] => [(k, v)]
  | (k', v') :: rest =>
      if String.eqb k' k then (k', v) :: rest else (k', v') :: dict_set rest k v
  end.

(** [round(x)] to the nearest integer, ties to the even one. *)
Definition round_half_even (q : Q) : Z :=
  let f := Qfloor q in
  match Qcompare (q - inject_Z f) (1 # 2) with
  | Lt => f
  | Gt => (f + 1)%Z
  | Eq => if Z.even f then f else (f + 1)%Z
  end.

Definition pow10 (nd : nat) : Q := inject_Z (10 ^ Z.of_nat nd).

(** [round(x, nd)] *)
Definition py_round (q : Q) (nd : nat) : Q :=
  Qred (inject_Z (round_half_even (q * pow10 nd)) / pow10 nd).

(** [math.isclose(a, b, abs_tol=tol)] with the default [rel_tol = 1e-09]. *)
Definition isclose (a b tol : Q) : bool :=
  Qle_bool (Qabs (a - b))
           (Qmax ((1 # 1000000000) * Qmax (Qabs a) (Qabs b)) tol).

(** [a < b] on numbers. *)
Definition Qltb (a b : Q) : bool := if Qlt_le_dec a b then true else false.

(** [sum(xs)]: Python folds from the left, starting at 0. *)
Definition py_sum (xs : list Q) : Q := fold_left Qplus xs 0.

(* ================================================================== *)
(** ** Weight normaliser ([normalizar_pesos], lines 181-197) *)

Module Pesos.

(** What the call leaves behind: the list as mutated in place, the log
    records, and the exception that ended the call, if any. *)
Record Salida : Type := {
  lista_final : list (Dict Q);
  registro : list LogRecord;
  excepcion : option PyError
}.

(** [item.get(columna, 0)] *)
Definition peso_o_cero (columna : string) (item : Dict Q) : Q :=
  match dict_get item columna with
  | Some w => w
  | None => 0
  end.

(** The normalisation loop: [item[columna_salida] = round(item[columna] /
    suma_total, 6)]; an item without [columna] raises [KeyError] and leaves
    the items after it untouched. *)
Fixpoint normalizar_bucle (suma_total : Q) (columna columna_salida : string)
         (lista : list (Dict Q)) : list (Dict Q) * option PyError :=
  match lista with
  | [] => ([], None)
  | item :: resto =>
      match dict_get item columna with
      | None => (lista, Some (KeyError columna))
      | Some w =>
          let item' := dict_set item columna_salida (py_round (w / suma_total) 6) in
          let (resto', e) := normalizar_bucle suma_total columna columna_salida resto in
          (item' :: resto', e)
      end
  end.

Definition msg_suma_cero : string := "No se puede normalizar: la suma total de pesos es 0.".
Definition msg_forzada : string := "Suma de pesos distinta de 1, se normaliza forzadamente.".

Definition normalizar_pesos (lista : list (Dict Q)) (columna columna_salida : string)
  : Salida :=
  let suma_total := py_sum (map (peso_o_cero columna) lista) in
  if Qeq_bool suma_total 0 then
    {| lista_final := lista;
       registro := [LogError msg_suma_cero];
       excepcion := Some (ValueError msg_suma_cero) |}
  else
    let avisos :=
      if negb (isclose suma_total 1 (3 # 100)) then [LogWarning msg_forzada] else [] in
    let (lista', e) := normalizar_bucle suma_total columna columna_salida lista in
    {| lista_final := lista'; registro := avisos; excepcion := e |}.

(** Default arguments of the signature. *)
Definition col_peso : string := "Peso".
Definition col_salida : string := "Peso_Normalizado".

(** Items that expose only the weight field, as in [[{w:1},{w:1},{w:2}]]. *)
Definition items_de (ws : list Q) : list (Dict Q) :=
  map (fun w => [(col_peso, w)]) ws.

(** The normalised weights read back from the annotated list. *)
Definition normalizados (columna_salida : string) (l : list (Dict Q)) : list Q :=
  map (peso_o_cero columna_salida) l.

Definition expone (columna : string) (item : Dict Q) : Prop :=
  dict_get item columna <> None.

(** The item as the loop leaves it when it exposes the weight. *)
Definition anotar (s : Q) (columna columna_salida : string) (item : Dict Q) : Dict Q :=
  dict_set item columna_salida (py_round (peso_o_cero columna item / s) 6).

End Pesos.

(* ================================================================== *)
(** ** Schema conformance enforcer ([asegurar_columnas], lines 1756-1789) *)

Module Esquema.

(** The Polars data types named in the file's [SCHEMAS] tables. *)
Inductive DType : Type :=
| Utf8 | Categorical
| Int8 | Int16 | Int32 | Int64 | UInt8
| Float32 | Float64
| Date | Boolean.

Definition dtype_eqb (a b : DType) : bool :=
  match a, b with
  | Utf8, Utf8 | Categorical, Categorical
  | Int8, Int8 | Int16, Int16 | Int32, Int32 | Int64, Int64 | UInt8, UInt8
  | Float32, Float32 | Float64, Float64
  | Date, Date | Boolean, Boolean => true
  | _, _ => false
  end.

(** A cell; [VNull] is Python's [None] / a Polars null. *)
Inductive Valor : Type :=
| VNull
| VStr (s : string)
| VInt (z : Z)
| VFloat (q : Q)
| VDate (anio mes dia : Z)
| VBool (b : bool).

Record Columna : Type := {
  nombre : string;
  dtype : DType;
  valores : list Valor
}.

(** A frame is its columns, left to right; a schema is an ordered mapping
    from column name to type. *)
Definition DataFrame : Type := list Columna.
Definition Schema : Type := list (string * DType).

Definition columnas (df : DataFrame) : list string := map nombre df.

(** [col in df.columns] *)
Definition tiene_columna (df : DataFrame) (col : string) : bool :=
  existsb (String.eqb col) (columnas df).

(** [df[col]] *)
Definition buscar_columna (df : DataFrame) (col : string) : option Columna :=
  find (fun c => String.eqb (nombre c) col) df.

(** Rows a literal is broadcast to: the frame's height, or one row when the
    frame has no column at all. *)
Definition filas (df : DataFrame) : nat :=
  match df with
  | [] => 1%nat
  | c :: _ => List.length (valores c)
  end.

(** The [if dtype == ...] ladder; a type it does not list leaves
    [default_value] at [None]. *)
Definition defecto_por_tipo (t : DType) : Valor :=
  match t with
  | Utf8 => VStr ""
  | Int8 | Int16 | Int32 | Int64 => VInt 0
  | Float32 | Float64 => VFloat 0
  | Date => VDate 1900 1 1
  | Boolean => VBool false
  | Categorical | UInt8 => VNull
  end.

(** [valores_defecto.get(col)], then the ladder when that is [None]. *)
Definition valor_defecto (valores_defecto : Dict Valor) (col : string) (t : DType)
  : Valor :=
  match dict_get valores_defecto col with
  | Some VNull | None => defecto_por_tipo t
  | Some v => v
  end.

(** [df.with_columns(pl.lit(v, dtype=t).alias(col))] for a new name. *)
Definition agregar_literal (df : DataFrame) (col : string) (t : DType) (v : Valor)
  : DataFrame :=
  (df ++ [{| nombre := col; dtype := t; valores := repeat v (filas df) |}])%list.

(** [df.with_columns(c')] for an existing name: same position. *)
Definition reemplazar_columna (df : DataFrame) (c' : Columna) : DataFrame :=
  map (fun c => if String.eqb (nombre c) (nombre c') then c' else c) df.

(** [df.select(cols)]: [None] stands for Polars' column-not-found error. *)
Fixpoint seleccionar (df : DataFrame) (cols : list string) : option DataFrame :=
  match cols with
  | [] => Some []
  | col :: rest =>
      match buscar_columna df col, seleccionar df rest with
      | Some c, Some out => Some (c :: out)
      | _, _ => None
      end
  end.

Section Enforcer.

(** [Series.cast]: the converted cells, or [None] when the cast raises. *)
Variable cast_valores : DType -> DType -> list Valor -> option (list Valor).

Definition msg_cast (col : string) : string :=
  "No se pudo castear la columna '" ++ col ++ "'".

(** One turn of [for col, dtype in schema.items()]. *)
Definition paso_columna (valores_defecto : Dict Valor)
           (st : DataFrame * list LogRecord) (entrada : string * DType)
  : DataFrame * list LogRecord :=
  let (df, logs) := st in
  let (col, t) := entrada in
  if negb (tiene_columna df col) then
    (agregar_literal df col t (valor_defecto valores_defecto col t), logs)
  else
    match buscar_columna df col with
    | None => (df, logs)
    | Some c =>
        if negb (dtype_eqb (dtype c) t) then
          match cast_valores (dtype c) t (valores c) with
          | Some vs =>
              (reemplazar_columna df {| nombre := col; dtype := t; valores := vs |}, logs)
          | None => (df, (logs ++ [LogWarning (msg_cast col)])%list)
          end
        else (df, logs)
    end.

(** [for col, dtype in schema.items()] *)
Definition bucle_esquema (valores_defecto : Dict Valor) (schema : Schema)
           (st : DataFrame * list LogRecord) : DataFrame * list LogRecord :=
  fold_left (paso_columna valores_defecto) schema st.

Definition asegurar_columnas (df : DataFrame) (schema : Schema)
           (valores_defecto : Dict Valor) : option DataFrame * list LogRecord :=
  let (df', logs) := bucle_esquema valores_defecto schema (df, []) in
  (seleccionar df' (filter (tiene_columna df') (map fst schema)), logs).

End Enforcer.

End Esquema.

(* ================================================================== *)
(** ** Checked array access and a small option monad *)

Notation "x <- e ;; k" := (match e with Some x => k | None => None end)
  (at level 61, e at next level, right associativity).

(** [a[i]] with the index checked against [0 <= i < len(a)]; [None] is an
    access outside the array (a negative index counts as outside). *)
Definition arr_get {A : Type} (a : list A) (i : Z) : option A :=
  if ((0 <=? i)%Z && (i <? Z.of_nat (List.length a))%Z)%bool
  then nth_error a (Z.to_nat i) else None.

Fixpoint list_update {A : Type} (a : list A) (n : nat) (v : A) : list A :=
  match a, n with
  | [], _ => []
  | _ :: r, O => v :: r
  | x :: r, S m => x :: list_update r m v
  end.

(** [a[i] *= k] *)
Definition arr_mul (a : list Q) (i : Z) (k : Q) : option (list Q) :=
  x <- arr_get a i ;; Some (list_update a (Z.to_nat i) (x * k)).

(* ================================================================== *)
(** ** Calendar and holiday seasonality ([generar_dim_tiempo], lines 1804-1899) *)

Module Tiempo.

Record Fecha : Type := F { anio : Z; mes : Z; dia : Z }.

Definition fecha_eqb (a b : Fecha) : bool :=
  ((anio a =? anio b)%Z && (mes a =? mes b)%Z && (dia a =? dia b)%Z)%bool.

(** Day number of a proleptic Gregorian date (days since 1970-01-01) and
    back: the arithmetic behind [pl.date_range(..., interval="1d")]. *)
Definition dias_desde_fecha (f : Fecha) : Z :=
  let y := (if (mes f <=? 2) then anio f - 1 else anio f)%Z in
  let era := (y / 400)%Z in
  let yoe := (y - era * 400)%Z in
  let mp := (if (mes f >? 2) then mes f - 3 else mes f + 9)%Z in
  let doy := ((153 * mp + 2) / 5 + dia f - 1)%Z in
  let doe := (yoe * 365 + yoe / 4 - yoe / 100 + doy)%Z in
  (era * 146097 + doe - 719468)%Z.

Definition fecha_desde_dias (z0 : Z) : Fecha :=
  let z := (z0 + 719468)%Z in
  let era := (z / 146097)%Z in
  let doe := (z - era * 146097)%Z in
  let yoe := ((doe - doe / 1460 + doe / 36524 - doe / 146096) / 365)%Z in
  let doy := (doe - (365 * yoe + yoe / 4 - yoe / 100))%Z in
  let mp := ((5 * doy + 2) / 153)%Z in
  let d := (doy - (153 * mp + 2) / 5 + 1)%Z in
  let m := (if (mp <? 10) then mp + 3 else mp - 9)%Z in
  let y := (yoe + era * 400)%Z in
  F (if (m <=? 2) then y + 1 else y)%Z m d.

(** [pl.date_range(inicio, fin, interval="1d", eager=True)], both ends
    included. *)
Definition date_range (inicio fin : Fecha) : list Fecha :=
  let a := dias_desde_fecha inicio in
  let b := dias_desde_fecha fin in
  map (fun k => fecha_desde_dias (a + Z.of_nat k)) (seq 0 (Z.to_nat (b - a + 1))).

(** Values in force when the generator runs (lines 1800-1801). *)
Definition FECHA_INICIO_PROYECTO : Fecha := F 2021 1 1.
Definition FECHA_FIN_PROYECTO : Fecha := F 2025 12 31.

Definition FERIADOS_RD : list (Fecha * string) := [
  (F 2021 1 1, "Año Nuevo");
  (F 2021 1 4, "Día de Reyes (trasladado)");
  (F 2021 1 21, "Día de Nuestra Señora de la Altagracia");
  (F 2021 1 25, "Día de Duarte (trasladado)");
  (F 2021 2 27, "Día de la Independencia");
  (F 2021 4 2, "Viernes Santo");
  (F 2021 5 1, "Día del Trabajo");
  (F 2021 6 3, "Corpus Christi");
  (F 2021 8 16, "Día de la Restauración");
  (F 2021 9 24, "Día de Nuestra Señora de las Mercedes");
  (F 2021 11 6, "Día de la Constitución");
  (F 2021 12 25, "Navidad");
  (F 2022 1 1, "Año Nuevo");
  (F 2022 1 10, "Día de Reyes (trasladado)");
  (F 2022 1 21, "Día de Nuestra Señora de la Altagracia");
  (F 2022 1 24, "Día de Duarte (trasladado)");
  (F 2022 2 27, "Día de la Independencia");
  (F 2022 4 15, "Viernes Santo");
  (F 2022 5 1, "Día del Trabajo");
  (F 2022 6 16, "Corpus Christi");
  (F 2022 8 16, "Día de la Restauración");
  (F 2022 9 24, "Día de Nuestra Señora de las Mercedes");
  (F 2022 11 6, "Día de la Constitución");
  (F 2022 12 25, "Navidad");
  (F 2023 1 1, "Año Nuevo");
  (F 2023 1 6, "Día de Reyes");
  (F 2023 1 21, "Día de Nuestra Señora de la Altagracia");
  (F 2023 1 26, "Día de Duarte");
  (F 2023 2 27, "Día de la Independencia");
  (F 2023 4 7, "Viernes Santo");
  (F 2023 5 1, "Día del Trabajo");
  (F 2023 6 8, "Corpus Christi");
  (F 2023 8 16, "Día de la Restauración");
  (F 2023 9 24, "Día de Nuestra Señora de las Mercedes");
  (F 2023 11 6, "Día de la Constitución");
  (F 2023 12 25, "Navidad");
  (F 2024 1 1, "Año Nuevo");
  (F 2024 1 6, "Día de Reyes");
  (F 2024 1 21, "Día de Nuestra Señora de la Altagracia");
  (F 2024 1 26, "Día de Duarte");
  (F 2024 2 27, "Día de la Independencia");
  (F 2024 3 29, "Viernes Santo");
  (F 2024 5 1, "Día del Trabajo");
  (F 2024 5 30, "Corpus Christi");
  (F 2024 8 16, "Día de la Restauración");
  (F 2024 9 24, "Día de Nuestra Señora de las Mercedes");
  (F 2024 11 6, "Día de la Constitución");
  (F 2024 12 25, "Navidad");
  (F 2025 1 1, "Año Nuevo");
  (F 2025 1 6, "Día de Reyes");
  (F 2025 1 21, "Día de Nuestra Señora de la Altagracia");
  (F 2025 1 26, "Día de Duarte");
  (F 2025 2 27, "Día de la Independencia");
  (F 2025 4 18, "Viernes Santo");
  (F 2025 5 1, "Día del Trabajo");
  (F 2025 6 19, "Corpus Christi");
  (F 2025 8 16, "Día de la Restauración");
  (F 2025 9 24, "Día de Nuestra Señora de las Mercedes");
  (F 2025 11 6, "Día de la Constitución");
  (F 2025 12 25, "Navidad");
  (F 2026 1 1, "Año Nuevo");
  (F 2026 1 6, "Día de Reyes");
  (F 2026 1 21, "Día de Nuestra Señora de la Altagracia");
  (F 2026 1 26, "Día de Duarte");
  (F 2026 2 27, "Día de la Independencia");
  (F 2026 4 3, "Viernes Santo");
  (F 2026 5 1, "Día del Trabajo");
  (F 2026 6 4, "Corpus Christi");
  (F 2026 8 16, "Día de la Restauración");
  (F 2026 9 24, "Día de Nuestra Señora de las Mercedes");
  (F 2026 11 6, "Día de la Constitución");
  (F 2026 12 25, "Navidad")
].

(** [IMPACTO_FERIADO] (lines 1289-1294) *)
Definition dia_antes : Q := 11 # 10.
Definition dia_feriado : Q := 6 # 10.
Definition dia_despues : Q := 9 # 10.
Definition sin_impacto : Q := 1.

(** [FACTOR_ESTACIONALIDAD_MENSUAL] (lines 1296-1309) *)
Definition FACTOR_ESTACIONALIDAD_MENSUAL : list (Z * Q) := [
  (1%Z, 95 # 100); (2%Z, 90 # 100); (3%Z, 1); (4%Z, 105 # 100); (5%Z, 1);
  (6%Z, 115 # 100); (7%Z, 125 # 100); (8%Z, 120 # 100); (9%Z, 95 # 100);
  (10%Z, 1); (11%Z, 110 # 100); (12%Z, 140 # 100)
].

(** [pl.col("Mes").replace(FACTOR_ESTACIONALIDAD_MENSUAL)]: a month the
    mapping does not list keeps its own number. *)
Definition factor_mensual (m : Z) : Q :=
  match find (fun kv => (fst kv =? m)%Z) FACTOR_ESTACIONALIDAD_MENSUAL with
  | Some kv => snd kv
  | None => inject_Z m
  end.

(** The left join with the holiday table, nulls filled. *)
Definition es_feriado (f : Fecha) : bool :=
  existsb (fun kv => fecha_eqb (fst kv) f) FERIADOS_RD.

Definition nombre_feriado (f : Fecha) : string :=
  match find (fun kv => fecha_eqb (fst kv) f) FERIADOS_RD with
  | Some kv => snd kv
  | None => "No Feriado"
  end.

(** Body of [for i, is_f in enumerate(feriados_eager)]; [n] is
    [len(fechas_eager)]. *)
Definition paso_feriado (feriados : list bool) (n i : Z) (is_f : bool)
           (arr : list Q) : option (list Q) :=
  if is_f then
    arr1 <- arr_mul arr i dia_feriado ;;
    arr2 <- (if (i >? 0)%Z then
               previo <- arr_get feriados (i - 1) ;;
               if negb previo then arr_mul arr1 (i - 1) dia_antes else Some arr1
             else Some arr1) ;;
    if (i <? n - 1)%Z then
      siguiente <- arr_get feriados (i + 1) ;;
      if negb siguiente then arr_mul arr2 (i + 1) dia_despues else Some arr2
    else Some arr2
  else Some arr.

Fixpoint bucle_feriados (feriados : list bool) (n : Z) (pendientes : list bool)
         (i : Z) (arr : list Q) : option (list Q) :=
  match pendientes with
  | [] => Some arr
  | is_f :: resto =>
      arr' <- paso_feriado feriados n i is_f arr ;;
      bucle_feriados feriados n resto (i + 1) arr'
  end.

(** [impacto_feriado_arr] after the loop; [None] would be an access outside
    the arrays. *)
Definition impacto_feriado (feriados : list bool) : option (list Q) :=
  let n := List.length feriados in
  bucle_feriados feriados (Z.of_nat n) feriados 0 (repeat 1 n).

(** The columns of DimTiempo that carry the seasonality. *)
Record FilaTiempo : Type := {
  Fecha_ : Fecha;
  Mes : Z;
  EsFeriado : bool;
  Nombre_Feriado : string;
  Factor_Estacionalidad_Mensual : Q;
  Factor_Impacto_Feriado : Q;
  Factor_Estacionalidad_General : Q
}.

Definition fila_tiempo (f : Fecha) (impacto : Q) : FilaTiempo :=
  {| Fecha_ := f;
     Mes := mes f;
     EsFeriado := es_feriado f;
     Nombre_Feriado := nombre_feriado f;
     Factor_Estacionalidad_Mensual := factor_mensual (mes f);
     Factor_Impacto_Feriado := impacto;
     Factor_Estacionalidad_General := factor_mensual (mes f) * impacto |}.

(** The generator over a given column of dates. *)
Definition dim_tiempo_de (fechas : list Fecha) : option (list FilaTiempo) :=
  impacto <- impacto_feriado (map es_feriado fechas) ;;
  Some (map (fun fi => fila_tiempo (fst fi) (snd fi)) (combine fechas impacto)).

Definition generar_dim_tiempo : option (list FilaTiempo) :=
  dim_tiempo_de (date_range FECHA_INICIO_PROYECTO FECHA_FIN_PROYECTO).

(** What the specification says a day's holiday multiplier is: 0.6 on a
    holiday; otherwise 0.9 if the day before is a holiday, times 1.1 if the
    day after is one. *)
Definition es_feriado_en (feriados : list bool) (j : nat) : bool :=
  nth j feriados false.

Definition multiplicador (feriados : list bool) (j : nat) : Q :=
  if es_feriado_en feriados j then dia_feriado
  else (if ((1 <=? j)%nat && es_feriado_en feriados (j - 1))%bool
        then dia_despues else sin_impacto)
       * (if es_feriado_en feriados (j + 1) then dia_antes else sin_impacto).

(** Bookkeeping for the loop: what position [j] holds once the first [k]
    days have been visited, factor by factor, and what visiting day [k] (a
    holiday) multiplies position [j] by. *)
Definition facA (feriados : list bool) (k j : nat) : Q :=
  if (es_feriado_en feriados j && (j <? k)%nat)%bool then dia_feriado else 1.

Definition facB (feriados : list bool) (k j : nat) : Q :=
  if (negb (es_feriado_en feriados j) && (1 <=? j)%nat
      && es_feriado_en feriados (j - 1) && (j - 1 <? k)%nat)%bool
  then dia_despues else 1.

Definition facC (feriados : list bool) (k j : nat) : Q :=
  if (negb (es_feriado_en feriados j) && es_feriado_en feriados (j + 1)
      && (j + 1 <? k)%nat)%bool
  then dia_antes else 1.

Definition parcial (feriados : list bool) (k j : nat) : Q :=
  facA feriados k j * facB feriados k j * facC feriados k j.

Definition g1 (k j : nat) : Q := if (j =? k)%nat then dia_feriado else 1.

Definition g2 (feriados : list bool) (k j : nat) : Q :=
  if ((0 <? k)%nat && negb (es_feriado_en feriados (k - 1)) && (j =? k - 1)%nat)%bool
  then dia_antes else 1.

Definition g3 (feriados : list bool) (k j : nat) : Q :=
  if ((k + 1 <? List.length feriados)%nat
      && negb (es_feriado_en feriados (k + 1)) && (j =? k + 1)%nat)%bool
  then dia_despues else 1.

Definition cumple (feriados : list bool) (k : nat) (arr : list Q) : Prop :=
  List.length arr = List.length feriados /\
  forall j, (j < List.length feriados)%nat -> nth j arr 1 == parcial feriados k j.

End Tiempo.

(* ================================================================== *)
(** ** Text helpers: [str(n)], [str.zfill], [str.upper], [in] *)

(** [str(n)] for a non-negative integer. *)
Definition str_nat (n : nat) : string := NilEmpty.string_of_uint (Nat.to_uint n).

Fixpoint ceros (k : nat) : string :=
  match k with
  | O => EmptyString
  | S k' => String "0" (ceros k')
  end.

(** [s.zfill(w)] for an unsigned numeral; also [f"{n:0wd}"] on [str(n)]. *)
Definition zfill (w : nat) (s : string) : string :=
  ceros (w - String.length s) ++ s.

Definition ascii_upper (c : ascii) : ascii :=
  let n := nat_of_ascii c in
  if ((97 <=? n)%nat && (n <=? 122)%nat)%bool then ascii_of_nat (n - 32) else c.

(** [s.upper()] on the ASCII letters. *)
Fixpoint upper (s : string) : string :=
  match s with
  | EmptyString => EmptyString
  | String c r => String (ascii_upper c) (upper r)
  end.

(** [sub in s] *)
Definition contiene (sub s : string) : bool :=
  match String.index 0 sub s with
  | Some _ => true
  | None => false
  end.

(* ================================================================== *)
(** ** Randomness and sampling libraries as an interface *)

(** The operations the generators call on numpy's [Generator], on Python's
    [random] module, on Polars' [DataFrame.sample] and on Faker, each taking
    the source's state and returning the next one. *)
Class Azar : Type := {
  NpGen : Type;
  PyRand : Type;
  FakerSt : Type;
  (** [np.random.default_rng(seed)] *)
  np_default_rng : Z -> NpGen;
  (** [rng.random(size=n)] *)
  np_random : nat -> NpGen -> list Q * NpGen;
  (** index drawn by [rng.choice(a, p=p)] *)
  np_choice_idx : list Q -> NpGen -> nat * NpGen;
  (** index drawn by [rng.choice(a)] with [len(a) = n] *)
  np_choice_unif : nat -> NpGen -> nat * NpGen;
  (** [rng.integers(lo, hi)] *)
  np_integers : Z -> Z -> NpGen -> Z * NpGen;
  (** [rng.uniform(lo, hi)] *)
  np_uniform : Q -> Q -> NpGen -> Q * NpGen;
  (** [random.seed(seed)] *)
  py_seed : Z -> PyRand;
  (** [random.random()] *)
  py_random : PyRand -> Q * PyRand;
  (** [random.randint(a, b)] *)
  py_randint : Z -> Z -> PyRand -> Z * PyRand;
  (** index drawn by [random.choice(seq)] with [len(seq) = n] *)
  py_choice_idx : nat -> PyRand -> nat * PyRand;
  (** index drawn by [random.choices(seq, weights=w, k=1)] *)
  py_choices_idx : list Q -> PyRand -> nat * PyRand;
  (** row indices kept by [df.sample(n=n, seed=seed)] on [height] rows *)
  pl_sample_idx : nat -> nat -> Z -> list nat;
  faker_company : FakerSt -> string * FakerSt;
  faker_name : FakerSt -> string * FakerSt;
  faker_city_suffix : FakerSt -> string * FakerSt;
  faker_street_name : FakerSt -> string * FakerSt
}.

(** The ranges the libraries document for the values drawn. *)
Class AzarLegal `{Azar} : Prop := {
  np_random_length :
    forall n g, List.length (fst (np_random n g)) = n;
  np_choice_idx_lt :
    forall p g, p <> [] -> (fst (np_choice_idx p g) < List.length p)%nat;
  np_choice_unif_lt :
    forall n g, (0 < n)%nat -> (fst (np_choice_unif n g) < n)%nat;
  np_integers_range :
    forall lo hi g, (lo < hi)%Z ->
      (lo <= fst (np_integers lo hi g) < hi)%Z;
  py_randint_range :
    forall a b r, (a <= b)%Z -> (a <= fst (py_randint a b r) <= b)%Z;
  py_choice_idx_lt :
    forall n r, (0 < n)%nat -> (fst (py_choice_idx n r) < n)%nat;
  py_choices_idx_lt :
    forall w r, w <> [] -> (fst (py_choices_idx w r) < List.length w)%nat;
  pl_sample_idx_length :
    forall n h s, (n <= h)%nat -> List.length (pl_sample_idx n h s) = n;
  pl_sample_idx_lt :
    forall n h s i, In i (pl_sample_idx n h s) -> (i < h)%nat
}.

Section Muestreo.

Context `{Azar}.

(** numpy's checks on [p] before a weighted draw from [n] options. *)
Definition p_valida (n : nat) (p : list Q) : bool :=
  ((0 <? n)%nat && (List.length p =? n)%nat
   && forallb (Qle_bool 0) p && Qeq_bool (py_sum p) 1)%bool.

(** [rng.choice(a, p=p)]; [None] is numpy's [ValueError]. *)
Definition rng_choice_p {A : Type} (a : list A) (p : list Q) (g : NpGen)
  : option (A * NpGen) :=
  if p_valida (List.length a) p then
    let (i, g') := np_choice_idx p g in
    x <- nth_error a i ;; Some (x, g')
  else None.

(** [rng.choice(a)] *)
Definition rng_choice {A : Type} (a : list A) (g : NpGen) : option (A * NpGen) :=
  match a with
  | [] => None
  | _ => let (i, g') := np_choice_unif (List.length a) g in
         x <- nth_error a i ;; Some (x, g')
  end.

(** [rng.integers(lo, hi)]; [None] is the [ValueError] for [lo >= hi]. *)
Definition rng_integers (lo hi : Z) (g : NpGen) : option (Z * NpGen) :=
  if (lo <? hi)%Z then Some (np_integers lo hi g) else None.

(** [random.choice(seq)]; [None] is the [IndexError] on an empty sequence. *)
Definition random_choice {A : Type} (l : list A) (r : PyRand)
  : option (A * PyRand) :=
  match l with
  | [] => None
  | _ => let (i, r') := py_choice_idx (List.length l) r in
         x <- nth_error l i ;; Some (x, r')
  end.

(** [random.choices(seq, weights=w, k=1)[0]] *)
Definition random_choices {A : Type} (l : list A) (w : list Q) (r : PyRand)
  : option (A * PyRand) :=
  if ((List.length l =? List.length w)%nat && negb (List.length l =? 0)%nat)%bool then
    let (i, r') := py_choices_idx w r in
    x <- nth_error l i ;; Some (x, r')
  else None.

(** [df.sample(n=n, seed=seed).to_dicts()] *)
Definition df_sample {A : Type} (filas_df : list A) (n : nat) (seed : Z)
  : list A :=
  flat_map (fun i => match nth_error filas_df i with
                     | Some x => [x]
                     | None => []
                     end)
           (pl_sample_idx n (List.length filas_df) seed).

(** [w / w.sum()] when the sum is positive, uniform weights otherwise
    (lines 2524-2528 and 2534-2538). *)
Definition normalizar_array (w : list Q) : list Q :=
  let suma := py_sum w in
  if Qltb 0 suma then map (fun x => x / suma) w
  else repeat (1 / inject_Z (Z.of_nat (List.length w))) (List.length w).

End Muestreo.

(* ================================================================== *)
(** ** Customer lifecycle simulator ([generar_dim_cliente_masiva], lines 2496-2662) *)

Module Clientes.

Record Geografia : Type := {
  ID_Provincia : string;
  Nombre_Provincia : string;
  Region : string;
  Latitud : Q;
  Longitud : Q;
  Peso_Normalizado : Q
}.

Record Canal : Type := {
  ID_Canal : string;
  Nombre_Canal : string;
  Peso_Mercado_Normalizado : Q
}.

(** A row of the accumulator [clientes_activos_historicos]. *)
Record Cliente : Type := {
  ID_Cliente : string;
  Nombre_Cliente : string;
  Cli_ID_Provincia : string;
  Cli_ID_Canal : string;
  Segmento_Cliente : string;
  Cluster_ID : Z;
  Fecha_Alta : Tiempo.Fecha;
  Activo : bool;
  Cli_Latitud : Q;
  Cli_Longitud : Q;
  Ano_Creacion : Z
}.

(** The module-level settings the generator reads. *)
Record Config : Type := {
  ANOS_SIMULACION : list Z;
  NUM_CLIENTES_POR_ANO : list (Z * Z);
  CHURN_RATE_ANUAL : Q;
  PESO_SEGMENTACION_CANAL : Dict (Dict Q);
  SEED_VAL : Z
}.

(** Their values in the repository (lines 366-375, 997-998, 1010, 1125-1127,
    1336). *)
Definition config_repo : Config := {|
  ANOS_SIMULACION := [2021; 2022; 2023; 2024; 2025]%Z;
  NUM_CLIENTES_POR_ANO :=
    [(2021, 61500); (2022, 63000); (2023, 65000); (2024, 67800); (2025, 71000)]%Z;
  CHURN_RATE_ANUAL := 5 # 100;
  PESO_SEGMENTACION_CANAL := [
    ("Supermercado",
      [("A", 4 # 10); ("B", 3 # 10); ("C+", 2 # 10); ("C-", 5 # 100); ("D", 5 # 100); ("E", 0)]);
    ("Colmado",
      [("A", 5 # 100); ("B", 2 # 10); ("C+", 3 # 10); ("C-", 25 # 100); ("D", 15 # 100); ("E", 5 # 100)]);
    ("Tienda",
      [("A", 1 # 10); ("B", 2 # 10); ("C+", 3 # 10); ("C-", 2 # 10); ("D", 1 # 10); ("E", 1 # 10)]);
    ("Mayorista",
      [("A", 15 # 100); ("B", 2 # 10); ("C+", 25 # 100); ("C-", 15 # 100); ("D", 15 # 100); ("E", 1 # 10)]);
    ("Farmacia",
      [("A", 3 # 10); ("B", 4 # 10); ("C+", 2 # 10); ("C-", 5 # 100); ("D", 5 # 100); ("E", 0)]);
    ("Horeca (Hotel/Rest/Café)",
      [("A", 4 # 10); ("B", 3 # 10); ("C+", 2 # 10); ("C-", 1 # 10); ("D", 0); ("E", 0)]);
    ("Institucional",
      [("A", 5 # 10); ("B", 3 # 10); ("C+", 1 # 10); ("C-", 5 # 100); ("D", 5 # 100); ("E", 0)]);
    ("Venta Directa",
      [("A", 0); ("B", 1 # 10); ("C+", 2 # 10); ("C-", 3 # 10); ("D", 2 # 10); ("E", 2 # 10)])
  ];
  SEED_VAL := 42
|}.

(** [f"CLI-{n:06d}"] *)
Definition id_cliente (n : nat) : string := "CLI-" ++ zfill 6 (str_nat n).

(** [sum(1 for c in clientes if c["Activo"])] *)
Definition contar_activos (cs : list Cliente) : nat :=
  List.length (filter Activo cs).

(** [candidatos_mask]: created in an earlier year and still active. *)
Definition es_candidato (ano : Z) (c : Cliente) : bool :=
  ((Ano_Creacion c <? ano)%Z && Activo c)%bool.

Definition desactivar (c : Cliente) : Cliente :=
  {| ID_Cliente := ID_Cliente c;
     Nombre_Cliente := Nombre_Cliente c;
     Cli_ID_Provincia := Cli_ID_Provincia c;
     Cli_ID_Canal := Cli_ID_Canal c;
     Segmento_Cliente := Segmento_Cliente c;
     Cluster_ID := Cluster_ID c;
     Fecha_Alta := Fecha_Alta c;
     Activo := false;
     Cli_Latitud := Cli_Latitud c;
     Cli_Longitud := Cli_Longitud c;
     Ano_Creacion := Ano_Creacion c |}.

(** [activo_np[idx_candidatos[churn_decisions]] = False]: the k-th candidate
    row is deactivated when the k-th decision is true; every other row is
    copied. *)
Fixpoint aplicar_churn (ano : Z) (cs : list Cliente) (decisiones : list bool)
  : list Cliente :=
  match cs with
  | [] => []
  | c :: resto =>
      if es_candidato ano c then
        match decisiones with
        | d :: ds => (if d then desactivar c else c) :: aplicar_churn ano resto ds
        | [] => c :: aplicar_churn ano resto []
        end
      else c :: aplicar_churn ano resto decisiones
  end.

(** What churn may do to a row: nothing, or switch an active row of an
    earlier year to inactive. *)
Definition cambio_churn (ano : Z) (c c' : Cliente) : Prop :=
  c' = c \/ (es_candidato ano c = true /\ c' = desactivar c).

(** What any number of simulated years may do to a row. *)
Definition solo_baja (c c' : Cliente) : Prop :=
  c' = c \/ (Activo c = true /\ c' = desactivar c).

(** A row as growth creates it in year [ano]. *)
Definition es_nuevo (ano : Z) (c : Cliente) : Prop :=
  Activo c = true /\ Ano_Creacion c = ano.

(** Reading a decimal numeral back. *)
Definition leer_nat (s : string) : option nat :=
  option_map Nat.of_uint (NilEmpty.uint_of_string s).

Section Simulador.

Context `{Azar}.

Variable cfg : Config.
Variable df_geo : list Geografia.
Variable df_canal : list Canal.

Definition ids_geo : list string := map ID_Provincia df_geo.
Definition pesos_geo : list Q := normalizar_array (map Peso_Normalizado df_geo).
Definition pesos_canal_global : list Q :=
  normalizar_array (map Peso_Mercado_Normalizado df_canal).

(** The loop state: the three random sources, the id counter and the
    accumulated table. *)
Record Estado : Type := {
  rng : NpGen;
  rnd : PyRand;
  fk : FakerSt;
  current_customer_id_counter : nat;
  clientes_activos_historicos : list Cliente
}.

(** Step 3.1: churn, from the second year on and only on a non-empty table. *)
Definition paso_churn (i : nat) (ano : Z) (st : Estado) : Estado :=
  let cs := clientes_activos_historicos st in
  if ((0 <? i)%nat && negb (List.length cs =? 0)%nat)%bool then
    let num_candidatos := List.length (filter (es_candidato ano) cs) in
    if (0 <? num_candidatos)%nat then
      let (us, g') := np_random num_candidatos (rng st) in
      let churn_decisions :=
        map (fun u => Qltb u (CHURN_RATE_ANUAL cfg)) us in
      {| rng := g'; rnd := rnd st; fk := fk st;
         current_customer_id_counter := current_customer_id_counter st;
         clientes_activos_historicos := aplicar_churn ano cs churn_decisions |}
    else st
  else st.

(** Segment and cluster of a new customer (lines 2605-2618). *)
Definition elegir_segmento (nombre_canal : string) (g : NpGen)
  : option (string * Z * NpGen) :=
  match dict_get (PESO_SEGMENTACION_CANAL cfg) nombre_canal with
  | None | Some [] => Some ("E", 4%Z, g)
  | Some pesos_seg_canal =>
      let segmentos_validos := map fst pesos_seg_canal in
      let valores := map snd pesos_seg_canal in
      let probs_seg := map (fun x => x / py_sum valores) valores in
      sg <- rng_choice_p segmentos_validos probs_seg g ;;
      let (segmento, g1) := (sg : string * NpGen) in
      if (String.eqb segmento "A" || String.eqb segmento "B")%bool then
        cg <- rng_choice_p [1; 2]%Z [6 # 10; 4 # 10] g1 ;;
        Some (segmento, fst cg, snd cg)
      else
        cg <- rng_choice_p [3; 4]%Z [7 # 10; 3 # 10] g1 ;;
        Some (segmento, fst cg, snd cg)
  end.

(** One turn of [for _ in range(num_nuevos)] (lines 2596-2639). *)
Definition nuevo_cliente (ano : Z) (st : Estado) : option (Cliente * Estado) :=
  let contador := S (current_customer_id_counter st) in
  geo <- rng_choice_p ids_geo pesos_geo (rng st) ;;
  let (asign_geo_id, g1) := (geo : string * NpGen) in
  can <- rng_choice_p (seq 0 (List.length df_canal)) pesos_canal_global g1 ;;
  let (asign_canal_idx, g2) := (can : nat * NpGen) in
  canal <- nth_error df_canal asign_canal_idx ;;
  seg <- elegir_segmento (Nombre_Canal canal) g2 ;;
  let '(segmento_elegido, cluster_elegido, g3) := seg in
  let (mes_alta, r1) := py_randint 1 12 (rnd st) in
  let (dia_alta, r2) := py_randint 1 28 r1 in
  let (u, r3) := py_random r2 in
  let (nombre, f1) :=
    if Qltb u (7 # 10) then faker_company (fk st) else faker_name (fk st) in
  let (lat, g4) := np_uniform 18 (198 # 10) g3 in
  let (lon, g5) := np_uniform (- (715 # 10)) (- (685 # 10)) g4 in
  Some ({| ID_Cliente := id_cliente contador;
           Nombre_Cliente := nombre;
           Cli_ID_Provincia := asign_geo_id;
           Cli_ID_Canal := ID_Canal canal;
           Segmento_Cliente := segmento_elegido;
           Cluster_ID := cluster_elegido;
           Fecha_Alta := Tiempo.F ano mes_alta dia_alta;
           Activo := true;
           Cli_Latitud := lat;
           Cli_Longitud := lon;
           Ano_Creacion := ano |},
        {| rng := g5; rnd := r3; fk := f1;
           current_customer_id_counter := contador;
           clientes_activos_historicos := clientes_activos_historicos st |}).

(** [for _ in range(k)]: the rows built this year, in order. *)
Fixpoint crecer (ano : Z) (k : nat) (st : Estado)
  : option (list Cliente * Estado) :=
  match k with
  | O => Some ([], st)
  | S k' =>
      cs <- nuevo_cliente ano st ;;
      let (c, st1) := (cs : Cliente * Estado) in
      rs <- crecer ano k' st1 ;;
      let (resto, st2) := (rs : list Cliente * Estado) in
      Some (c :: resto, st2)
  end.

(** Steps 3.2-3.3: [max(0, target - current_active_customers)]. *)
Definition num_nuevos (target : Z) (cs : list Cliente) : nat :=
  Z.to_nat (Z.max 0 (target - Z.of_nat (contar_activos cs))).

(** Growth: build the new rows, then [extend] the accumulator. *)
Definition paso_crecimiento (ano target : Z) (st : Estado) : option Estado :=
  let n := num_nuevos target (clientes_activos_historicos st) in
  if (0 <? n)%nat then
    rs <- crecer ano n st ;;
    let (new_client_data, st') := (rs : list Cliente * Estado) in
    Some {| rng := rng st'; rnd := rnd st'; fk := fk st';
            current_customer_id_counter := current_customer_id_counter st';
            clientes_activos_historicos :=
              (clientes_activos_historicos st' ++ new_client_data)%list |}
  else Some st.

(** [NUM_CLIENTES_POR_ANO[ano]]; [None] is the [KeyError]. *)
Definition objetivo (ano : Z) : option Z :=
  option_map snd (find (fun kv => (fst kv =? ano)%Z) (NUM_CLIENTES_POR_ANO cfg)).

(** One simulated year: the body of [for i, ano in enumerate(...)]. *)
Definition paso_anual (i : nat) (ano : Z) (st : Estado) : option Estado :=
  target <- objetivo ano ;;
  paso_crecimiento ano target (paso_churn i ano st).

Fixpoint bucle_anos (i : nat) (anos : list Z) (st : Estado) : option Estado :=
  match anos with
  | [] => Some st
  | ano :: resto =>
      st' <- paso_anual i ano st ;;
      bucle_anos (S i) resto st'
  end.

Definition estado_inicial (r : PyRand) (f : FakerSt) : Estado :=
  {| rng := np_default_rng (SEED_VAL cfg); rnd := r; fk := f;
     current_customer_id_counter := 0;
     clientes_activos_historicos := [] |}.

(** The rows handed to the final [pl.DataFrame(...)]; [r] and [f] are the
    states of Python's [random] and of Faker when the generator is called. *)
Definition generar_dim_cliente_masiva (r : PyRand) (f : FakerSt)
  : option (list Cliente) :=
  st <- bucle_anos 0 (ANOS_SIMULACION cfg) (estado_inicial r f) ;;
  Some (clientes_activos_historicos st).

(** The identifiers in the table are those of the counter values used so
    far, in order. *)
Definition ids_en_orden (st : Estado) : Prop :=
  map ID_Cliente (clientes_activos_historicos st)
  = map id_cliente (seq 1 (current_customer_id_counter st)).

(** The segment table of every channel passes numpy's checks. *)
Definition tabla_segmentos_valida : bool :=
  forallb (fun canal =>
             match dict_get (PESO_SEGMENTACION_CANAL cfg) (Nombre_Canal canal) with
             | None | Some [] => true
             | Some ps =>
                 p_valida (List.length (map fst ps))
                          (map (fun x => x / py_sum (map snd ps)) (map snd ps))
             end) df_canal.

(** The sampling inputs are well formed: every weighted draw of a new
    customer passes numpy's checks. *)
Definition muestreo_valido : bool :=
  (p_valida (List.length ids_geo) pesos_geo
   && p_valida (List.length (seq 0 (List.length df_canal))) pesos_canal_global
   && tabla_segmentos_valida)%bool.

End Simulador.

End Clientes.

(* ================================================================== *)
(** ** Distribution centres, fleet and sales agents as rows *)

Module Flota.

(** A row of DimCEDIS as the generators read it; a null cell is [None]. *)
Record Cedi : Type := {
  CEDI_ID : string;
  Nombre_CEDI : string;
  Tipo_CEDI : option string;
  Region_Operacion : string;
  Latitud : Q;
  Longitud : Q;
  Capacidad_Pallets : option Z
}.

(** An entry of [TIPOS_VEHICULOS]. *)
Record TipoVehiculo : Type := {
  Modelo : string;
  Tipo : string;
  Cap_Ton : Q;
  Vol_M3 : Q;
  Km_L : Q;
  Costo_Dia : Z;
  Uso : string;
  Tipo_Depreciacion_Anual_Pct : Q
}.

Definition TIPOS_VEHICULOS : list TipoVehiculo := [
  {| Modelo := "Hyundai HD-78"; Tipo := "Camión Interurbano"; Cap_Ton := 55 # 10;
     Vol_M3 := 20; Km_L := 45 # 10; Costo_Dia := 600; Uso := "Rutas Largas";
     Tipo_Depreciacion_Anual_Pct := 15 # 100 |};
  {| Modelo := "Fuso Canter FE85"; Tipo := "Camión Interurbano"; Cap_Ton := 55 # 10;
     Vol_M3 := 22; Km_L := 45 # 10; Costo_Dia := 600; Uso := "Rutas Provinciales";
     Tipo_Depreciacion_Anual_Pct := 15 # 100 |};
  {| Modelo := "Isuzu NPR"; Tipo := "Furgoneta Urbana"; Cap_Ton := 25 # 10;
     Vol_M3 := 12; Km_L := 55 # 10; Costo_Dia := 400; Uso := "Urbano Denso";
     Tipo_Depreciacion_Anual_Pct := 18 # 100 |};
  {| Modelo := "Panel H-100"; Tipo := "Vehículo Ligero"; Cap_Ton := 15 # 10;
     Vol_M3 := 8; Km_L := 65 # 10; Costo_Dia := 300; Uso := "Colmados/Rural";
     Tipo_Depreciacion_Anual_Pct := 20 # 100 |};
  {| Modelo := "Freightliner M2"; Tipo := "Camión Pesado"; Cap_Ton := 10;
     Vol_M3 := 45; Km_L := 35 # 10; Costo_Dia := 850;
     Uso := "Transferencia CEDI-CEDI/Mayoristas";
     Tipo_Depreciacion_Anual_Pct := 12 # 100 |};
  {| Modelo := "Moto-Carro"; Tipo := "Preventa/Reparto"; Cap_Ton := 5 # 10;
     Vol_M3 := 15 # 10; Km_L := 25; Costo_Dia := 150; Uso := "Preventa/Emergencia";
     Tipo_Depreciacion_Anual_Pct := 25 # 100 |}
].

(** A row of DimVehiculo. *)
Record Vehiculo : Type := {
  ID_Vehiculo : string;
  CEDI_Asignado_ID : string;
  Placa : string;
  Marca_Modelo : string;
  Tipo_Vehiculo : string;
  Capacidad_Carga_Ton : Q;
  Capacidad_Volumen_M3 : Q;
  Rendimiento_Promedio_KmL : Q;
  Costo_Fijo_Operativo_Diario_DOP : Z;
  Uso_Principal : string;
  Anio_Fabricacion : Z;
  Kilometraje_Actual_KM : Z;
  Estado_Vehiculo : string;
  Tiene_GPS : bool;
  Valor_Adquisicion_DOP : Q;
  Depreciacion_Anual_Pct : Q
}.

(** A row of DimVendedor, the columns the route generator reads. *)
Record Vendedor : Type := {
  Vendedor_ID : string;
  CEDI_Base_ID : string;
  Nombre_Vendedor : string;
  Tipo_Vendedor : string;
  Estado_Vendedor : string
}.

Definition SEED_VAL : Z := 42.

Section Generador.

Context `{Azar}.

(** [date.today().year] when the generator runs. *)
Variable hoy_anio : Z.

(** [kilometraje_base] and the bounds of the mileage draw (lines 3183-3189). *)
Definition kilometraje_base (anho_fab : Z) : Z := ((hoy_anio - anho_fab) * 20000)%Z.

Definition kilometraje_actual (anho_fab : Z) (g : NpGen) : option (Z * NpGen) :=
  rng_integers (Z.max 1000 (kilometraje_base anho_fab - 10000))
               (kilometraje_base anho_fab + 30000) g.

Definition pesos_tipo (es_principal : bool) : list Q :=
  if es_principal
  then [25 # 100; 20 # 100; 20 # 100; 10 # 100; 20 # 100; 5 # 100]
  else [15 # 100; 30 # 100; 30 # 100; 15 # 100; 5 # 100; 5 # 100].

(** Body of [for _ in range(n_vehiculos_base)] (lines 3170-3215). *)
Definition nuevo_vehiculo (cedi_id : string) (es_principal : bool)
           (consecutivo : nat) (g : NpGen) : option (Vehiculo * NpGen) :=
  tg <- rng_choice_p TIPOS_VEHICULOS (pesos_tipo es_principal) g ;;
  let (tipo, g1) := (tg : TipoVehiculo * NpGen) in
  lg <- rng_choice ["A"; "B"; "C"; "D"; "L"] g1 ;;
  let (placa_letras, g2) := (lg : string * NpGen) in
  ng <- rng_integers 100000 999999 g2 ;;
  let (placa_nums, g3) := (ng : Z * NpGen) in
  ag <- rng_integers 2015 2023 g3 ;;
  let (anho_fab, g4) := (ag : Z * NpGen) in
  kg <- kilometraje_actual anho_fab g4 ;;
  let (km, g5) := (kg : Z * NpGen) in
  eg <- rng_choice_p ["Operativo"; "En Taller"; "Baja"]
                     [85 # 100; 12 # 100; 3 # 100] g5 ;;
  let (estado, g6) := (eg : string * NpGen) in
  gg <- rng_choice [true; true; false] g6 ;;
  let (gps, g7) := (gg : bool * NpGen) in
  let (valor, g8) :=
    np_uniform (inject_Z (Costo_Dia tipo * 100)) (inject_Z (Costo_Dia tipo * 300)) g7 in
  Some ({| ID_Vehiculo := "VEH-" ++ zfill 4 (str_nat consecutivo);
           CEDI_Asignado_ID := cedi_id;
           Placa := placa_letras ++ str_nat (Z.to_nat placa_nums);
           Marca_Modelo := Modelo tipo;
           Tipo_Vehiculo := Tipo tipo;
           Capacidad_Carga_Ton := Cap_Ton tipo;
           Capacidad_Volumen_M3 := Vol_M3 tipo;
           Rendimiento_Promedio_KmL := Km_L tipo;
           Costo_Fijo_Operativo_Diario_DOP := Costo_Dia tipo;
           Uso_Principal := Uso tipo;
           Anio_Fabricacion := anho_fab;
           Kilometraje_Actual_KM := km;
           Estado_Vehiculo := estado;
           Tiene_GPS := gps;
           Valor_Adquisicion_DOP := py_round valor 2;
           Depreciacion_Anual_Pct := Tipo_Depreciacion_Anual_Pct tipo |},
        g8).

Fixpoint flota_de_cedi (cedi_id : string) (es_principal : bool) (k : nat)
         (consecutivo : nat) (g : NpGen)
  : option (list Vehiculo * nat * NpGen) :=
  match k with
  | O => Some ([], consecutivo, g)
  | S k' =>
      vg <- nuevo_vehiculo cedi_id es_principal consecutivo g ;;
      let (v, g1) := (vg : Vehiculo * NpGen) in
      rs <- flota_de_cedi cedi_id es_principal k' (S consecutivo) g1 ;;
      let '(resto, c', g2) := rs in
      Some (v :: resto, c', g2)
  end.

(** [("PRINCIPAL" in tipo_cedi) or ("PRIN" in cedi_id)] *)
Definition es_cedi_principal (c : Cedi) : bool :=
  let tipo_cedi := upper (match Tipo_CEDI c with Some s => s | None => "" end) in
  (contiene "PRINCIPAL" tipo_cedi || contiene "PRIN" (CEDI_ID c))%bool.

Fixpoint bucle_cedis (cedis : list Cedi) (consecutivo : nat) (g : NpGen)
         (r : PyRand) : option (list Vehiculo) :=
  match cedis with
  | [] => Some []
  | c :: resto =>
      let es_principal := es_cedi_principal c in
      let (n_vehiculos_base, r1) :=
        if es_principal then py_randint 30 45 r else py_randint 15 20 r in
      fl <- flota_de_cedi (CEDI_ID c) es_principal (Z.to_nat n_vehiculos_base)
                          consecutivo g ;;
      let '(vs, c', g1) := fl in
      rs <- bucle_cedis resto c' g1 r1 ;;
      Some (vs ++ rs)%list
  end.

(** The rows of [vehiculos_data]; [r] is the state of Python's [random]
    when the generator is called. *)
Definition generar_dim_vehiculo (df_cedis : list Cedi) (r : PyRand)
  : option (list Vehiculo) :=
  bucle_cedis df_cedis 1 (np_default_rng SEED_VAL) r.

End Generador.

End Flota.

(* ================================================================== *)
(** ** Route generator ([generar_dim_ruta], lines 3247-3444) *)

Module Rutas.

Import Flota.

(** A row of DimRuta. *)
Record Ruta : Type := {
  ID_Ruta : string;
  Nombre_Ruta : string;
  ID_CEDI_Origen : string;
  Nombre_CEDI_Origen : string;
  ID_Provincia_Destino : string;
  Nombre_Provincia_Destino : string;
  Zona_Especifica : string;
  ID_Vehiculo_Asignado : string;
  Marca_Modelo_Vehiculo : string;
  ID_Vendedor_Titular : string;
  Nombre_Vendedor_Titular : string;
  Tipo_Vendedor_Ruta : string;
  Distancia_Ruta_KM : Q;
  Tiempo_Ruta_Estimado_Hrs : Q;
  Costo_Peaje_Estimado_DOP : Q;
  Frecuencia_Visita : string;
  Dias_Operacion_Semana : string;
  Tipo_Ruta_Geografica : string;
  Estado_Ruta : string
}.

Definition VELOCIDAD_PROMEDIO_KMH : Dict Q := [
  ("Urbana Densa", 20); ("Urbana Estándar", 30);
  ("Interurbana Regular", 50); ("Autopista", 70)
].

(** [s[:3]] *)
Definition primeros3 (s : string) : string := String.substring 0 3 s.

(** Lines 3329-3341: two routes per vehicle at most, the capacity limit, and
    the floor of ten applied last. *)
Definition max_rutas_por_vehiculo : Z := 2.

Definition limite_capacidad (capacidad : option Z) : Z :=
  match capacidad with
  | None => 10000
  | Some c => Z.max (Z.quot c 50) 10
  end.

Definition num_rutas_por_cedi (cant_veh : nat) (capacidad : option Z) : Z :=
  Z.max (Z.min (Z.of_nat cant_veh * max_rutas_por_vehiculo)
               (limite_capacidad capacidad))
        10.

(** Lines 3363-3370. *)
Definition tipo_ruta_geografica (distancia_ruta : Q) (region_op : string) : string :=
  if (Qltb distancia_ruta 25
      && (String.eqb region_op "Ozama" || String.eqb region_op "Cibao Central"))%bool
  then "Urbana Densa"
  else if Qltb distancia_ruta 50 then "Urbana Estándar"
  else if Qltb distancia_ruta 150 then "Interurbana Regular"
  else "Autopista".

(** The pools of a centre (lines 3300-3317). *)
Definition vehiculos_disponibles (df_vehiculo : list Vehiculo) (cedi_id : string)
  : list Vehiculo :=
  filter (fun v => (String.eqb (CEDI_Asignado_ID v) cedi_id
                    && String.eqb (Estado_Vehiculo v) "Operativo")%bool) df_vehiculo.

Definition vendedores_disponibles (df_vendedor : list Vendedor) (cedi_id : string)
  : list Vendedor :=
  filter (fun a => (String.eqb (CEDI_Base_ID a) cedi_id
                    && String.eqb (Estado_Vendedor a) "Activo")%bool) df_vendedor.

(** What a route records of the centre and of the pools it was drawn
    from. *)
Definition ruta_de (c : Cedi) (vehs : list Vehiculo) (vends : list Vendedor)
           (r : Ruta) : Prop :=
  ID_CEDI_Origen r = CEDI_ID c /\
  (exists v, In v vehs /\ ID_Vehiculo v = ID_Vehiculo_Asignado r) /\
  (exists a, In a vends /\ Vendedor_ID a = ID_Vendedor_Titular r).

Section Generador.

Context `{Azar}.

(** [geodesic(p, q).km] of geopy, on (latitude, longitude) pairs. *)
Variable geodesic_km : Q * Q -> Q * Q -> Q.

Variable df_geo : list Clientes.Geografia.
Variable df_vehiculo : list Vehiculo.
Variable df_vendedor : list Vendedor.

Record Estado : Type := {
  rng : NpGen;
  rnd : PyRand;
  fake : FakerSt;
  consecutivo_ruta : nat
}.

(** Lines 3283-3297: the region's provinces, or a sample of at most three. *)
Definition geos_objetivo (c : Cedi) (g : NpGen)
  : option (list Clientes.Geografia * NpGen) :=
  let locales :=
    filter (fun p => String.eqb (Clientes.Region p) (Region_Operacion c)) df_geo in
  match locales with
  | [] =>
      sg <- rng_integers 0 10000 g ;;
      Some (df_sample df_geo (Nat.min 3 (List.length df_geo)) (fst sg), snd sg)
  | _ => Some (locales, g)
  end.

(** Body of [for _ in range(num_rutas_por_cedi)] (lines 3344-3427). *)
Definition nueva_ruta (c : Cedi) (geos : list Clientes.Geografia)
           (vehs : list Vehiculo) (vends : list Vendedor) (st : Estado)
  : option (Ruta * Estado) :=
  v1 <- random_choice vehs (rnd st) ;;
  let (vehiculo, r1) := (v1 : Vehiculo * PyRand) in
  v2 <- random_choice vends r1 ;;
  let (vendedor, r2) := (v2 : Vendedor * PyRand) in
  v3 <- random_choice geos r2 ;;
  let (geo_dest, r3) := (v3 : Clientes.Geografia * PyRand) in
  let distancia_lineal :=
    geodesic_km (Latitud c, Longitud c)
                (Clientes.Latitud geo_dest, Clientes.Longitud geo_dest) in
  let (factor, g1) := np_uniform (13 # 10) (16 # 10) (rng st) in
  let distancia_ruta := Qmax 5 (distancia_lineal * factor) in
  let tipo_ruta_geo := tipo_ruta_geografica distancia_ruta (Region_Operacion c) in
  let vel := match dict_get VELOCIDAD_PROMEDIO_KMH tipo_ruta_geo with
             | Some x => x
             | None => 40
             end in
  let tiempo_ida_hrs := py_round (distancia_ruta / vel) 2 in
  v4 <- random_choices ["Diaria (L-S)"; "Interdiaria (L-M-X)"; "Semanal (1 día)"]
                       [3 # 10; 5 # 10; 2 # 10] r3 ;;
  let (frecuencia, r4) := (v4 : string * PyRand) in
  v5 <- (if String.eqb frecuencia "Diaria (L-S)" then Some ("L-M-M-J-V-S", r4)
         else if String.eqb frecuencia "Interdiaria (L-M-X)"
              then random_choice ["L-M-V"; "M-J-S"; "L-X-V"] r4
              else random_choice
                     ["Lunes"; "Martes"; "Miércoles"; "Jueves"; "Viernes"] r4) ;;
  let (dias_visita, r5) := (v5 : string * PyRand) in
  let nombre_prov_dest := Clientes.Nombre_Provincia geo_dest in
  let nombre_ruta :=
    "Ruta " ++ upper (primeros3 (Region_Operacion c)) ++ "-"
    ++ zfill 4 (str_nat (consecutivo_ruta st)) ++ "-" ++ nombre_prov_dest in
  let (sufijo, f1) := faker_city_suffix (fake st) in
  let (calle, f2) := faker_street_name f1 in
  v6 <- random_choices [0; 0; 50; 100; 200]
                       [4 # 10; 2 # 10; 2 # 10; 1 # 10; 1 # 10] r5 ;;
  let (peaje, r6) := (v6 : Q * PyRand) in
  Some ({| ID_Ruta := "RUT-" ++ zfill 5 (str_nat (consecutivo_ruta st));
           Nombre_Ruta := nombre_ruta;
           ID_CEDI_Origen := CEDI_ID c;
           Nombre_CEDI_Origen := Nombre_CEDI c;
           ID_Provincia_Destino := Clientes.ID_Provincia geo_dest;
           Nombre_Provincia_Destino := nombre_prov_dest;
           Zona_Especifica := sufijo ++ " " ++ calle;
           ID_Vehiculo_Asignado := ID_Vehiculo vehiculo;
           Marca_Modelo_Vehiculo := Marca_Modelo vehiculo;
           ID_Vendedor_Titular := Vendedor_ID vendedor;
           Nombre_Vendedor_Titular := Nombre_Vendedor vendedor;
           Tipo_Vendedor_Ruta := Tipo_Vendedor vendedor;
           Distancia_Ruta_KM := py_round distancia_ruta 2;
           Tiempo_Ruta_Estimado_Hrs := tiempo_ida_hrs;
           Costo_Peaje_Estimado_DOP := peaje;
           Frecuencia_Visita := frecuencia;
           Dias_Operacion_Semana := dias_visita;
           Tipo_Ruta_Geografica := tipo_ruta_geo;
           Estado_Ruta := "Activa" |},
        {| rng := g1; rnd := r6; fake := f2;
           consecutivo_ruta := S (consecutivo_ruta st) |}).

Fixpoint bucle_rutas (c : Cedi) (geos : list Clientes.Geografia)
         (vehs : list Vehiculo) (vends : list Vendedor) (k : nat) (st : Estado)
  : option (list Ruta * Estado) :=
  match k with
  | O => Some ([], st)
  | S k' =>
      rs <- nueva_ruta c geos vehs vends st ;;
      let (r, st1) := (rs : Ruta * Estado) in
      rest <- bucle_rutas c geos vehs vends k' st1 ;;
      let (rutas, st2) := (rest : list Ruta * Estado) in
      Some (r :: rutas, st2)
  end.

(** One turn of [for row_cedi in df_cedi.iter_rows(named=True)]: the routes
    appended for this centre. *)
Definition rutas_de_cedi (c : Cedi) (st : Estado) : option (list Ruta * Estado) :=
  gs <- geos_objetivo c (rng st) ;;
  let (geos, g1) := (gs : list Clientes.Geografia * NpGen) in
  let st1 := {| rng := g1; rnd := rnd st; fake := fake st;
                consecutivo_ruta := consecutivo_ruta st |} in
  let vehs := vehiculos_disponibles df_vehiculo (CEDI_ID c) in
  let vends := vendedores_disponibles df_vendedor (CEDI_ID c) in
  match vehs, vends with
  | [], _ | _, [] => Some ([], st1)
  | _, _ =>
      bucle_rutas c geos vehs vends
        (Z.to_nat (num_rutas_por_cedi (List.length vehs) (Capacidad_Pallets c))) st1
  end.

Fixpoint bucle_cedis (cedis : list Cedi) (st : Estado) : option (list Ruta) :=
  match cedis with
  | [] => Some []
  | c :: resto =>
      rs <- rutas_de_cedi c st ;;
      let (rutas, st1) := (rs : list Ruta * Estado) in
      mas <- bucle_cedis resto st1 ;;
      Some (rutas ++ mas)%list
  end.

(** The rows of [rutas_data]; [f] is the state of the module-level Faker. *)
Definition generar_dim_ruta (df_cedi : list Cedi) (f : FakerSt)
  : option (list Ruta) :=
  bucle_cedis df_cedi
    {| rng := np_default_rng SEED_VAL; rnd := py_seed SEED_VAL; fake := f;
       consecutivo_ruta := 1 |}.

End Generador.

End Rutas.

(* ================================================================== *)
(** ** A runnable stand-in for the libraries, and small tables *)

Module Prueba.

(** A linear congruential generator plays numpy's [Generator], Python's
    [random] and Faker, so that the generators can be run on examples. *)
Definition siguiente (z : Z) : Z := ((z * 1103515245 + 12345) mod 2147483648)%Z.

Definition tirada (z : Z) : Z * Z :=
  let z' := siguiente z in ((z' / 65536)%Z, z').

Definition fraccion (v : Z) : Q := inject_Z (v mod 1000) / 1000.

Fixpoint tiradas (n : nat) (z : Z) : list Q * Z :=
  match n with
  | O => ([], z)
  | S n' =>
      let (v, z1) := tirada z in
      let (vs, z2) := tiradas n' z1 in
      (fraccion v :: vs, z2)
  end.

Definition indice (n : nat) (z : Z) : nat * Z :=
  let (v, z') := tirada z in (Z.to_nat (v mod Z.of_nat n), z').

Definition entero (lo hi : Z) (z : Z) : Z * Z :=
  let (v, z') := tirada z in ((lo + v mod (hi - lo))%Z, z').

Definition uniforme (lo hi : Q) (z : Z) : Q * Z :=
  let (v, z') := tirada z in (lo + (hi - lo) * fraccion v, z').

Definition texto (prefijo : string) (z : Z) : string * Z :=
  (prefijo ++ str_nat (Z.to_nat (z mod 100)), siguiente z).

Definition azar_prueba : Azar := {|
  NpGen := Z;
  PyRand := Z;
  FakerSt := Z;
  np_default_rng := fun seed => seed;
  np_random := tiradas;
  np_choice_idx := fun p z => indice (List.length p) z;
  np_choice_unif := indice;
  np_integers := entero;
  np_uniform := uniforme;
  py_seed := fun seed => (seed + 1)%Z;
  py_random := fun z => let (v, z') := tirada z in (fraccion v, z');
  py_randint := fun a b z => entero a (b + 1) z;
  py_choice_idx := indice;
  py_choices_idx := fun w z => indice (List.length w) z;
  pl_sample_idx := fun n h _ => seq 0 (Nat.min n h);
  faker_company := texto "Empresa ";
  faker_name := texto "Persona ";
  faker_city_suffix := texto "Villa ";
  faker_street_name := texto "Calle "
|}.

Definition geo_prueba : list Clientes.Geografia := [
  {| Clientes.ID_Provincia := "SANTO01"; Clientes.Nombre_Provincia := "Santo Domingo";
     Clientes.Region := "Ozama"; Clientes.Latitud := 1848 # 100;
     Clientes.Longitud := - (6994 # 100); Clientes.Peso_Normalizado := 29 # 100 |};
  {| Clientes.ID_Provincia := "SANTI04"; Clientes.Nombre_Provincia := "Santiago";
     Clientes.Region := "Cibao Norte"; Clientes.Latitud := 1945 # 100;
     Clientes.Longitud := - (7070 # 100); Clientes.Peso_Normalizado := 9 # 100 |}
].

Definition canales_prueba : list Clientes.Canal := [
  {| Clientes.ID_Canal := "CAN-01"; Clientes.Nombre_Canal := "Colmado";
     Clientes.Peso_Mercado_Normalizado := 55 # 100 |};
  {| Clientes.ID_Canal := "CAN-02"; Clientes.Nombre_Canal := "Supermercado";
     Clientes.Peso_Mercado_Normalizado := 25 # 100 |}
].

(** Two simulated years with small targets. *)
Definition cfg_prueba : Clientes.Config := {|
  Clientes.ANOS_SIMULACION := [2021; 2022]%Z;
  Clientes.NUM_CLIENTES_POR_ANO := [(2021, 3); (2022, 5)]%Z;
  Clientes.CHURN_RATE_ANUAL := 5 # 100;
  Clientes.PESO_SEGMENTACION_CANAL :=
    Clientes.PESO_SEGMENTACION_CANAL Clientes.config_repo;
  Clientes.SEED_VAL := 42
|}.

Definition cedi_prueba : Flota.Cedi := {|
  Flota.CEDI_ID := "CEDI-02"; Flota.Nombre_CEDI := "CEDI Santiago";
  Flota.Tipo_CEDI := Some "Regional"; Flota.Region_Operacion := "Cibao Norte";
  Flota.Latitud := 1942 # 100; Flota.Longitud := - (7065 # 100);
  Flota.Capacidad_Pallets := None
|}.

(** One operational vehicle and one active agent based at [cedi_prueba]. *)
Definition vehiculo_prueba : Flota.Vehiculo := {|
  Flota.ID_Vehiculo := "VEH-0001"; Flota.CEDI_Asignado_ID := "CEDI-02";
  Flota.Placa := "A123456"; Flota.Marca_Modelo := "Isuzu NPR";
  Flota.Tipo_Vehiculo := "Furgoneta Urbana"; Flota.Capacidad_Carga_Ton := 25 # 10;
  Flota.Capacidad_Volumen_M3 := 12; Flota.Rendimiento_Promedio_KmL := 55 # 10;
  Flota.Costo_Fijo_Operativo_Diario_DOP := 400; Flota.Uso_Principal := "Urbano Denso";
  Flota.Anio_Fabricacion := 2020; Flota.Kilometraje_Actual_KM := 90000;
  Flota.Estado_Vehiculo := "Operativo"; Flota.Tiene_GPS := true;
  Flota.Valor_Adquisicion_DOP := 80000; Flota.Depreciacion_Anual_Pct := 18 # 100
|}.

Definition vendedor_prueba : Flota.Vendedor := {|
  Flota.Vendedor_ID := "EMP-0007"; Flota.CEDI_Base_ID := "CEDI-02";
  Flota.Nombre_Vendedor := "Ana Pérez"; Flota.Tipo_Vendedor := "Preventista";
  Flota.Estado_Vendedor := "Activo"
|}.

(** A constant stand-in for geopy's distance. *)
Definition geodesic_prueba (p q : Q * Q) : Q := 40.

(** A frame with one schema column of another type, one column the schema
    does not name, and a schema that asks for three more. *)
Definition df_prueba : Esquema.DataFrame := [
  {| Esquema.nombre := "Extra"; Esquema.dtype := Esquema.Utf8;
     Esquema.valores := [Esquema.VStr "x"; Esquema.VStr "y"] |};
  {| Esquema.nombre := "Cluster_ID"; Esquema.dtype := Esquema.Int64;
     Esquema.valores := [Esquema.VInt 1; Esquema.VInt 4] |}
].

Definition schema_prueba : Esquema.Schema := [
  ("ID_Cliente", Esquema.Utf8); ("Cluster_ID", Esquema.Int8);
  ("Fecha_Alta", Esquema.Date); ("Activo", Esquema.Boolean)
].

(** A cast that always succeeds and keeps the cells. *)
Definition cast_prueba (desde hacia : Esquema.DType) (vs : list Esquema.Valor)
  : option (list Esquema.Valor) := Some vs.

End Prueba.

(* ================================================================== *)
(** ** Weight validation ([validar_pesos], lines 143-149) *)

Module Validacion.

Definition msg_integridad (nombre_entidad : string) : string :=
  "[Integridad] Pesos de '" ++ nombre_entidad ++ "' no suman 1.0".

Definition msg_validados (nombre_entidad : string) : string :=
  "[Integridad] Pesos de '" ++ nombre_entidad ++ "' validados correctamente.".

(** The log records of one call; the function returns nothing and raises
    nothing. *)
Definition validar_pesos (lista : list (Dict Q)) (llave_peso nombre_entidad : string)
           (tolerancia : Q) : list LogRecord :=
  let total := py_sum (map (Pesos.peso_o_cero llave_peso) lista) in
  if negb (isclose total 1 tolerancia)
  then [LogWarning (msg_integridad nombre_entidad)]
  else [LogInfo (msg_validados nombre_entidad)].

(** Default of the signature. *)
Definition tolerancia_defecto : Q := 2 # 100.

End Validacion.

(* ================================================================== *)
(** ** Fiscal calendar and date key of DimTiempo (lines 1819-1845) *)

Module Fiscal.

(** [pl.when(Mes >= 7).then(Anio).otherwise(Anio - 1)] *)
Definition anio_fiscal (anio mes : Z) : Z :=
  (if mes >=? 7 then anio else anio - 1)%Z.

(** [pl.when(Mes >= 7).then(Mes - 6).otherwise(Mes + 6)] *)
Definition mes_fiscal (mes : Z) : Z :=
  (if mes >=? 7 then mes - 6 else mes + 6)%Z.

(** [Expr.is_between(a, b)], both ends included. *)
Definition is_between (x a b : Z) : bool := ((a <=? x)%Z && (x <=? b)%Z)%bool.

Definition trimestre_fiscal (mes_f : Z) : Z :=
  if is_between mes_f 1 3 then 1%Z
  else if is_between mes_f 4 6 then 2%Z
  else if is_between mes_f 7 9 then 3%Z
  else 4%Z.

(** [dt.strftime("%Y%m%d").cast(pl.Int32)] for a four-digit year. *)
Definition id_tiempo (f : Tiempo.Fecha) : Z :=
  (Tiempo.anio f * 10000 + Tiempo.mes f * 100 + Tiempo.dia f)%Z.

(** [dt.day().is_in([15, 30, 28, 29, 31])] *)
Definition es_quincena (f : Tiempo.Fecha) : bool :=
  existsb (Z.eqb (Tiempo.dia f)) [15; 30; 28; 29; 31]%Z.

(** A calendar month and day of month as the date type allows them. *)
Definition fecha_en_rango (f : Tiempo.Fecha) : Prop :=
  (1 <= Tiempo.anio f <= 9999 /\ 1 <= Tiempo.mes f <= 12 /\ 1 <= Tiempo.dia f <= 31)%Z.

(** Chronological order on (year, month) pairs. *)
Definition antes_ym (a1 m1 a2 m2 : Z) : Prop :=
  (a1 < a2 \/ (a1 = a2 /\ m1 < m2))%Z.

End Fiscal.

(* ================================================================== *)
(** ** Centre of an employee ([provincia_a_cedi], lines 2786-2804) *)

Module Empleados.

(** [dict(zip(keys, values)).get(k)]: of the pairs with key [k] the last one
    wins. *)
Fixpoint buscar_ultimo {V : Type} (pares : list (string * V)) (k : string)
  : option V :=
  match pares with
  | [] => None
  | (k', v) :: resto =>
      match buscar_ultimo resto k with
      | Some x => Some x
      | None => if String.eqb k' k then Some v else None
      end
  end.

(** [region_por_prov] *)
Definition region_por_prov (df_geografia : list Clientes.Geografia)
  : list (string * string) :=
  map (fun g => (Clientes.ID_Provincia g, Clientes.Region g)) df_geografia.

(** [cedis_por_region.get(reg)], the empty list standing for a missing key:
    the centres operating in [reg], in row order. *)
Definition cedis_por_region (df_cedi : list Flota.Cedi) (reg : string)
  : list string :=
  map Flota.CEDI_ID
      (filter (fun c => String.eqb (Flota.Region_Operacion c) reg) df_cedi).

Definition cedi_principal : string := "CEDI-PRIN-01".

Section Asignacion.

Context `{Azar}.

Variable df_geografia : list Clientes.Geografia.
Variable df_cedi : list Flota.Cedi.

Definition provincia_a_cedi (prov_id : option string) (r : PyRand)
  : option (string * PyRand) :=
  match prov_id with
  | None => Some (cedi_principal, r)
  | Some p =>
      match buscar_ultimo (region_por_prov df_geografia) p with
      | None => Some (cedi_principal, r)
      | Some reg =>
          match cedis_por_region df_cedi reg with
          | [] => Some (cedi_principal, r)
          | cedis_reg => random_choice cedis_reg r
          end
      end
  end.

End Asignacion.

End Empleados.

(* ================================================================== *)
(** ** Well-formed rows of the generated tables *)

Module Integridad.

(** A customer row drawn from [df_geo] and [df_canal] in a year that
    [validos] admits: its keys are keys of those tables, its sign-up date
    lies in its creation year on a day every month has, and its cluster
    follows its segment (1 or 2 for segments A and B, 3 or 4 otherwise). *)
Definition cliente_bien_formado (validos : Z -> Prop)
           (df_geo : list Clientes.Geografia) (df_canal : list Clientes.Canal)
           (c : Clientes.Cliente) : Prop :=
  In (Clientes.Cli_ID_Provincia c) (map Clientes.ID_Provincia df_geo) /\
  In (Clientes.Cli_ID_Canal c) (map Clientes.ID_Canal df_canal) /\
  validos (Clientes.Ano_Creacion c) /\
  Tiempo.anio (Clientes.Fecha_Alta c) = Clientes.Ano_Creacion c /\
  (1 <= Tiempo.mes (Clientes.Fecha_Alta c) <= 12)%Z /\
  (1 <= Tiempo.dia (Clientes.Fecha_Alta c) <= 28)%Z /\
  (if (String.eqb (Clientes.Segmento_Cliente c) "A"
       || String.eqb (Clientes.Segmento_Cliente c) "B")%bool
   then In (Clientes.Cluster_ID c) [1; 2]%Z
   else In (Clientes.Cluster_ID c) [3; 4]%Z).

(** [f"VEH-{str(n).zfill(4)}"] and [f"RUT-{str(n).zfill(5)}"] *)
Definition id_vehiculo (n : nat) : string := "VEH-" ++ zfill 4 (str_nat n).
Definition id_ruta (n : nat) : string := "RUT-" ++ zfill 5 (str_nat n).

(** A fleet row generated in calendar year [hoy_anio] for the centres
    [df_cedis]: it belongs to one of them, its state is one of the three the
    generator draws from, it was built between 2015 and 2022, its mileage
    lies in the window of the draw, and its technical columns are those of
    one entry of [TIPOS_VEHICULOS]. *)
Definition vehiculo_bien_formado (hoy_anio : Z) (df_cedis : list Flota.Cedi)
           (v : Flota.Vehiculo) : Prop :=
  In (Flota.CEDI_Asignado_ID v) (map Flota.CEDI_ID df_cedis) /\
  In (Flota.Estado_Vehiculo v) ["Operativo"; "En Taller"; "Baja"] /\
  (2015 <= Flota.Anio_Fabricacion v <= 2022)%Z /\
  (Z.max 1000 (Flota.kilometraje_base hoy_anio (Flota.Anio_Fabricacion v) - 10000)
   <= Flota.Kilometraje_Actual_KM v
   < Flota.kilometraje_base hoy_anio (Flota.Anio_Fabricacion v) + 30000)%Z /\
  exists t, In t Flota.TIPOS_VEHICULOS /\
            Flota.Marca_Modelo v = Flota.Modelo t /\
            Flota.Tipo_Vehiculo v = Flota.Tipo t /\
            Flota.Capacidad_Carga_Ton v = Flota.Cap_Ton t /\
            Flota.Capacidad_Volumen_M3 v = Flota.Vol_M3 t /\
            Flota.Rendimiento_Promedio_KmL v = Flota.Km_L t /\
            Flota.Costo_Fijo_Operativo_Diario_DOP v = Flota.Costo_Dia t /\
            Flota.Uso_Principal v = Flota.Uso t /\
            Flota.Depreciacion_Anual_Pct v = Flota.Tipo_Depreciacion_Anual_Pct t.

(** The block of fleet rows of one centre: all assigned to it, 30 to 45 of
    them for a principal centre and 15 to 20 otherwise. *)
Definition bloque_de_cedi (c : Flota.Cedi) (bloque : list Flota.Vehiculo) : Prop :=
  Forall (fun v => Flota.CEDI_Asignado_ID v = Flota.CEDI_ID c) bloque /\
  if Flota.es_cedi_principal c
  then (30 <= List.length bloque <= 45)%nat
  else (15 <= List.length bloque <= 20)%nat.

(** A route row of centre [c] over the geography [df_geo]. *)
Definition ruta_bien_formada (df_geo : list Clientes.Geografia) (c : Flota.Cedi)
           (r : Rutas.Ruta) : Prop :=
  Rutas.ID_CEDI_Origen r = Flota.CEDI_ID c /\
  Rutas.Nombre_CEDI_Origen r = Flota.Nombre_CEDI c /\
  Rutas.Estado_Ruta r = "Activa" /\
  (5 <= Rutas.Distancia_Ruta_KM r)%Q /\
  In (Rutas.Tipo_Ruta_Geografica r) (map fst Rutas.VELOCIDAD_PROMEDIO_KMH) /\
  (Rutas.Tipo_Ruta_Geografica r = "Urbana Densa" ->
   In (Flota.Region_Operacion c) ["Ozama"; "Cibao Central"]) /\
  (exists p, In p df_geo /\
             Clientes.ID_Provincia p = Rutas.ID_Provincia_Destino r /\
             Clientes.Nombre_Provincia p = Rutas.Nombre_Provincia_Destino r /\
             ((exists q, In q df_geo /\ Clientes.Region q = Flota.Region_Operacion c) ->
              Clientes.Region p = Flota.Region_Operacion c)) /\
  In (Rutas.Costo_Peaje_Estimado_DOP r) [0; 50; 100; 200]%Q /\
  ((Rutas.Frecuencia_Visita r = "Diaria (L-S)" /\
    Rutas.Dias_Operacion_Semana r = "L-M-M-J-V-S") \/
   (Rutas.Frecuencia_Visita r = "Interdiaria (L-M-X)" /\
    In (Rutas.Dias_Operacion_Semana r) ["L-M-V"; "M-J-S"; "L-X-V"]) \/
   (Rutas.Frecuencia_Visita r = "Semanal (1 día)" /\
    In (Rutas.Dias_Operacion_Semana r)
       ["Lunes"; "Martes"; "Miércoles"; "Jueves"; "Viernes"])).

End Integridad.

(* ================================================================== *)
(** * Properties *)

Close Scope string_scope.

Section RedondeoFacts.

Local Open Scope Q_scope.

Lemma round_half_even_cases (q : Q) :
  (round_half_even q = Qfloor q /\ q - inject_Z (Qfloor q) <= 1 # 2) \/
  (round_half_even q = (Qfloor q + 1)%Z /\ 1 # 2 <= q - inject_Z (Qfloor q)).
Proof.
  unfold round_half_even.
  destruct (Qcompare (q - inject_Z (Qfloor q)) (1 # 2)) eqn:E.
  - apply Qeq_alt in E.
    destruct (Z.even (Qfloor q)); [left | right]; split; auto; rewrite E; apply Qle_refl.
  - apply Qlt_alt in E. left. split; auto. apply Qlt_le_weak; exact E.
  - apply Qgt_alt in E. right. split; auto. apply Qlt_le_weak; exact E.
Qed.


Lemma pow10_pos (nd : nat) : 0 < pow10 nd.
Proof.
  unfold pow10. change 0 with (inject_Z 0). rewrite <- Zlt_Qlt.
  apply Z.pow_pos_nonneg; lia.
Qed.


Local Open Scope Q_scope.

Lemma fold_left_Qplus_acc (l : list Q) (a : Q) :
  fold_left Qplus l a == a + fold_left Qplus l 0.
Proof.
  revert a. induction l as [| x l IH]; intros a; simpl.
  - ring.
  - rewrite IH. rewrite (IH (0 + x)). ring.
Qed.

Lemma py_sum_cons (x : Q) (l : list Q) : py_sum (x :: l) == x + py_sum l.
Proof. unfold py_sum. simpl. rewrite fold_left_Qplus_acc. ring. Qed.

Lemma py_sum_nil : py_sum [] == 0.
Proof. reflexivity. Qed.

Lemma py_sum_scale (l : list Q) (k : Q) :
  py_sum (map (fun w => w * k) l) == py_sum l * k.
Proof.
  induction l as [| x l IH]; simpl.
  - rewrite py_sum_nil. ring.
  - rewrite !py_sum_cons, IH. ring.
Qed.

Lemma py_sum_div (l : list Q) (s : Q) :
  py_sum (map (fun w => w / s) l) == py_sum l / s.
Proof. unfold Qdiv. apply py_sum_scale. Qed.



Import Pesos.






Local Open Scope Q_scope.
Import Pesos.


Lemma normalizar_pesos_total_cero lista columna columna_salida :
  py_sum (map (peso_o_cero columna) lista) == 0 ->
  normalizar_pesos lista columna columna_salida
  = {| lista_final := lista;
       registro := [LogError msg_suma_cero];
       excepcion := Some (ValueError msg_suma_cero) |}.
Proof.
  intros Hz. unfold normalizar_pesos.
  apply Qeq_bool_iff in Hz. now rewrite Hz.
Qed.


Example ej : normalizados col_salida
        (lista_final (normalizar_pesos (items_de [1; 1; 2]) col_peso col_salida))
      = [1 # 4; 1 # 4; 1 # 2].
Proof. vm_compute. reflexivity. Qed.





Local Open Scope Q_scope.
Import Pesos.





End RedondeoFacts.

Section EsquemaFacts.

Import Esquema.

Section EnforcerFacts.

Variable cast_valores : DType -> DType -> list Valor -> option (list Valor).
Variable vd : Dict Valor.

Lemma buscar_columna_nombre df col c :
  buscar_columna df col = Some c -> nombre c = col.
Proof.
  unfold buscar_columna. intros Hf. apply find_some in Hf.
  destruct Hf as [_ Hf]. now apply String.eqb_eq in Hf.
Qed.

Lemma tiene_columna_buscar df col :
  tiene_columna df col = true <-> buscar_columna df col <> None.
Proof.
  unfold tiene_columna, buscar_columna, columnas.
  induction df as [| c df IH]; simpl.
  - split; [discriminate | congruence].
  - rewrite (String.eqb_sym col (nombre c)).
    destruct (String.eqb (nombre c) col); simpl.
    + split; [discriminate | reflexivity].
    + exact IH.
Qed.

Lemma tiene_columna_false_buscar df col :
  tiene_columna df col = false <-> buscar_columna df col = None.
Proof.
  pose proof (tiene_columna_buscar df col) as [H1 H2].
  destruct (tiene_columna df col) eqn:Et; split; intros Hx; try discriminate; auto.
  - exfalso. apply H1; auto.
  - destruct (buscar_columna df col) eqn:Eb; auto.
    assert (false = true) by (apply H2; discriminate). discriminate.
Qed.

Lemma buscar_columna_app df1 df2 col :
  buscar_columna (df1 ++ df2) col
  = match buscar_columna df1 col with
    | Some c => Some c
    | None => buscar_columna df2 col
    end.
Proof.
  unfold buscar_columna. induction df1 as [| c df1 IH]; simpl; auto.
  destruct (String.eqb (nombre c) col); auto.
Qed.

Lemma buscar_columna_reemplazar_otra df c' col :
  nombre c' <> col ->
  buscar_columna (reemplazar_columna df c') col = buscar_columna df col.
Proof.
  intros Hne. unfold buscar_columna, reemplazar_columna.
  induction df as [| c df IH]; simpl; auto.
  destruct (String.eqb (nombre c) (nombre c')) eqn:E.
  - apply String.eqb_eq in E.
    assert (En : String.eqb (nombre c') col = false) by now apply String.eqb_neq.
    assert (Ec : String.eqb (nombre c) col = false) by (rewrite E; exact En).
    rewrite En, Ec. exact IH.
  - destruct (String.eqb (nombre c) col); auto.
Qed.

Lemma buscar_columna_reemplazar_misma df c' :
  buscar_columna df (nombre c') <> None ->
  buscar_columna (reemplazar_columna df c') (nombre c') = Some c'.
Proof.
  unfold buscar_columna, reemplazar_columna.
  induction df as [| c df IH]; simpl; [congruence |].
  destruct (String.eqb (nombre c) (nombre c')) eqn:E; simpl.
  - now rewrite String.eqb_refl.
  - rewrite E. exact IH.
Qed.

(** A step leaves every column of another name as it was. *)
Lemma paso_columna_otra st col t c :
  col <> c ->
  buscar_columna (fst (paso_columna cast_valores vd st (col, t))) c
  = buscar_columna (fst st) c.
Proof.
  intros Hne. destruct st as [df logs]. unfold paso_columna.
  destruct (tiene_columna df col) eqn:Ht; simpl.
  - destruct (buscar_columna df col) as [c0 |] eqn:Eb; simpl; auto.
    destruct (dtype_eqb (dtype c0) t); simpl; auto.
    destruct (cast_valores (dtype c0) t (valores c0)); simpl; auto.
    now apply buscar_columna_reemplazar_otra.
  - unfold agregar_literal. rewrite buscar_columna_app.
    destruct (buscar_columna df c); auto.
    unfold buscar_columna. simpl.
    assert (E : String.eqb col c = false) by now apply String.eqb_neq.
    now rewrite E.
Qed.

(** After its step, a schema column is in the frame. *)
Lemma paso_columna_presente st col t :
  buscar_columna (fst (paso_columna cast_valores vd st (col, t))) col <> None.
Proof.
  destruct st as [df logs]. unfold paso_columna.
  destruct (tiene_columna df col) eqn:Ht; simpl.
  - pose proof (proj1 (tiene_columna_buscar df col) Ht) as Hb.
    destruct (buscar_columna df col) as [c0 |] eqn:Eb; [| congruence].
    destruct (dtype_eqb (dtype c0) t); simpl; [now rewrite Eb |].
    destruct (cast_valores (dtype c0) t (valores c0)); simpl; [| now rewrite Eb].
    pose proof (buscar_columna_reemplazar_misma df
               {| nombre := col; dtype := t; valores := l |}) as Hr.
    cbn [nombre] in Hr. rewrite Hr; [discriminate | now rewrite Eb].
  - unfold agregar_literal. rewrite buscar_columna_app.
    destruct (buscar_columna df col); [discriminate |].
    unfold buscar_columna. simpl. rewrite String.eqb_refl. discriminate.
Qed.

(** The step of a column the frame lacks appends the literal column. *)
Lemma paso_columna_ausente df logs col t :
  buscar_columna df col = None ->
  buscar_columna (fst (paso_columna cast_valores vd (df, logs) (col, t))) col
  = Some {| nombre := col; dtype := t;
            valores := repeat (valor_defecto vd col t) (filas df) |}.
Proof.
  intros Hb. unfold paso_columna.
  apply tiene_columna_false_buscar in Hb as Ht. rewrite Ht. simpl.
  unfold agregar_literal. rewrite buscar_columna_app, Hb.
  unfold buscar_columna. simpl. now rewrite String.eqb_refl.
Qed.

Local Abbreviation bucle := (bucle_esquema cast_valores vd).

Lemma bucle_cons e schema st :
  bucle (e :: schema) st = bucle schema (paso_columna cast_valores vd st e).
Proof. reflexivity. Qed.

Lemma bucle_otra schema st c :
  ~ In c (map fst schema) ->
  buscar_columna (fst (bucle schema st)) c = buscar_columna (fst st) c.
Proof.
  revert st. induction schema as [| [col t] schema IH]; intros st Hn; auto.
  simpl in Hn. rewrite bucle_cons, IH by tauto.
  apply paso_columna_otra. tauto.
Qed.

Lemma bucle_presente schema st c :
  NoDup (map fst schema) -> In c (map fst schema) ->
  buscar_columna (fst (bucle schema st)) c <> None.
Proof.
  revert st. induction schema as [| [col t] schema IH]; intros st Hnd Hin;
    cbn [map fst In] in *.
  - contradiction.
  - inversion Hnd as [| ? ? Hni Hnd']; subst.
    destruct Hin as [-> | Hin].
    + rewrite bucle_cons, bucle_otra by assumption. apply paso_columna_presente.
    + rewrite bucle_cons. apply IH; assumption.
Qed.

Lemma bucle_ausente schema df logs col t :
  NoDup (map fst schema) -> In (col, t) schema ->
  buscar_columna df col = None ->
  exists k,
    buscar_columna (fst (bucle schema (df, logs))) col
    = Some {| nombre := col; dtype := t;
              valores := repeat (valor_defecto vd col t) k |}.
Proof.
  revert df logs. induction schema as [| [col' t'] schema IH];
    intros df logs Hnd Hin Hb; cbn [map fst In] in *.
  - contradiction.
  - inversion Hnd as [| ? ? Hni Hnd']; subst.
    destruct Hin as [E | Hin].
    + inversion E; subst. exists (filas df).
      rewrite bucle_cons, bucle_otra by assumption.
      now apply paso_columna_ausente.
    + assert (Hne : col' <> col).
      { intros E. subst col'. apply Hni. apply in_map_iff. exists (col, t). auto. }
      rewrite bucle_cons.
      destruct (paso_columna cast_valores vd (df, logs) (col', t')) as [df1 logs1] eqn:Ep.
      apply IH; auto.
      replace df1 with (fst (paso_columna cast_valores vd (df, logs) (col', t')))
        by now rewrite Ep.
      rewrite paso_columna_otra by assumption. exact Hb.
Qed.

Lemma seleccionar_todas df cols :
  (forall c, In c cols -> buscar_columna df c <> None) ->
  exists out, seleccionar df cols = Some out /\ columnas out = cols /\
              (forall c, In c cols ->
                 exists x, buscar_columna df c = Some x /\ In x out) /\
              (forall x, In x out -> In x df).
Proof.
  induction cols as [| col cols IH]; intros Hall; simpl.
  - exists []. repeat split; auto; intros ? [].
  - destruct IH as (out & Hs & Hc & Hi & Hsub).
    { intros c Hc. apply Hall. now right. }
    destruct (buscar_columna df col) as [x |] eqn:Eb.
    2:{ exfalso. apply (Hall col); simpl; auto. }
    rewrite Hs. exists (x :: out). repeat split.
    + unfold columnas in *. simpl. rewrite Hc.
      now rewrite (buscar_columna_nombre df col x Eb).
    + intros c [-> | Hin].
      * exists x. split; simpl; auto.
      * destruct (Hi c Hin) as (y & Hy & Hyin). exists y. split; simpl; auto.
    + intros y [<- | Hy]; auto.
      unfold buscar_columna in Eb. apply find_some in Eb. tauto.
Qed.

Lemma filter_todas {A : Type} (f : A -> bool) (l : list A) :
  (forall x, In x l -> f x = true) -> filter f l = l.
Proof.
  induction l as [| x l IH]; intros Hall; simpl; auto.
  rewrite Hall by (simpl; auto). f_equal. apply IH. intros y Hy. apply Hall. now right.
Qed.

End EnforcerFacts.

Import Esquema.
Local Open Scope string_scope.

Lemma buscar_columna_None_no_esta df col :
  ~ In col (columnas df) -> buscar_columna df col = None.
Proof.
  intros Hn. apply tiene_columna_false_buscar.
  unfold tiene_columna.
  destruct (existsb (String.eqb col) (columnas df)) eqn:E; auto.
  apply existsb_exists in E. destruct E as (x & Hx & Ex).
  apply String.eqb_eq in Ex. subst x. contradiction.
Qed.

(** C7. Schema conformance. For a schema with distinct column names the
    enforcer returns a frame whose columns are exactly the schema's, in the
    schema's order; a schema column the input lacks is a constant column of
    the schema's type holding the caller's default when one is supplied and
    otherwise the default of the type ("" for text, 0 for Int8..Int64, 0.0
    for Float32/Float64, 1900-01-01 for dates, false for booleans); an input
    column the schema does not name is not in the output. *)
Theorem asegurar_columnas_conforma
        (cast_valores : DType -> DType -> list Valor -> option (list Valor))
        (df : DataFrame) (schema : Schema) (valores_defecto : Dict Valor) :
  NoDup (map fst schema) ->
  exists out,
    fst (asegurar_columnas cast_valores df schema valores_defecto) = Some out /\
    columnas out = map fst schema /\
    (forall col t, In (col, t) schema -> ~ In col (columnas df) ->
       exists c k, In c out /\ nombre c = col /\ dtype c = t /\
                   valores c = repeat (valor_defecto valores_defecto col t) k) /\
    (forall col, In col (columnas df) -> ~ In col (map fst schema) ->
       ~ In col (columnas out)) /\
    (forall col t, dict_get valores_defecto col = None ->
       valor_defecto valores_defecto col t = defecto_por_tipo t) /\
    (forall col t v, dict_get valores_defecto col = Some v -> v <> VNull ->
       valor_defecto valores_defecto col t = v) /\
    defecto_por_tipo Utf8 = VStr "" /\
    (forall t, In t [Int8; Int16; Int32; Int64] -> defecto_por_tipo t = VInt 0) /\
    (forall t, In t [Float32; Float64] -> defecto_por_tipo t = VFloat 0) /\
    defecto_por_tipo Date = VDate 1900 1 1 /\
    defecto_por_tipo Boolean = VBool false.
Proof.
  intros Hnd.
  unfold asegurar_columnas.
    destruct (bucle_esquema cast_valores valores_defecto schema (df, [])) as [df' logs] eqn:Eb.
  assert (Hdf : df' = fst (bucle_esquema cast_valores valores_defecto schema (df, [])))
    by now rewrite Eb.
  assert (Hall : forall c, In c (map fst schema) -> buscar_columna df' c <> None).
  { intros c Hc. rewrite Hdf. now apply bucle_presente. }
  rewrite filter_todas.
  2:{ intros c Hc. apply tiene_columna_buscar. now apply Hall. }
  destruct (seleccionar_todas df' (map fst schema) Hall) as (out & Hs & Hc & Hi & _).
  exists out. cbn [fst].
  split; [exact Hs |]. split; [exact Hc |].
  split; [| split; [| split; [| split; [| split; [| split; [| split; [| split]]]]]]].
  - intros col t Hin Hno.
    destruct (bucle_ausente cast_valores valores_defecto schema df [] col t Hnd Hin
                (buscar_columna_None_no_esta df col Hno)) as [k Hk].
    rewrite <- Hdf in Hk.
    destruct (Hi col) as (x & Hx & Hxin).
    { apply in_map_iff. exists (col, t). auto. }
    rewrite Hk in Hx. inversion Hx; subst x.
    eexists. exists k. split; [exact Hxin |]. auto.
  - intros col _ Hno. now rewrite Hc.
  - intros col t Hg. unfold valor_defecto. now rewrite Hg.
  - intros col t v Hg Hv. unfold valor_defecto. rewrite Hg.
    destruct v; auto; congruence.
  - reflexivity.
  - intros t Ht. simpl in Ht.
    destruct Ht as [<- | [<- | [<- | [<- | []]]]]; reflexivity.
  - intros t Ht. simpl in Ht. destruct Ht as [<- | [<- | []]]; reflexivity.
  - reflexivity.
  - reflexivity.
Qed.

End EsquemaFacts.

Section TiempoFacts.

Import Tiempo.
Local Open Scope nat_scope.

Lemma length_list_update {A : Type} (a : list A) (i : nat) (v : A) :
  List.length (list_update a i v) = List.length a.
Proof.
  revert i. induction a as [| x a IH]; intros [| i]; simpl; auto.
Qed.

Lemma nth_list_update {A : Type} (a : list A) (i j : nat) (v d : A) :
  i < List.length a ->
  nth j (list_update a i v) d = if j =? i then v else nth j a d.
Proof.
  revert i j. induction a as [| x a IH]; intros i j Hi; simpl in Hi; [lia |].
  destruct i as [| i], j as [| j]; simpl; auto.
  apply IH. lia.
Qed.

Lemma arr_get_nat {A : Type} (a : list A) (i : nat) (d : A) :
  i < List.length a -> arr_get a (Z.of_nat i) = Some (nth i a d).
Proof.
  intros Hi. unfold arr_get.
  replace (0 <=? Z.of_nat i)%Z with true by (symmetry; apply Z.leb_le; lia).
  replace (Z.of_nat i <? Z.of_nat (List.length a))%Z with true
    by (symmetry; apply Z.ltb_lt; lia).
  simpl. rewrite Nat2Z.id. now apply nth_error_nth'.
Qed.

Lemma arr_mul_nat (a : list Q) (i : nat) (c : Q) :
  i < List.length a ->
  arr_mul a (Z.of_nat i) c = Some (list_update a i (nth i a 1%Q * c)%Q).
Proof.
  intros Hi. unfold arr_mul. rewrite (arr_get_nat a i 1%Q Hi).
  now rewrite Nat2Z.id.
Qed.

Section Invariante.

Variable feriados : list bool.

Local Abbreviation f := (es_feriado_en feriados).
Local Abbreviation n := (List.length feriados).
Local Abbreviation facA := (Tiempo.facA feriados).
Local Abbreviation facB := (Tiempo.facB feriados).
Local Abbreviation facC := (Tiempo.facC feriados).
Local Abbreviation inv := (Tiempo.parcial feriados).
Local Abbreviation g2 := (Tiempo.g2 feriados).
Local Abbreviation g3 := (Tiempo.g3 feriados).
Local Abbreviation cumple := (Tiempo.cumple feriados).

Ltac btrue t := replace t with true by (symmetry; first [apply Nat.ltb_lt | apply Nat.leb_le | apply Nat.eqb_eq]; lia).
Ltac bfalse t := replace t with false by (symmetry; first [apply Nat.ltb_ge | apply Nat.leb_gt | apply Nat.eqb_neq]; lia).

Lemma facA_paso k j : f k = true -> (facA (S k) j == facA k j * g1 k j)%Q.
Proof.
  intros Hf. unfold Tiempo.facA, g1.
  destruct (Nat.eq_dec j k) as [-> | Hne].
  - rewrite Hf. btrue (k <? S k). bfalse (k <? k). btrue (k =? k). simpl. ring.
  - bfalse (j =? k).
    replace (j <? S k) with (j <? k).
    2:{ destruct (Nat.ltb_spec j k), (Nat.ltb_spec j (S k)); auto; lia. }
    ring.
Qed.

Lemma facC_paso k j : f k = true -> (facC (S k) j == facC k j * g2 k j)%Q.
Proof.
  intros Hf. unfold Tiempo.facC, Tiempo.g2.
  destruct (Nat.eq_dec (j + 1) k) as [E | Hne].
  - subst k. replace (j + 1 - 1) with j by lia.
    rewrite Hf. btrue (j + 1 <? S (j + 1)). bfalse (j + 1 <? j + 1).
    btrue (0 <? j + 1). btrue (j =? j).
    rewrite !andb_true_r, !andb_false_r. simpl.
    destruct (negb (f j)); ring.
  - replace (j + 1 <? S k) with (j + 1 <? k).
    2:{ destruct (Nat.ltb_spec (j + 1) k), (Nat.ltb_spec (j + 1) (S k)); auto; lia. }
    destruct (Nat.eq_dec k 0) as [-> | Hk].
    + simpl. ring.
    + bfalse (j =? k - 1). rewrite !andb_false_r. ring.
Qed.

Lemma facB_paso k j :
  f k = true -> j < n -> (facB (S k) j == facB k j * g3 k j)%Q.
Proof.
  intros Hf Hj. unfold Tiempo.facB, Tiempo.g3.
  destruct (Nat.eq_dec j (k + 1)) as [-> | Hne].
  - replace (k + 1 - 1) with k by lia.
    rewrite Hf. btrue (1 <=? k + 1). btrue (k <? S k). bfalse (k <? k).
    btrue (k + 1 <? n). btrue (k + 1 =? k + 1).
    rewrite !andb_true_r, !andb_false_r. simpl.
    destruct (negb (f (k + 1))); ring.
  - bfalse (j =? k + 1). rewrite !andb_false_r.
    destruct (Nat.eq_dec j 0) as [-> | Hj0].
    + simpl. rewrite !andb_false_r. simpl. ring.
    + replace (j - 1 <? S k) with (j - 1 <? k).
      2:{ destruct (Nat.ltb_spec (j - 1) k), (Nat.ltb_spec (j - 1) (S k)); auto; lia. }
      ring.
Qed.

Lemma inv_paso_no_feriado k j : f k = false -> (inv (S k) j == inv k j)%Q.
Proof.
  intros Hf. unfold Tiempo.parcial, Tiempo.facA, Tiempo.facB, Tiempo.facC.
  assert (EA : f j && (j <? S k) = f j && (j <? k)).
  { destruct (Nat.eq_dec j k) as [-> | Hne].
    - now rewrite Hf.
    - f_equal. destruct (Nat.ltb_spec j k), (Nat.ltb_spec j (S k)); auto; lia. }
  assert (EB : negb (f j) && (1 <=? j) && f (j - 1) && (j - 1 <? S k)
               = negb (f j) && (1 <=? j) && f (j - 1) && (j - 1 <? k)).
  { destruct (Nat.eq_dec (j - 1) k) as [E | Hne].
    - rewrite E, Hf. now rewrite !andb_false_r.
    - f_equal.
      destruct (Nat.ltb_spec (j - 1) k), (Nat.ltb_spec (j - 1) (S k)); auto; lia. }
  assert (EC : negb (f j) && f (j + 1) && (j + 1 <? S k)
               = negb (f j) && f (j + 1) && (j + 1 <? k)).
  { destruct (Nat.eq_dec (j + 1) k) as [E | Hne].
    - rewrite E, Hf. now rewrite !andb_false_r.
    - f_equal.
      destruct (Nat.ltb_spec (j + 1) k), (Nat.ltb_spec (j + 1) (S k)); auto; lia. }
  rewrite EA, EB, EC. reflexivity.
Qed.

Lemma inv_cero j : (inv 0 j == 1)%Q.
Proof.
  unfold Tiempo.parcial, Tiempo.facA, Tiempo.facB, Tiempo.facC.
  bfalse (j <? 0). bfalse (j - 1 <? 0). bfalse (j + 1 <? 0).
  rewrite !andb_false_r. ring.
Qed.

Lemma f_fuera j : n <= j -> f j = false.
Proof. intros Hj. unfold es_feriado_en. now apply nth_overflow. Qed.

Lemma inv_final j : j < n -> (inv n j == multiplicador feriados j)%Q.
Proof.
  intros Hj. unfold Tiempo.parcial, Tiempo.facA, Tiempo.facB, Tiempo.facC, multiplicador.
  btrue (j <? n). rewrite andb_true_r.
  assert (EB : (1 <=? j) && f (j - 1) && (j - 1 <? n) = (1 <=? j) && f (j - 1)).
  { btrue (j - 1 <? n). now rewrite andb_true_r. }
  assert (EC : f (j + 1) && (j + 1 <? n) = f (j + 1)).
  { destruct (Nat.lt_ge_cases (j + 1) n) as [Hlt | Hge].
    - btrue (j + 1 <? n). now rewrite andb_true_r.
    - now rewrite (f_fuera (j + 1) Hge). }
  destruct (f j) eqn:Fj; cbn [negb andb].
  - ring.
  - rewrite EB, EC. unfold sin_impacto. ring.
Qed.

Lemma paso_feriado_cumple k arr :
  k < n -> cumple k arr ->
  exists arr', paso_feriado feriados (Z.of_nat n) (Z.of_nat k) (f k) arr = Some arr'
               /\ cumple (S k) arr'.
Proof.
  intros Hk [Hlen Hinv]. unfold paso_feriado.
  destruct (f k) eqn:Fk.
  2:{ exists arr. split; auto. split; auto.
      intros j Hj. rewrite (Hinv j Hj). symmetry. now apply inv_paso_no_feriado. }
  rewrite arr_mul_nat by lia.
  set (arr1 := list_update arr k (nth k arr 1 * dia_feriado)%Q).
  assert (L1 : List.length arr1 = n) by (unfold arr1; now rewrite length_list_update).
  assert (N1 : forall j, (nth j arr1 1 == nth j arr 1 * g1 k j)%Q).
  { intros j. unfold arr1, g1. rewrite nth_list_update by lia.
    destruct (Nat.eqb_spec j k) as [-> |]; ring. }
  (* day before *)
  assert (exists arr2,
            (if (Z.of_nat k >? 0)%Z
             then match arr_get feriados (Z.of_nat k - 1) with
                  | Some previo =>
                      if negb previo then arr_mul arr1 (Z.of_nat k - 1) dia_antes
                      else Some arr1
                  | None => None
                  end
             else Some arr1) = Some arr2
            /\ List.length arr2 = n
            /\ forall j, (nth j arr2 1 == nth j arr1 1 * g2 k j)%Q) as (arr2 & E2 & L2 & N2).
  { unfold Tiempo.g2. destruct k as [| k'].
    - simpl. exists arr1. repeat split; auto. intros j. ring.
    - replace (Z.of_nat (S k') >? 0)%Z with true by (symmetry; apply Z.gtb_lt; lia).
      replace (Z.of_nat (S k') - 1)%Z with (Z.of_nat k') by lia.
      replace (S k' - 1) with k' by lia.
      rewrite (arr_get_nat feriados k' false) by lia.
      fold (es_feriado_en feriados k').
      btrue (0 <? S k'). simpl andb.
      destruct (f k') eqn:Fp; simpl negb; cbv iota.
      + exists arr1. repeat split; auto. intros j. simpl. ring.
      + rewrite arr_mul_nat by lia. eexists. split; [reflexivity |].
        split; [now rewrite length_list_update |].
        intros j. rewrite nth_list_update by lia. simpl.
        destruct (Nat.eqb_spec j k') as [-> |]; ring. }
  rewrite E2.
  assert (exists arr3,
            (if (Z.of_nat k <? Z.of_nat n - 1)%Z
             then match arr_get feriados (Z.of_nat k + 1) with
                  | Some siguiente =>
                      if negb siguiente then arr_mul arr2 (Z.of_nat k + 1) dia_despues
                      else Some arr2
                  | None => None
                  end
             else Some arr2) = Some arr3
            /\ List.length arr3 = n
            /\ forall j, (nth j arr3 1 == nth j arr2 1 * g3 k j)%Q) as (arr3 & E3 & L3 & N3).
  { unfold Tiempo.g3. destruct (Nat.lt_ge_cases (k + 1) n) as [Hlt | Hge].
    - replace (Z.of_nat k <? Z.of_nat n - 1)%Z with true
        by (symmetry; apply Z.ltb_lt; lia).
      replace (Z.of_nat k + 1)%Z with (Z.of_nat (k + 1)) by lia.
      rewrite (arr_get_nat feriados (k + 1) false) by lia.
      fold (es_feriado_en feriados (k + 1)).
      btrue (k + 1 <? n). simpl andb.
      destruct (f (k + 1)) eqn:Fs; simpl negb; cbv iota.
      + exists arr2. repeat split; auto. intros j. simpl. ring.
      + rewrite arr_mul_nat by lia. eexists. split; [reflexivity |].
        split; [now rewrite length_list_update |].
        intros j. rewrite nth_list_update by lia. simpl.
        destruct (Nat.eqb_spec j (k + 1)) as [-> |]; ring.
    - replace (Z.of_nat k <? Z.of_nat n - 1)%Z with false
        by (symmetry; apply Z.ltb_ge; lia).
      bfalse (k + 1 <? n). exists arr2. repeat split; auto. intros j. simpl. ring. }
  exists arr3. split; [exact E3 |].
  split; [exact L3 |].
  intros j Hj. rewrite N3, N2, N1, (Hinv j Hj).
  unfold Tiempo.parcial. rewrite (facA_paso k j Fk), (facB_paso k j Fk Hj), (facC_paso k j Fk).
  ring.
Qed.

Lemma bucle_feriados_cumple pend k arr :
  pend = skipn k feriados -> cumple k arr ->
  exists arr', bucle_feriados feriados (Z.of_nat n) pend (Z.of_nat k) arr = Some arr'
               /\ cumple n arr'.
Proof.
  revert k arr. induction pend as [| b pend IH]; intros k arr Hp Hc.
  - simpl. exists arr. split; auto.
    assert (Hk : n <= k).
    { destruct (Nat.lt_ge_cases k n) as [Hlt | Hge]; auto.
      assert (List.length (skipn k feriados) = n - k) by apply length_skipn.
      rewrite <- Hp in H. simpl in H. lia. }
    destruct Hc as [Hl Hi]. split; auto. intros j Hj.
    rewrite (Hi j Hj). unfold Tiempo.parcial, Tiempo.facA, Tiempo.facB, Tiempo.facC.
    replace (j <? k) with (j <? n)
      by (destruct (Nat.ltb_spec j k), (Nat.ltb_spec j n); auto; lia).
    replace (j - 1 <? k) with (j - 1 <? n)
      by (destruct (Nat.ltb_spec (j - 1) k), (Nat.ltb_spec (j - 1) n); auto; lia).
    destruct (Nat.lt_ge_cases (j + 1) n) as [Hlt | Hge].
    + replace (j + 1 <? k) with (j + 1 <? n)
        by (destruct (Nat.ltb_spec (j + 1) k), (Nat.ltb_spec (j + 1) n); auto; lia).
      reflexivity.
    + rewrite (f_fuera (j + 1) Hge). rewrite !andb_false_r. simpl. reflexivity.
  - assert (Hk : k < n).
    { destruct (Nat.lt_ge_cases k n) as [Hlt | Hge]; auto.
      rewrite skipn_all2 in Hp by lia. discriminate. }
    assert (Hb : b = f k /\ pend = skipn (S k) feriados).
    { unfold es_feriado_en.
      rewrite <- (firstn_skipn k feriados) at 1.
      rewrite app_nth2 by (rewrite length_firstn; lia).
      rewrite length_firstn. replace (k - Nat.min k n) with 0 by lia.
      rewrite <- Hp. simpl. split; auto.
      transitivity (skipn 1 (skipn k feriados));
        [rewrite <- Hp; reflexivity | apply (skipn_skipn 1 k feriados)]. }
    destruct Hb as [-> Hp'].
    destruct (paso_feriado_cumple k arr Hk Hc) as (arr1 & E1 & C1).
    cbn [bucle_feriados]. rewrite E1.
    replace (Z.of_nat k + 1)%Z with (Z.of_nat (S k)) by lia.
    apply IH; auto.
Qed.

End Invariante.

Import Tiempo.
Local Open Scope nat_scope.

Lemma impacto_feriado_total (feriados : list bool) :
  exists arr,
    impacto_feriado feriados = Some arr /\
    List.length arr = List.length feriados /\
    forall j, j < List.length feriados ->
      (nth j arr 1 == multiplicador feriados j)%Q.
Proof.
  unfold impacto_feriado.
  destruct (bucle_feriados_cumple feriados feriados 0
              (repeat 1%Q (List.length feriados)) eq_refl)
    as (arr & E & Hl & Hi).
  { split; [apply repeat_length |].
    intros j Hj. rewrite nth_repeat. symmetry. apply inv_cero. }
  exists arr. split; [exact E |]. split; [exact Hl |].
  intros j Hj. rewrite (Hi j Hj). now apply inv_final.
Qed.

(** C8. Composite seasonality factor. For every column of dates the
    generator returns one row per day, never reading or writing outside the
    arrays, and on day [j] the composite factor is the base factor of the
    day's month times the holiday multiplier: 0.6 on a holiday; otherwise
    0.9 if the previous day is a holiday, times 1.1 if the next day is one,
    and 1.0 when neither is. *)
Theorem factor_estacionalidad_compuesto (fechas : list Fecha) :
  exists filas,
    dim_tiempo_de fechas = Some filas /\
    List.length filas = List.length fechas /\
    forall j fila, nth_error filas j = Some fila ->
      exists fecha,
        nth_error fechas j = Some fecha /\
        Fecha_ fila = fecha /\
        EsFeriado fila = es_feriado fecha /\
        (Factor_Impacto_Feriado fila
           == multiplicador (map es_feriado fechas) j)%Q /\
        (Factor_Estacionalidad_General fila
           == factor_mensual (mes fecha) * multiplicador (map es_feriado fechas) j)%Q.
Proof.
  unfold dim_tiempo_de.
  destruct (impacto_feriado_total (map es_feriado fechas)) as (arr & E & Hl & Hi).
  rewrite E. rewrite length_map in Hl, Hi.
  eexists. split; [reflexivity |].
  split.
  { rewrite length_map, length_combine. lia. }
  intros j fila Hn.
  rewrite nth_error_map in Hn.
  destruct (nth_error (combine fechas arr) j) as [[fecha imp] |] eqn:Ec;
    [| discriminate].
  inversion Hn; subst fila; clear Hn.
  assert (Hj : j < List.length fechas).
  { assert (j < List.length (combine fechas arr))
      by (apply nth_error_Some; congruence).
    rewrite length_combine in H. lia. }
  pose proof (nth_error_nth _ _ (F 0 0 0, 1%Q) Ec) as Hnth.
  rewrite combine_nth in Hnth by lia.
  inversion Hnth as [[Hf Himp]].
  exists (nth j fechas (F 0 0 0)).
  split; [apply nth_error_nth'; exact Hj |].
  cbn [fila_tiempo Fecha_ EsFeriado Factor_Impacto_Feriado
       Factor_Estacionalidad_General fst snd].
  repeat split.
  - apply Hi. exact Hj.
  - rewrite (Hi j Hj). reflexivity.
Qed.

Example navidad_2025 :
  match generar_dim_tiempo with
  | Some filas =>
      List.length filas = 1826 /\
      map (fun r => (Fecha_ r, Qred (Factor_Estacionalidad_General r)))
          (firstn 3 (skipn 1818 filas))
      = [(F 2025 12 24, 77 # 50); (F 2025 12 25, 21 # 25); (F 2025 12 26, 63 # 50)]
  | None => False
  end.
Proof. vm_compute. split; reflexivity. Qed.

End TiempoFacts.

Section ClientesFacts.

Local Open Scope nat_scope.

Import Clientes.
Lemma leer_str_nat (n : nat) : leer_nat (str_nat n) = Some n.
Proof.
  unfold leer_nat, str_nat. rewrite NilEmpty.usu. simpl.
  now rewrite DecimalNat.Unsigned.of_to.
Qed.

Lemma leer_cero_delante (s : string) :
  leer_nat (String "0" s) = leer_nat s.
Proof.
  unfold leer_nat. simpl.
  destruct (NilEmpty.uint_of_string s); reflexivity.
Qed.

Lemma leer_ceros (k : nat) (s : string) :
  leer_nat (ceros k ++ s) = leer_nat s.
Proof.
  induction k as [| k IH]; simpl; auto.
  now rewrite leer_cero_delante.
Qed.

Lemma zfill_inyectiva (w n m : nat) :
  zfill w (str_nat n) = zfill w (str_nat m) -> n = m.
Proof.
  intros E. apply (f_equal leer_nat) in E.
  unfold zfill in E. rewrite !leer_ceros, !leer_str_nat in E. congruence.
Qed.

Lemma id_cliente_inyectiva (n m : nat) :
  Clientes.id_cliente n = Clientes.id_cliente m -> n = m.
Proof.
  unfold Clientes.id_cliente. simpl. intros E.
  injection E as E. now apply zfill_inyectiva in E.
Qed.

Example id_cliente_7 : Clientes.id_cliente 7 = "CLI-000007"%string.
Proof. reflexivity. Qed.

Import Clientes.
Local Open Scope nat_scope.

Lemma aplicar_churn_cambio ano cs dec :
  Forall2 (cambio_churn ano) cs (aplicar_churn ano cs dec).
Proof.
  revert dec. induction cs as [| c cs IH]; intros dec; simpl; [constructor |].
  destruct (es_candidato ano c) eqn:Ec.
  - destruct dec as [| d ds].
    + constructor; [now left | apply IH].
    + constructor; [| apply IH].
      destruct d; [right; auto | now left].
  - constructor; [now left | apply IH].
Qed.

Lemma cambio_churn_id ano c c' : cambio_churn ano c c' -> ID_Cliente c' = ID_Cliente c.
Proof. intros [-> | [_ ->]]; reflexivity. Qed.

Lemma cambio_churn_solo_baja ano c c' : cambio_churn ano c c' -> solo_baja c c'.
Proof.
  intros [-> | [Hc ->]]; [now left | right]. split; auto.
  unfold es_candidato in Hc. now apply andb_true_iff in Hc.
Qed.

Lemma solo_baja_refl c : solo_baja c c.
Proof. now left. Qed.

Lemma solo_baja_trans a b c : solo_baja a b -> solo_baja b c -> solo_baja a c.
Proof.
  intros [-> | [Ha ->]] [-> | [Hb ->]]; try (now left); right; auto.
Qed.

Lemma Forall2_solo_baja_refl l : Forall2 solo_baja l l.
Proof. induction l; constructor; auto using solo_baja_refl. Qed.

Lemma Forall2_solo_baja_trans l1 l2 l3 :
  Forall2 solo_baja l1 l2 -> Forall2 solo_baja l2 l3 -> Forall2 solo_baja l1 l3.
Proof.
  intros H12. revert l3. induction H12; intros l3 H23; inversion H23; subst;
    constructor; eauto using solo_baja_trans.
Qed.

Lemma Forall2_ids (R : Cliente -> Cliente -> Prop) l1 l2 :
  (forall c c', R c c' -> ID_Cliente c' = ID_Cliente c) ->
  Forall2 R l1 l2 -> map ID_Cliente l2 = map ID_Cliente l1.
Proof.
  intros HR. induction 1; simpl; auto. f_equal; auto.
Qed.

Lemma contar_activos_app l1 l2 :
  contar_activos (l1 ++ l2) = contar_activos l1 + contar_activos l2.
Proof. unfold contar_activos. now rewrite filter_app, length_app. Qed.

Lemma contar_activos_todos l :
  Forall (fun c => Activo c = true) l -> contar_activos l = List.length l.
Proof.
  unfold contar_activos. induction 1 as [| c l Hc Hl IH]; simpl; auto.
  rewrite Hc. simpl. now rewrite IH.
Qed.

Section SimuladorFacts.

Context `{Azar}.
Variable cfg : Config.
Variable df_geo : list Geografia.
Variable df_canal : list Canal.

Lemma paso_churn_cambio i ano st :
  Forall2 (cambio_churn ano) (clientes_activos_historicos st)
          (clientes_activos_historicos (paso_churn cfg i ano st))
  /\ current_customer_id_counter (paso_churn cfg i ano st)
     = current_customer_id_counter st.
Proof.
  assert (Hrefl : forall l, Forall2 (cambio_churn ano) l l).
  { induction l; constructor; auto. now left. }
  unfold paso_churn.
  destruct ((0 <? i) && negb (List.length (clientes_activos_historicos st) =? 0));
    [| split; auto].
  destruct (0 <? List.length (filter (es_candidato ano) (clientes_activos_historicos st)));
    [| split; auto].
  destruct (np_random _ (rng st)) as [us g']. simpl.
  split; auto. apply aplicar_churn_cambio.
Qed.

Lemma paso_churn_primer_ano ano st : paso_churn cfg 0 ano st = st.
Proof. reflexivity. Qed.

Lemma nuevo_cliente_spec ano st c st' :
  nuevo_cliente cfg df_geo df_canal ano st = Some (c, st') ->
  es_nuevo ano c
  /\ ID_Cliente c = id_cliente (S (current_customer_id_counter st))
  /\ current_customer_id_counter st' = S (current_customer_id_counter st)
  /\ clientes_activos_historicos st' = clientes_activos_historicos st.
Proof.
  unfold nuevo_cliente. intros E.
  destruct (rng_choice_p (ids_geo df_geo) (pesos_geo df_geo) (rng st))
    as [[geo g1] |]; [| discriminate].
  destruct (rng_choice_p (seq 0 (List.length df_canal)) (pesos_canal_global df_canal) g1)
    as [[idx g2] |]; [| discriminate].
  destruct (nth_error df_canal idx) as [canal |]; [| discriminate].
  destruct (elegir_segmento cfg (Nombre_Canal canal) g2) as [[[seg clu] g3] |];
    [| discriminate].
  destruct (py_randint 1 12 (rnd st)) as [m r1].
  destruct (py_randint 1 28 r1) as [d r2].
  destruct (py_random r2) as [u r3].
  destruct (if Qltb u (7 # 10) then faker_company (fk st) else faker_name (fk st))
    as [nombre f1].
  destruct (np_uniform 18 (198 # 10) g3) as [lat g4].
  destruct (np_uniform (- (715 # 10)) (- (685 # 10)) g4) as [lon g5].
  inversion E; subst. simpl. unfold es_nuevo. simpl. auto.
Qed.

Lemma crecer_spec ano k : forall st cs st',
  crecer cfg df_geo df_canal ano k st = Some (cs, st') ->
  List.length cs = k
  /\ Forall (es_nuevo ano) cs
  /\ map ID_Cliente cs = map id_cliente (seq (S (current_customer_id_counter st)) k)
  /\ current_customer_id_counter st' = current_customer_id_counter st + k
  /\ clientes_activos_historicos st' = clientes_activos_historicos st.
Proof.
  induction k as [| k IH]; intros st cs st' E; simpl in E.
  - inversion E; subst. simpl. repeat split; auto. 
  - destruct (nuevo_cliente cfg df_geo df_canal ano st) as [[c st1] |] eqn:En;
      [| discriminate].
    destruct (crecer cfg df_geo df_canal ano k st1) as [[resto st2] |] eqn:Ec;
      [| discriminate].
    inversion E; subst; clear E.
    apply nuevo_cliente_spec in En. destruct En as (Hn & Hid & Hcnt & Hcl).
    apply IH in Ec. destruct Ec as (Hl & Hf & Hids & Hc2 & Hcl2).
    simpl. repeat split.
    + now rewrite Hl.
    + constructor; auto.
    + rewrite Hid, Hids, Hcnt. reflexivity.
    + rewrite Hc2, Hcnt. lia.
    + now rewrite Hcl2, Hcl.
Qed.

Lemma paso_crecimiento_spec ano target st st' :
  paso_crecimiento cfg df_geo df_canal ano target st = Some st' ->
  exists nuevos,
    clientes_activos_historicos st'
      = clientes_activos_historicos st ++ nuevos
    /\ List.length nuevos = num_nuevos target (clientes_activos_historicos st)
    /\ Forall (es_nuevo ano) nuevos
    /\ map ID_Cliente nuevos
       = map id_cliente (seq (S (current_customer_id_counter st)) (List.length nuevos))
    /\ current_customer_id_counter st'
       = current_customer_id_counter st + List.length nuevos.
Proof.
  unfold paso_crecimiento. intros E.
  destruct (0 <? num_nuevos target (clientes_activos_historicos st)) eqn:En.
  - destruct (crecer cfg df_geo df_canal ano _ st) as [[nuevos st1] |] eqn:Ec;
      [| discriminate].
    inversion E; subst; clear E. simpl.
    apply crecer_spec in Ec. destruct Ec as (Hl & Hf & Hids & Hc & Hcl).
    exists nuevos. rewrite Hcl, Hl. repeat split; auto.
  - inversion E; subst; clear E. exists []. rewrite app_nil_r.
    apply Nat.ltb_ge in En. simpl. repeat split; auto; lia.
Qed.

End SimuladorFacts.

Import Clientes.
Local Open Scope nat_scope.

Section MuestreoFacts.

Context `{Azar} `{!AzarLegal}.

Lemma p_valida_forma n p :
  p_valida n p = true -> 0 < n /\ List.length p = n.
Proof.
  unfold p_valida. rewrite !andb_true_iff.
  intros [[[Hn Hl] _] _]. apply Nat.ltb_lt in Hn. apply Nat.eqb_eq in Hl. auto.
Qed.

Lemma rng_choice_p_ok {A : Type} (a : list A) (p : list Q) (g : NpGen) :
  p_valida (List.length a) p = true ->
  exists x g', rng_choice_p a p g = Some (x, g') /\ In x a.
Proof.
  intros Hv. unfold rng_choice_p. rewrite Hv.
  destruct (p_valida_forma _ _ Hv) as [Hn Hl].
  assert (Hp : p <> []) by (intros ->; simpl in Hl; lia).
  pose proof (np_choice_idx_lt p g Hp) as Hi.
  destruct (np_choice_idx p g) as [i g']. simpl in Hi.
  rewrite Hl in Hi.
  destruct (nth_error a i) as [x |] eqn:Ex.
  - exists x, g'. split; auto. eapply nth_error_In; eauto.
  - apply nth_error_None in Ex. lia.
Qed.

Lemma rng_choice_p_In {A : Type} (a : list A) (p : list Q) (g g' : NpGen) (x : A) :
  rng_choice_p a p g = Some (x, g') -> In x a.
Proof.
  unfold rng_choice_p. destruct (p_valida (List.length a) p); [| discriminate].
  destruct (np_choice_idx p g) as [i g1].
  destruct (nth_error a i) as [y |] eqn:Ey; [| discriminate].
  intros E. inversion E; subst. eapply nth_error_In; eauto.
Qed.

Lemma random_choice_ok {A : Type} (l : list A) (r : PyRand) :
  l <> [] -> exists x r', random_choice l r = Some (x, r') /\ In x l.
Proof.
  intros Hl. unfold random_choice. destruct l as [| a l]; [congruence |].
  pose proof (py_choice_idx_lt (List.length (a :: l)) r) as Hi.
  destruct (py_choice_idx (List.length (a :: l)) r) as [i r'].
  specialize (Hi ltac:(simpl; lia)). cbn [fst] in Hi.
  destruct (nth_error (a :: l) i) as [x |] eqn:Ex.
  - exists x, r'. split; auto. eapply nth_error_In; eauto.
  - apply nth_error_None in Ex. lia.
Qed.

Lemma random_choice_In {A : Type} (l : list A) (r r' : PyRand) (x : A) :
  random_choice l r = Some (x, r') -> In x l.
Proof.
  unfold random_choice. destruct l as [| a l]; [discriminate |].
  destruct (py_choice_idx (List.length (a :: l)) r) as [i r1].
  destruct (nth_error (a :: l) i) as [y |] eqn:Ey; [| discriminate].
  intros E. inversion E; subst. eapply nth_error_In; eauto.
Qed.

Lemma random_choices_ok {A : Type} (l : list A) (w : list Q) (r : PyRand) :
  List.length l = List.length w -> l <> [] ->
  exists x r', random_choices l w r = Some (x, r').
Proof.
  intros Hlw Hl. unfold random_choices.
  rewrite Hlw, Nat.eqb_refl.
  assert (Hw : w <> []) by (intros ->; destruct l; simpl in *; congruence).
  destruct (List.length w =? 0) eqn:E0.
  { apply Nat.eqb_eq in E0. destruct w; simpl in *; congruence. }
  simpl.
  pose proof (py_choices_idx_lt w r Hw) as Hi.
  destruct (py_choices_idx w r) as [i r']. cbn [fst] in Hi.
  destruct (nth_error l i) as [x |] eqn:Ex; [eauto |].
  apply nth_error_None in Ex. lia.
Qed.

End MuestreoFacts.

Section Totalidad.

Context `{Azar} `{!AzarLegal}.
Variable cfg : Config.
Variable df_geo : list Geografia.
Variable df_canal : list Canal.

Hypothesis Hval : muestreo_valido cfg df_geo df_canal = true.

Lemma elegir_segmento_ok canal g :
  In canal df_canal ->
  exists res, elegir_segmento cfg (Nombre_Canal canal) g = Some res.
Proof.
  intros Hin. unfold muestreo_valido in Hval.
  apply andb_true_iff in Hval. destruct Hval as [_ Ht].
  unfold tabla_segmentos_valida in Ht. rewrite forallb_forall in Ht.
  specialize (Ht canal Hin). unfold elegir_segmento.
  destruct (dict_get (PESO_SEGMENTACION_CANAL cfg) (Nombre_Canal canal))
    as [[| kv ps] |]; eauto.
  destruct (rng_choice_p_ok (map fst (kv :: ps))
              (map (fun x => (x / py_sum (map snd (kv :: ps)))%Q)
                   (map snd (kv :: ps))) g Ht) as (seg & g1 & E & _).
  rewrite E.
  destruct (String.eqb seg "A" || String.eqb seg "B").
  - destruct (rng_choice_p_ok [1; 2]%Z [6 # 10; 4 # 10]%Q g1 eq_refl)
      as (c & g2 & E2 & _).
    rewrite E2. eauto.
  - destruct (rng_choice_p_ok [3; 4]%Z [7 # 10; 3 # 10]%Q g1 eq_refl)
      as (c & g2 & E2 & _).
    rewrite E2. eauto.
Qed.

Lemma nuevo_cliente_ok ano st :
  exists c st', nuevo_cliente cfg df_geo df_canal ano st = Some (c, st').
Proof.
  pose proof Hval as Hv. unfold muestreo_valido in Hv.
  apply andb_true_iff in Hv. destruct Hv as [Hv _].
  apply andb_true_iff in Hv. destruct Hv as [Hg Hc].
  unfold nuevo_cliente.
  destruct (rng_choice_p_ok (ids_geo df_geo) (pesos_geo df_geo) (rng st) Hg)
    as (geo & g1 & E1 & _).
  rewrite E1.
  destruct (rng_choice_p_ok (seq 0 (List.length df_canal))
              (pesos_canal_global df_canal) g1 Hc) as (idx & g2 & E2 & Hin).
  rewrite E2. apply in_seq in Hin.
  destruct (nth_error df_canal idx) as [canal |] eqn:Ec.
  2:{ apply nth_error_None in Ec. lia. }
  destruct (elegir_segmento_ok canal g2 (nth_error_In _ _ Ec)) as ([[seg clu] g3] & E3).
  rewrite E3.
  destruct (py_randint 1 12 (rnd st)) as [m r1].
  destruct (py_randint 1 28 r1) as [d r2].
  destruct (py_random r2) as [u r3].
  destruct (if Qltb u (7 # 10) then faker_company (fk st) else faker_name (fk st))
    as [nombre f1].
  destruct (np_uniform 18 (198 # 10) g3) as [lat g4].
  destruct (np_uniform (- (715 # 10)) (- (685 # 10)) g4) as [lon g5].
  eauto.
Qed.

Lemma crecer_ok ano k : forall st,
  exists cs st', crecer cfg df_geo df_canal ano k st = Some (cs, st').
Proof.
  induction k as [| k IH]; intros st; simpl; eauto.
  destruct (nuevo_cliente_ok ano st) as (c & st1 & E1). rewrite E1.
  destruct (IH st1) as (cs & st2 & E2). rewrite E2. eauto.
Qed.

Lemma paso_crecimiento_ok ano target st :
  exists st', paso_crecimiento cfg df_geo df_canal ano target st = Some st'.
Proof.
  unfold paso_crecimiento.
  destruct (0 <? num_nuevos target (clientes_activos_historicos st)); eauto.
  destruct (crecer_ok ano (num_nuevos target (clientes_activos_historicos st)) st)
    as (cs & st1 & E).
  rewrite E. eauto.
Qed.

Lemma paso_anual_ok i ano st :
  objetivo cfg ano <> None ->
  exists st', paso_anual cfg df_geo df_canal i ano st = Some st'.
Proof.
  intros Ho. unfold paso_anual.
  destruct (objetivo cfg ano) as [target |]; [| congruence].
  apply paso_crecimiento_ok.
Qed.

Lemma bucle_anos_ok anos : forall i st,
  (forall ano, In ano anos -> objetivo cfg ano <> None) ->
  exists st', bucle_anos cfg df_geo df_canal i anos st = Some st'.
Proof.
  induction anos as [| ano anos IH]; intros i st Ho; simpl; eauto.
  destruct (paso_anual_ok i ano st (Ho ano (or_introl eq_refl))) as [st1 E1].
  rewrite E1. apply IH. intros a Ha. apply Ho. now right.
Qed.

End Totalidad.

Import Clientes.
Local Open Scope nat_scope.

Lemma NoDup_map_inyectiva {A B : Type} (f : A -> B) (l : list A) :
  (forall x y, f x = f y -> x = y) -> NoDup l -> NoDup (map f l).
Proof.
  intros Hinj. induction 1 as [| x l Hx Hl IH]; simpl; constructor; auto.
  intros Hin. apply in_map_iff in Hin. destruct Hin as (y & Hy & Hyin).
  apply Hinj in Hy. subst y. contradiction.
Qed.

Section Teoremas.

Context `{Azar} `{!AzarLegal}.
Variable cfg : Config.
Variable df_geo : list Geografia.
Variable df_canal : list Canal.

Local Abbreviation clientes := (clientes_activos_historicos).
Local Abbreviation contador := (current_customer_id_counter).

(** C1. Growth invariant of one simulated year. With sampling inputs that
    pass numpy's checks and a target configured for [ano], the year's step
    returns a state: after churn it computes the shortfall
    [target - active], creates no row when the shortfall is not positive and
    exactly [shortfall] rows otherwise, each active and stamped with [ano],
    and the number of active customers then reaches the target. *)
Theorem crecimiento_alcanza_objetivo (i : nat) (ano target : Z) (st : Estado) :
  muestreo_valido cfg df_geo df_canal = true ->
  objetivo cfg ano = Some target ->
  let tras_churn := clientes (paso_churn cfg i ano st) in
  let shortfall := (target - Z.of_nat (contar_activos tras_churn))%Z in
  exists st' nuevos,
    paso_anual cfg df_geo df_canal i ano st = Some st' /\
    clientes st' = tras_churn ++ nuevos /\
    ((shortfall <= 0)%Z -> nuevos = []) /\
    ((0 < shortfall)%Z -> Z.of_nat (List.length nuevos) = shortfall) /\
    Forall (fun c => Activo c = true /\ Ano_Creacion c = ano) nuevos /\
    (target <= Z.of_nat (contar_activos (clientes st')))%Z.
Proof.
  intros Hval Hobj tras_churn shortfall.
  unfold paso_anual. rewrite Hobj.
  destruct (paso_crecimiento_ok cfg df_geo df_canal Hval ano target
              (paso_churn cfg i ano st)) as (st' & E).
  exists st'.
  destruct (paso_crecimiento_spec cfg df_geo df_canal ano target _ _ E)
    as (nuevos & Hcl & Hlen & Hnew & _ & _).
  exists nuevos. fold tras_churn in Hcl, Hlen.
  unfold num_nuevos in Hlen. fold shortfall in Hlen.
  split; [exact E |]. split; [exact Hcl |].
  split; [| split; [| split]].
  - intros Hs. destruct nuevos; auto. simpl in Hlen. lia.
  - intros Hs. rewrite Hlen. lia.
  - exact Hnew.
  - rewrite Hcl, contar_activos_app.
    rewrite (contar_activos_todos nuevos).
    + rewrite Hlen. unfold shortfall. lia.
    + eapply Forall_impl; [| exact Hnew]. intros c [Hc _]. exact Hc.
Qed.

Lemma paso_anual_conserva i ano st st' :
  paso_anual cfg df_geo df_canal i ano st = Some st' ->
  exists nuevos,
    clientes st' = clientes (paso_churn cfg i ano st) ++ nuevos /\
    Forall2 (cambio_churn ano) (clientes st) (clientes (paso_churn cfg i ano st)) /\
    map ID_Cliente nuevos
      = map id_cliente (seq (S (contador st)) (List.length nuevos)) /\
    contador st' = contador st + List.length nuevos.
Proof.
  unfold paso_anual. destruct (objetivo cfg ano) as [target |]; [| discriminate].
  intros E.
  destruct (paso_crecimiento_spec cfg df_geo df_canal ano target _ _ E)
    as (nuevos & Hcl & _ & _ & Hids & Hcnt).
  destruct (paso_churn_cambio cfg i ano st) as [Hch Hc].
  exists nuevos. rewrite Hc in Hids, Hcnt. auto.
Qed.

Lemma bucle_anos_conserva anos : forall i st st',
  bucle_anos cfg df_geo df_canal i anos st = Some st' ->
  exists viejos nuevos,
    clientes st' = viejos ++ nuevos /\
    Forall2 solo_baja (clientes st) viejos.
Proof.
  induction anos as [| ano anos IH]; intros i st st' E; simpl in E.
  - inversion E; subst. exists (clientes st'), []. rewrite app_nil_r.
    split; auto. apply Forall2_solo_baja_refl.
  - destruct (paso_anual cfg df_geo df_canal i ano st) as [st1 |] eqn:E1;
      [| discriminate].
    destruct (paso_anual_conserva i ano st st1 E1) as (n1 & Hcl1 & Hch & _).
    destruct (IH _ _ _ E) as (v2 & n2 & Hcl2 & Hsb).
    rewrite Hcl1 in Hsb.
    apply Forall2_app_inv_l in Hsb.
    destruct Hsb as (v2a & v2b & Ha & Hb & ->).
    exists v2a, (v2b ++ n2). split.
    + now rewrite Hcl2, app_assoc.
    + eapply Forall2_solo_baja_trans; [| exact Ha].
      eapply Forall2_impl; [| exact Hch].
      intros a b. apply cambio_churn_solo_baja.
Qed.

(** C2. Customer rows are never deleted. In a year [ano] followed by the
    years [resto]: churn leaves every row in place and may only switch an
    active row of an earlier year to inactive (and does nothing in the first
    year), growth only appends, so the table never gets shorter; and every
    row present after the year is still in the final table, at the same
    position and with the same identifier, changed at most by
    deactivation. *)
Theorem clientes_nunca_se_eliminan
        (i : nat) (ano : Z) (resto : list Z) (st st1 st' : Estado) :
  paso_anual cfg df_geo df_canal i ano st = Some st1 ->
  bucle_anos cfg df_geo df_canal (S i) resto st1 = Some st' ->
  (exists nuevos,
     clientes st1 = clientes (paso_churn cfg i ano st) ++ nuevos /\
     Forall2 (cambio_churn ano) (clientes st) (clientes (paso_churn cfg i ano st)) /\
     (i = 0 -> clientes (paso_churn cfg i ano st) = clientes st) /\
     List.length (clientes st) <= List.length (clientes st1)) /\
  (exists viejos posteriores,
     clientes st' = viejos ++ posteriores /\
     Forall2 solo_baja (clientes st1) viejos /\
     map ID_Cliente viejos = map ID_Cliente (clientes st1) /\
     List.length (clientes st1) <= List.length (clientes st')).
Proof.
  intros E1 E2. split.
  - destruct (paso_anual_conserva i ano st st1 E1) as (nuevos & Hcl & Hch & _).
    exists nuevos. split; [exact Hcl |]. split; [exact Hch |]. split.
    + intros ->. now rewrite paso_churn_primer_ano.
    + rewrite Hcl, length_app. apply Forall2_length in Hch. lia.
  - destruct (bucle_anos_conserva resto (S i) st1 st' E2) as (v & p & Hcl & Hsb).
    exists v, p. split; [exact Hcl |]. split; [exact Hsb |]. split.
    + apply (Forall2_ids solo_baja); auto.
      intros c c' [-> | [_ ->]]; reflexivity.
    + rewrite Hcl, length_app. apply Forall2_length in Hsb. lia.
Qed.

Lemma paso_anual_ids i ano st st' :
  paso_anual cfg df_geo df_canal i ano st = Some st' ->
  ids_en_orden st -> ids_en_orden st'.
Proof.
  intros E Hinv. unfold ids_en_orden in *.
  destruct (paso_anual_conserva i ano st st' E) as (nuevos & Hcl & Hch & Hids & Hcnt).
  rewrite Hcl, map_app, Hids, Hcnt, seq_app, map_app.
  f_equal. rewrite <- Hinv.
  apply (Forall2_ids (cambio_churn ano)); auto.
  intros c c'. apply cambio_churn_id.
Qed.

Lemma bucle_anos_ids anos : forall i st st',
  bucle_anos cfg df_geo df_canal i anos st = Some st' ->
  ids_en_orden st -> ids_en_orden st'.
Proof.
  induction anos as [| ano anos IH]; intros i st st' E Hinv; simpl in E.
  - now inversion E; subst.
  - destruct (paso_anual cfg df_geo df_canal i ano st) as [st1 |] eqn:E1;
      [| discriminate].
    eapply IH; eauto. eapply paso_anual_ids; eauto.
Qed.

(** C10. Surrogate keys are unique. The identifiers of the final customer
    table are ["CLI-"] followed by the zero-padded values 1, 2, ... of the
    global counter, in creation order, and are pairwise distinct, rows
    deactivated by churn included. *)
Theorem ids_cliente_distintos (r : PyRand) (f : FakerSt) (tabla : list Cliente) :
  generar_dim_cliente_masiva cfg df_geo df_canal r f = Some tabla ->
  NoDup (map ID_Cliente tabla) /\
  map ID_Cliente tabla = map id_cliente (seq 1 (List.length tabla)).
Proof.
  unfold generar_dim_cliente_masiva. intros E.
  destruct (bucle_anos cfg df_geo df_canal 0 (ANOS_SIMULACION cfg)
              (estado_inicial cfg r f)) as [st |] eqn:Eb; [| discriminate].
  inversion E; subst tabla; clear E.
  assert (Hinv : ids_en_orden st).
  { eapply bucle_anos_ids; eauto. reflexivity. }
  unfold ids_en_orden in Hinv.
  assert (Hlen : List.length (clientes st) = contador st).
  { apply (f_equal (@List.length string)) in Hinv.
    now rewrite !length_map, length_seq in Hinv. }
  rewrite Hlen. split; [| exact Hinv].
  rewrite Hinv. apply NoDup_map_inyectiva.
  - apply id_cliente_inyectiva.
  - apply seq_NoDup.
Qed.

End Teoremas.

End ClientesFacts.

Section PruebaFacts.

Import Prueba.

Lemma tirada_no_negativa (z : Z) : (0 <= fst (tirada z))%Z.
Proof.
  unfold tirada, siguiente. cbn [fst].
  apply Z.div_pos; [| lia].
  apply Z.mod_pos_bound. lia.
Qed.

Lemma indice_lt (n : nat) (z : Z) : (0 < n)%nat -> (fst (indice n z) < n)%nat.
Proof.
  intros Hn. unfold indice.
  pose proof (tirada_no_negativa z) as Hv.
  destruct (tirada z) as [v z']. cbn [fst] in *.
  pose proof (Z.mod_pos_bound v (Z.of_nat n) ltac:(lia)). lia.
Qed.

Lemma entero_rango (lo hi z : Z) :
  (lo < hi)%Z -> (lo <= fst (entero lo hi z) < hi)%Z.
Proof.
  intros Hlh. unfold entero.
  destruct (tirada z) as [v z']. cbn [fst].
  pose proof (Z.mod_pos_bound v (hi - lo) ltac:(lia)). lia.
Qed.

Lemma tiradas_length (n : nat) : forall z, List.length (fst (tiradas n z)) = n.
Proof.
  induction n as [| n IH]; intros z; cbn [tiradas]; auto.
  destruct (tirada z) as [v z1]. specialize (IH z1).
  destruct (tiradas n z1) as [vs z2]. cbn [fst List.length] in *. now f_equal.
Qed.

Lemma azar_prueba_legal : @AzarLegal azar_prueba.
Proof.
  constructor.
  - intros n g. apply tiradas_length.
  - intros p g Hp. apply (indice_lt (List.length p) g).
    destruct p; [congruence | simpl; lia].
  - intros n g Hn. now apply (indice_lt n g).
  - intros lo hi g Hlh. now apply (entero_rango lo hi g).
  - intros a b r Hab.
    change (@py_randint azar_prueba a b r) with (entero a (b + 1) r).
    assert (Hlt : (a < b + 1)%Z) by lia.
    destruct (entero_rango a (b + 1) r Hlt) as [H1 H2].
    split; [exact H1 | apply Z.lt_succ_r; exact H2].
  - intros n r Hn. now apply (indice_lt n r).
  - intros w r Hw. apply (indice_lt (List.length w) r).
    destruct w; [congruence | simpl; lia].
  - intros n h s Hnh.
    change (@pl_sample_idx azar_prueba n h s) with (seq 0 (Nat.min n h)).
    rewrite length_seq. lia.
  - intros n h s i Hi.
    change (@pl_sample_idx azar_prueba n h s) with (seq 0 (Nat.min n h)) in Hi.
    apply in_seq in Hi. lia.
Qed.

End PruebaFacts.

Section RutasFacts0.

Import Flota Rutas.
Local Open Scope nat_scope.

Lemma NoDup_map_unico {A B : Type} (f : A -> B) (l : list A) (x y : A) :
  NoDup (map f l) -> In x l -> In y l -> f x = f y -> x = y.
Proof.
  induction l as [| a l IH]; intros Hnd Hx Hy Hf; [destruct Hx |].
  simpl in Hnd. inversion Hnd as [| ? ? Hni Hnd']; subst.
  destruct Hx as [-> | Hx], Hy as [-> | Hy]; auto.
  - exfalso. apply Hni. rewrite Hf. now apply in_map.
  - exfalso. apply Hni. rewrite <- Hf. now apply in_map.
Qed.

Section RutasFacts.

Context `{Azar} `{!AzarLegal}.
Variable geodesic_km : Q * Q -> Q * Q -> Q.
Variable df_geo : list Clientes.Geografia.
Variable df_vehiculo : list Vehiculo.
Variable df_vendedor : list Vendedor.

Lemma nueva_ruta_spec c geos vehs vends st r st' :
  nueva_ruta geodesic_km c geos vehs vends st = Some (r, st') ->
  ruta_de c vehs vends r.
Proof.
  unfold nueva_ruta. intros E.
  destruct (random_choice vehs (rnd st)) as [[vehiculo r1] |] eqn:E1; [| discriminate].
  destruct (random_choice vends r1) as [[vendedor r2] |] eqn:E2; [| discriminate].
  destruct (random_choice geos r2) as [[geo r3] |] eqn:E3; [| discriminate].
  destruct (np_uniform (13 # 10) (16 # 10) (rng st)) as [factor g1].
  destruct (random_choices _ _ r3) as [[frecuencia r4] |]; [| discriminate].
  match type of E with
  | match ?x with _ => _ end = _ => destruct x as [[dias r5] |]; [| discriminate]
  end.
  destruct (faker_city_suffix (fake st)) as [sufijo f1].
  destruct (faker_street_name f1) as [calle f2].
  destruct (random_choices _ _ r5) as [[peaje r6] |]; [| discriminate].
  inversion E; subst; clear E. unfold ruta_de. cbn.
  split; [reflexivity |]. split.
  - exists vehiculo. split; auto. eapply random_choice_In; eauto.
  - exists vendedor. split; auto. eapply random_choice_In; eauto.
Qed.

Lemma bucle_rutas_spec c geos vehs vends k : forall st rutas st',
  bucle_rutas geodesic_km c geos vehs vends k st = Some (rutas, st') ->
  List.length rutas = k /\ Forall (ruta_de c vehs vends) rutas.
Proof.
  induction k as [| k IH]; intros st rutas st' E; simpl in E.
  - inversion E; subst. split; auto.
  - destruct (nueva_ruta geodesic_km c geos vehs vends st) as [[r st1] |] eqn:E1;
      [| discriminate].
    destruct (bucle_rutas geodesic_km c geos vehs vends k st1) as [[rs st2] |] eqn:E2;
      [| discriminate].
    inversion E; subst; clear E.
    apply nueva_ruta_spec in E1. destruct (IH _ _ _ E2) as [Hl Hf].
    split; [simpl; now rewrite Hl | constructor; auto].
Qed.

Lemma rutas_de_cedi_spec c st rutas st' :
  rutas_de_cedi geodesic_km df_geo df_vehiculo df_vendedor c st = Some (rutas, st') ->
  Forall (ruta_de c (vehiculos_disponibles df_vehiculo (CEDI_ID c))
                    (vendedores_disponibles df_vendedor (CEDI_ID c))) rutas
  /\ (vehiculos_disponibles df_vehiculo (CEDI_ID c) <> [] ->
      vendedores_disponibles df_vendedor (CEDI_ID c) <> [] ->
      Z.of_nat (List.length rutas)
      = num_rutas_por_cedi
          (List.length (vehiculos_disponibles df_vehiculo (CEDI_ID c)))
          (Capacidad_Pallets c)).
Proof.
  unfold rutas_de_cedi. intros E.
  destruct (geos_objetivo df_geo c (rng st)) as [[geos g1] |]; [| discriminate].
  destruct (vehiculos_disponibles df_vehiculo (CEDI_ID c)) as [| v vehs] eqn:Ev.
  { inversion E; subst. split; [constructor | congruence]. }
  destruct (vendedores_disponibles df_vendedor (CEDI_ID c)) as [| a vends] eqn:Ea.
  { inversion E; subst. split; [constructor | congruence]. }
  apply bucle_rutas_spec in E. destruct E as [Hl Hf].
  split; [exact Hf |]. intros _ _. rewrite Hl.
  apply Z2Nat.id. unfold num_rutas_por_cedi. lia.
Qed.

Lemma bucle_cedis_spec cedis : forall st rutas r,
  bucle_cedis geodesic_km df_geo df_vehiculo df_vendedor cedis st = Some rutas ->
  In r rutas ->
  exists c, In c cedis /\
            ruta_de c (vehiculos_disponibles df_vehiculo (CEDI_ID c))
                      (vendedores_disponibles df_vendedor (CEDI_ID c)) r.
Proof.
  induction cedis as [| c cedis IH]; intros st rutas r E Hin; simpl in E.
  - inversion E; subst. destruct Hin.
  - destruct (rutas_de_cedi geodesic_km df_geo df_vehiculo df_vendedor c st)
      as [[rs st1] |] eqn:E1; [| discriminate].
    destruct (bucle_cedis geodesic_km df_geo df_vehiculo df_vendedor cedis st1)
      as [mas |] eqn:E2; [| discriminate].
    inversion E; subst; clear E.
    apply in_app_or in Hin. destruct Hin as [Hin | Hin].
    + apply rutas_de_cedi_spec in E1. destruct E1 as [Hf _].
      rewrite Forall_forall in Hf. exists c. split; [now left | auto].
    + destruct (IH _ _ _ E2 Hin) as (c' & Hc' & Hr). exists c'. split; [now right | auto].
Qed.

(** C3. Route resource locality. Every generated route starts at a centre
    of [df_cedi]; its vehicle is a row of [df_vehiculo] assigned to that
    centre and in state "Operativo"; its agent is a row of [df_vendedor]
    based at that centre and in state "Activo"; and where identifiers are
    unique in those tables, no row of another centre carries the vehicle's or
    the agent's identifier. *)
Theorem recursos_del_cedi_origen
        (df_cedi : list Cedi) (f : FakerSt) (rutas : list Ruta) (r : Ruta) :
  generar_dim_ruta geodesic_km df_geo df_vehiculo df_vendedor df_cedi f = Some rutas ->
  In r rutas ->
  In (ID_CEDI_Origen r) (map CEDI_ID df_cedi) /\
  (exists v, In v df_vehiculo /\
             ID_Vehiculo v = ID_Vehiculo_Asignado r /\
             CEDI_Asignado_ID v = ID_CEDI_Origen r /\
             Estado_Vehiculo v = "Operativo"%string) /\
  (exists a, In a df_vendedor /\
             Vendedor_ID a = ID_Vendedor_Titular r /\
             CEDI_Base_ID a = ID_CEDI_Origen r /\
             Estado_Vendedor a = "Activo"%string) /\
  (NoDup (map ID_Vehiculo df_vehiculo) ->
   forall v, In v df_vehiculo -> ID_Vehiculo v = ID_Vehiculo_Asignado r ->
             CEDI_Asignado_ID v = ID_CEDI_Origen r) /\
  (NoDup (map Vendedor_ID df_vendedor) ->
   forall a, In a df_vendedor -> Vendedor_ID a = ID_Vendedor_Titular r ->
             CEDI_Base_ID a = ID_CEDI_Origen r).
Proof.
  unfold generar_dim_ruta. intros E Hin.
  destruct (bucle_cedis_spec _ _ _ _ E Hin) as (c & Hc & Hid & (v & Hv & Hvid) & (a & Ha & Haid)).
  unfold vehiculos_disponibles in Hv. apply filter_In in Hv.
  destruct Hv as [Hv Hvc]. apply andb_true_iff in Hvc. destruct Hvc as [Hv1 Hv2].
  apply String.eqb_eq in Hv1, Hv2.
  unfold vendedores_disponibles in Ha. apply filter_In in Ha.
  destruct Ha as [Ha Hac]. apply andb_true_iff in Hac. destruct Hac as [Ha1 Ha2].
  apply String.eqb_eq in Ha1, Ha2.
  rewrite Hid.
  split; [now apply in_map |].
  split; [exists v; auto |].
  split; [exists a; auto |].
  split.
  - intros Hnd v' Hv' Hid'.
    assert (v' = v) by (eapply NoDup_map_unico; eauto; congruence).
    now subst v'.
  - intros Hnd a' Ha' Hid'.
    assert (a' = a) by (eapply NoDup_map_unico; eauto; congruence).
    now subst a'.
Qed.

Lemma df_sample_no_vacia {A : Type} (l : list A) (n : nat) (seed : Z) :
  0 < n -> n <= List.length l -> df_sample l n seed <> [].
Proof.
  intros Hn Hl. unfold df_sample.
  pose proof (pl_sample_idx_length n (List.length l) seed Hl) as Hlen.
  pose proof (pl_sample_idx_lt n (List.length l) seed) as Hlt.
  destruct (pl_sample_idx n (List.length l) seed) as [| i otros]; [simpl in Hlen; lia |].
  simpl. specialize (Hlt i (or_introl eq_refl)).
  destruct (nth_error l i) eqn:Ei; [discriminate |].
  apply nth_error_None in Ei. lia.
Qed.

Lemma geos_objetivo_ok c g :
  df_geo <> [] ->
  exists geos g', geos_objetivo df_geo c g = Some (geos, g') /\ geos <> [].
Proof.
  intros Hg. unfold geos_objetivo.
  assert (Hlen : 0 < List.length df_geo)
    by (destruct df_geo; [congruence | simpl; lia]).
  destruct (filter _ df_geo) as [| p ps] eqn:Ef.
  - unfold rng_integers. cbn [Z.ltb Z.compare].
    eexists. eexists. split; [reflexivity |].
    apply df_sample_no_vacia; lia.
  - exists (p :: ps), g. split; [reflexivity | discriminate].
Qed.

Lemma nueva_ruta_ok c geos vehs vends st :
  vehs <> [] -> vends <> [] -> geos <> [] ->
  exists r st', nueva_ruta geodesic_km c geos vehs vends st = Some (r, st').
Proof.
  intros Hv Ha Hg. unfold nueva_ruta.
  destruct (random_choice_ok vehs (rnd st) Hv) as (v & r1 & E1 & _). rewrite E1.
  destruct (random_choice_ok vends r1 Ha) as (a & r2 & E2 & _). rewrite E2.
  destruct (random_choice_ok geos r2 Hg) as (p & r3 & E3 & _). rewrite E3.
  destruct (np_uniform (13 # 10) (16 # 10) (rng st)) as [factor g1].
  destruct (random_choices_ok
              ["Diaria (L-S)"; "Interdiaria (L-M-X)"; "Semanal (1 día)"]%string
              [3 # 10; 5 # 10; 2 # 10]%Q r3 eq_refl ltac:(discriminate))
    as (fr & r4 & E4).
  rewrite E4.
  assert (exists d r5,
            (if String.eqb fr "Diaria (L-S)" then Some ("L-M-M-J-V-S"%string, r4)
             else if String.eqb fr "Interdiaria (L-M-X)"
                  then random_choice ["L-M-V"; "M-J-S"; "L-X-V"]%string r4
                  else random_choice
                         ["Lunes"; "Martes"; "Miércoles"; "Jueves"; "Viernes"]%string r4)
            = Some (d, r5)) as (d & r5 & E5).
  { destruct (String.eqb fr "Diaria (L-S)"); [eauto |].
    destruct (String.eqb fr "Interdiaria (L-M-X)").
    - destruct (random_choice_ok ["L-M-V"; "M-J-S"; "L-X-V"]%string r4
                  ltac:(discriminate)) as (d & r5 & E & _). eauto.
    - destruct (random_choice_ok
                  ["Lunes"; "Martes"; "Miércoles"; "Jueves"; "Viernes"]%string r4
                  ltac:(discriminate)) as (d & r5 & E & _). eauto. }
  rewrite E5.
  destruct (faker_city_suffix (fake st)) as [sufijo f1].
  destruct (faker_street_name f1) as [calle f2].
  destruct (random_choices_ok [0; 0; 50; 100; 200]%Q
              [4 # 10; 2 # 10; 2 # 10; 1 # 10; 1 # 10]%Q r5 eq_refl ltac:(discriminate))
    as (pe & r6 & E6).
  rewrite E6. eauto.
Qed.

Lemma bucle_rutas_ok c geos vehs vends k : forall st,
  vehs <> [] -> vends <> [] -> geos <> [] ->
  exists rutas st', bucle_rutas geodesic_km c geos vehs vends k st = Some (rutas, st').
Proof.
  induction k as [| k IH]; intros st Hv Ha Hg; simpl; eauto.
  destruct (nueva_ruta_ok c geos vehs vends st Hv Ha Hg) as (r & st1 & E1). rewrite E1.
  destruct (IH st1 Hv Ha Hg) as (rs & st2 & E2). rewrite E2. eauto.
Qed.


End RutasFacts.

End RutasFacts0.

Section FlotaFacts0.

Import Flota.
Local Open Scope Z_scope.

Section FlotaFacts.

Context `{Azar} `{!AzarLegal}.

Lemma kilometraje_rango hoy anho_fab g km g' :
  kilometraje_actual hoy anho_fab g = Some (km, g') ->
  Z.max 1000 (kilometraje_base hoy anho_fab - 10000) <= km
  < kilometraje_base hoy anho_fab + 30000.
Proof.
  unfold kilometraje_actual, rng_integers.
  destruct (Z.ltb_spec (Z.max 1000 (kilometraje_base hoy anho_fab - 10000))
                       (kilometraje_base hoy anho_fab + 30000)) as [Hlt | Hge];
    [| discriminate].
  intros E. inversion E as [[Ek]].
  pose proof (np_integers_range _ _ g Hlt) as Hr.
  destruct (np_integers _ _ g) as [v g1]. cbn [fst] in *.
  inversion Ek; subst. exact Hr.
Qed.

(** Two years apart, the mileage ranges no longer meet. *)
Lemma kilometraje_depende_de_la_fecha hoy1 hoy2 anho_fab g1 g2 km1 km2 g1' g2' :
  hoy1 + 2 <= hoy2 ->
  kilometraje_actual hoy1 anho_fab g1 = Some (km1, g1') ->
  kilometraje_actual hoy2 anho_fab g2 = Some (km2, g2') ->
  km1 < km2.
Proof.
  intros Hh E1 E2.
  apply kilometraje_rango in E1. apply kilometraje_rango in E2.
  unfold kilometraje_base in *. nia.
Qed.

Lemma nuevo_vehiculo_kilometraje hoy1 hoy2 cedi_id ep cons g v1 v2 g1 g2 :
  hoy1 + 2 <= hoy2 ->
  nuevo_vehiculo hoy1 cedi_id ep cons g = Some (v1, g1) ->
  nuevo_vehiculo hoy2 cedi_id ep cons g = Some (v2, g2) ->
  Kilometraje_Actual_KM v1 < Kilometraje_Actual_KM v2.
Proof.
  intros Hh. unfold nuevo_vehiculo.
  destruct (rng_choice_p TIPOS_VEHICULOS (pesos_tipo ep) g) as [[tipo ga] |];
    [| discriminate].
  destruct (rng_choice ["A"; "B"; "C"; "D"; "L"]%string ga) as [[letra gb] |];
    [| discriminate].
  destruct (rng_integers 100000 999999 gb) as [[nums gc] |]; [| discriminate].
  destruct (rng_integers 2015 2023 gc) as [[anho gd] |]; [| discriminate].
  destruct (kilometraje_actual hoy1 anho gd) as [[km1 ge1] |] eqn:K1; [| discriminate].
  destruct (kilometraje_actual hoy2 anho gd) as [[km2 ge2] |] eqn:K2;
    [| intros _; discriminate].
  pose proof (kilometraje_depende_de_la_fecha _ _ _ _ _ _ _ _ _ Hh K1 K2) as Hkm.
  destruct (rng_choice_p _ _ ge1) as [[e1 gf1] |]; [| discriminate].
  destruct (rng_choice _ gf1) as [[gps1 gg1] |]; [| discriminate].
  destruct (np_uniform _ _ gg1) as [val1 gh1].
  destruct (rng_choice_p _ _ ge2) as [[e2 gf2] |]; [| intros _; discriminate].
  destruct (rng_choice _ gf2) as [[gps2 gg2] |]; [| intros _; discriminate].
  destruct (np_uniform _ _ gg2) as [val2 gh2].
  intros E1 E2. inversion E1; inversion E2; subst. cbn. exact Hkm.
Qed.

(** C9. The fleet table is not a function of the seed alone. Two runs
    over the same centres, with the same seed and the same state of
    Python's [random], executed in calendar years two or more apart, emit
    different tables: the first vehicle has the same identifier in both and
    a strictly larger mileage in the later run. *)
Theorem flota_depende_de_la_fecha
        (hoy1 hoy2 : Z) (c : Cedi) (resto : list Cedi) (r : PyRand)
        (t1 t2 : list Vehiculo) :
  hoy1 + 2 <= hoy2 ->
  generar_dim_vehiculo hoy1 (c :: resto) r = Some t1 ->
  generar_dim_vehiculo hoy2 (c :: resto) r = Some t2 ->
  t1 <> t2 /\
  exists v1 v2, hd_error t1 = Some v1 /\ hd_error t2 = Some v2 /\
                ID_Vehiculo v1 = ID_Vehiculo v2 /\
                Kilometraje_Actual_KM v1 < Kilometraje_Actual_KM v2.
Proof.
  intros Hh. unfold generar_dim_vehiculo. cbn [bucle_cedis].
  set (ep := es_cedi_principal c).
  assert (Hn : exists k r1,
             (if ep then py_randint 30 45 r else py_randint 15 20 r) = (k, r1)
             /\ 15 <= k).
  { destruct ep.
    - pose proof (py_randint_range 30 45 r ltac:(lia)) as Hr.
      destruct (py_randint 30 45 r) as [k r1]. cbn [fst] in Hr.
      exists k, r1. split; auto. lia.
    - pose proof (py_randint_range 15 20 r ltac:(lia)) as Hr.
      destruct (py_randint 15 20 r) as [k r1]. cbn [fst] in Hr.
      exists k, r1. split; auto. lia. }
  destruct Hn as (k & r1 & -> & Hk).
  destruct (Z.to_nat k) as [| k'] eqn:Ek; [lia |].
  cbn [flota_de_cedi].
  destruct (nuevo_vehiculo hoy1 (CEDI_ID c) ep 1 (np_default_rng SEED_VAL))
    as [[v1 ga1] |] eqn:N1; [| discriminate].
  destruct (nuevo_vehiculo hoy2 (CEDI_ID c) ep 1 (np_default_rng SEED_VAL))
    as [[v2 ga2] |] eqn:N2; [| intros _; discriminate].
  pose proof (nuevo_vehiculo_kilometraje _ _ _ _ _ _ _ _ _ _ Hh N1 N2) as Hkm.
  assert (Hid : ID_Vehiculo v1 = ID_Vehiculo v2).
  { clear Hkm. unfold nuevo_vehiculo in N1, N2.
    repeat match type of N1 with
           | match ?x with _ => _ end = _ => destruct x as [[? ?] |]; [| discriminate]
           | (let (_, _) := ?x in _) = _ => destruct x
           end.
    repeat match type of N2 with
           | match ?x with _ => _ end = _ => destruct x as [[? ?] |]; [| discriminate]
           | (let (_, _) := ?x in _) = _ => destruct x
           end.
    inversion N1; inversion N2; subst. reflexivity. }
  destruct (flota_de_cedi hoy1 (CEDI_ID c) ep k' 2%nat ga1) as [[[vs1 c1] gb1] |];
    [| discriminate].
  destruct (flota_de_cedi hoy2 (CEDI_ID c) ep k' 2%nat ga2) as [[[vs2 c2] gb2] |];
    [| intros _; discriminate].
  destruct (bucle_cedis hoy1 resto c1 gb1 r1) as [rs1 |]; [| discriminate].
  destruct (bucle_cedis hoy2 resto c2 gb2 r1) as [rs2 |]; [| intros _; discriminate].
  intros E1 E2. inversion E1; inversion E2; subst; clear E1 E2.
  split.
  - intros E. cbn [app] in E. injection E as Ev _. rewrite Ev in Hkm. lia.
  - exists v1, v2. cbn. auto.
Qed.

End FlotaFacts.

End FlotaFacts0.

Section Testigos.

Import Prueba.
Local Open Scope nat_scope.

Lemma crecimiento_alcanza_objetivo_witness :
  Clientes.muestreo_valido cfg_prueba geo_prueba canales_prueba = true /\
  Clientes.objetivo cfg_prueba 2021 = Some 3%Z /\
  let st := @Clientes.estado_inicial azar_prueba cfg_prueba 7%Z 9%Z in
  let tras_churn :=
    Clientes.clientes_activos_historicos (Clientes.paso_churn cfg_prueba 0 2021 st) in
  let shortfall := (3 - Z.of_nat (Clientes.contar_activos tras_churn))%Z in
  exists st' nuevos,
    Clientes.paso_anual cfg_prueba geo_prueba canales_prueba 0 2021 st = Some st' /\
    Clientes.clientes_activos_historicos st' = (tras_churn ++ nuevos)%list /\
    ((shortfall <= 0)%Z -> nuevos = []) /\
    ((0 < shortfall)%Z -> Z.of_nat (List.length nuevos) = shortfall) /\
    Forall (fun c => Clientes.Activo c = true /\ Clientes.Ano_Creacion c = 2021%Z) nuevos /\
    (3 <= Z.of_nat (Clientes.contar_activos (Clientes.clientes_activos_historicos st')))%Z.
Proof.
  split; [vm_compute; reflexivity |].
  split; [vm_compute; reflexivity |].
  apply (@crecimiento_alcanza_objetivo azar_prueba azar_prueba_legal
           cfg_prueba geo_prueba canales_prueba 0%nat 2021%Z 3%Z).
  - vm_compute. reflexivity.
  - vm_compute. reflexivity.
Defined.

Lemma clientes_nunca_se_eliminan_witness :
  let st := @Clientes.estado_inicial azar_prueba cfg_prueba 7%Z 9%Z in
  exists st1 st',
    Clientes.paso_anual cfg_prueba geo_prueba canales_prueba 0 2021 st = Some st1 /\
    Clientes.bucle_anos cfg_prueba geo_prueba canales_prueba 1 [2022%Z] st1 = Some st' /\
    List.length (Clientes.clientes_activos_historicos st)
      <= List.length (Clientes.clientes_activos_historicos st1) /\
    List.length (Clientes.clientes_activos_historicos st1)
      <= List.length (Clientes.clientes_activos_historicos st').
Proof.
  intros st.
  assert (Hval : Clientes.muestreo_valido cfg_prueba geo_prueba canales_prueba = true)
    by (vm_compute; reflexivity).
  destruct (@paso_anual_ok azar_prueba azar_prueba_legal cfg_prueba geo_prueba
              canales_prueba Hval 0%nat 2021%Z st) as [st1 E1].
  { vm_compute. discriminate. }
  destruct (@bucle_anos_ok azar_prueba azar_prueba_legal cfg_prueba geo_prueba
              canales_prueba Hval [2022%Z] 1%nat st1) as [st' E2].
  { intros ano [<- | []]. vm_compute. discriminate. }
  exists st1, st'.
  split; [exact E1 |]. split; [exact E2 |].
  destruct (@clientes_nunca_se_eliminan azar_prueba cfg_prueba geo_prueba
              canales_prueba 0%nat 2021%Z [2022%Z] st st1 st' E1 E2)
    as [(n1 & _ & _ & _ & H1) (v & p & _ & _ & _ & H2)].
  split; [exact H1 | exact H2].
Defined.

Lemma ids_cliente_distintos_witness :
  exists tabla,
    @Clientes.generar_dim_cliente_masiva azar_prueba cfg_prueba geo_prueba
      canales_prueba 7%Z 9%Z = Some tabla /\
    NoDup (map Clientes.ID_Cliente tabla) /\
    map Clientes.ID_Cliente tabla
      = map Clientes.id_cliente (seq 1 (List.length tabla)).
Proof.
  let v := eval vm_compute in
      (@Clientes.generar_dim_cliente_masiva azar_prueba cfg_prueba geo_prueba
         canales_prueba 7%Z 9%Z) in
  lazymatch v with
  | Some ?t =>
      assert (E : @Clientes.generar_dim_cliente_masiva azar_prueba cfg_prueba
                    geo_prueba canales_prueba 7%Z 9%Z = Some t)
        by (vm_compute; reflexivity);
      exists t
  end.
  split; [exact E |].
  exact (@ids_cliente_distintos azar_prueba cfg_prueba geo_prueba canales_prueba
           7%Z 9%Z _ E).
Defined.

Lemma recursos_del_cedi_origen_witness :
  exists rutas r,
    @Rutas.generar_dim_ruta azar_prueba geodesic_prueba geo_prueba
      [vehiculo_prueba] [vendedor_prueba] [cedi_prueba] 9%Z = Some rutas /\
    In r rutas /\
    In (Rutas.ID_CEDI_Origen r) (map Flota.CEDI_ID [cedi_prueba]) /\
    (exists v, In v [vehiculo_prueba] /\
               Flota.ID_Vehiculo v = Rutas.ID_Vehiculo_Asignado r /\
               Flota.CEDI_Asignado_ID v = Rutas.ID_CEDI_Origen r /\
               Flota.Estado_Vehiculo v = "Operativo"%string) /\
    (exists a, In a [vendedor_prueba] /\
               Flota.Vendedor_ID a = Rutas.ID_Vendedor_Titular r /\
               Flota.CEDI_Base_ID a = Rutas.ID_CEDI_Origen r /\
               Flota.Estado_Vendedor a = "Activo"%string).
Proof.
  let v := eval vm_compute in
      (@Rutas.generar_dim_ruta azar_prueba geodesic_prueba geo_prueba
         [vehiculo_prueba] [vendedor_prueba] [cedi_prueba] 9%Z) in
  lazymatch v with
  | Some (?r :: ?rs) =>
      assert (E : @Rutas.generar_dim_ruta azar_prueba geodesic_prueba geo_prueba
                    [vehiculo_prueba] [vendedor_prueba] [cedi_prueba] 9%Z
                  = Some (r :: rs)) by (vm_compute; reflexivity);
      exists (r :: rs), r;
      assert (Hin : In r (r :: rs)) by (left; reflexivity);
      destruct (@recursos_del_cedi_origen azar_prueba geodesic_prueba geo_prueba
                  [vehiculo_prueba] [vendedor_prueba] [cedi_prueba] 9%Z _ r E Hin)
        as (H1 & H2 & H3 & _)
  end.
  split; [exact E |]. split; [exact Hin |].
  split; [exact H1 |]. split; [exact H2 | exact H3].
Defined.




Lemma asegurar_columnas_conforma_witness :
  NoDup (map fst schema_prueba) /\
  exists out,
    fst (Esquema.asegurar_columnas cast_prueba df_prueba schema_prueba
           [("Activo"%string, Esquema.VBool true)]) = Some out /\
    Esquema.columnas out = map fst schema_prueba.
Proof.
  assert (Hnd : NoDup (map fst schema_prueba)).
  { repeat constructor; simpl; intuition discriminate. }
  split; [exact Hnd |].
  destruct (asegurar_columnas_conforma cast_prueba df_prueba schema_prueba
              [("Activo"%string, Esquema.VBool true)] Hnd) as (out & E & Hc & _).
  exists out. split; [exact E | exact Hc].
Defined.

Example asegurar_columnas_ejemplo :
  fst (Esquema.asegurar_columnas cast_prueba df_prueba schema_prueba
         [("Activo"%string, Esquema.VBool true)])
  = Some [
      {| Esquema.nombre := "ID_Cliente"; Esquema.dtype := Esquema.Utf8;
         Esquema.valores := [Esquema.VStr ""; Esquema.VStr ""] |};
      {| Esquema.nombre := "Cluster_ID"; Esquema.dtype := Esquema.Int8;
         Esquema.valores := [Esquema.VInt 1; Esquema.VInt 4] |};
      {| Esquema.nombre := "Fecha_Alta"; Esquema.dtype := Esquema.Date;
         Esquema.valores := [Esquema.VDate 1900 1 1; Esquema.VDate 1900 1 1] |};
      {| Esquema.nombre := "Activo"; Esquema.dtype := Esquema.Boolean;
         Esquema.valores := [Esquema.VBool true; Esquema.VBool true] |} ].
Proof. vm_compute. reflexivity. Qed.

Lemma flota_depende_de_la_fecha_witness :
  (2024 + 2 <= 2026)%Z /\
  exists t1 t2,
    @Flota.generar_dim_vehiculo azar_prueba 2024 [cedi_prueba] 7%Z = Some t1 /\
    @Flota.generar_dim_vehiculo azar_prueba 2026 [cedi_prueba] 7%Z = Some t2 /\
    t1 <> t2.
Proof.
  split; [lia |].
  let v1 := eval vm_compute in
      (@Flota.generar_dim_vehiculo azar_prueba 2024 [cedi_prueba] 7%Z) in
  let v2 := eval vm_compute in
      (@Flota.generar_dim_vehiculo azar_prueba 2026 [cedi_prueba] 7%Z) in
  lazymatch v1 with
  | Some ?a1 =>
      lazymatch v2 with
      | Some ?a2 =>
          assert (E1 : @Flota.generar_dim_vehiculo azar_prueba 2024 [cedi_prueba] 7%Z
                       = Some a1) by (vm_compute; reflexivity);
          assert (E2 : @Flota.generar_dim_vehiculo azar_prueba 2026 [cedi_prueba] 7%Z
                       = Some a2) by (vm_compute; reflexivity);
          exists a1, a2
      end
  end.
  split; [exact E1 |]. split; [exact E2 |].
  assert (Hh : (2024 + 2 <= 2026)%Z) by lia.
  exact (proj1 (@flota_depende_de_la_fecha azar_prueba azar_prueba_legal
                  2024%Z 2026%Z cedi_prueba [] 7%Z _ _ Hh E1 E2)).
Defined.

End Testigos.

Section PesosMas.

Local Open Scope Q_scope.
Import Pesos.

Lemma dict_get_set_otra {V : Type} (d : Dict V) (k k' : string) (v : V) :
  k' <> k -> dict_get (dict_set d k v) k' = dict_get d k'.
Proof.
  intros Hk. induction d as [| [k0 v0] d IH]; simpl.
  - destruct (String.eqb k k') eqn:E; [apply String.eqb_eq in E; congruence | reflexivity].
  - destruct (String.eqb k0 k) eqn:E; simpl.
    + apply String.eqb_eq in E. subst k0.
      destruct (String.eqb k k') eqn:E'; [apply String.eqb_eq in E'; congruence | reflexivity].
    + destruct (String.eqb k0 k'); auto.
Qed.

Lemma py_sum_app (a b : list Q) : py_sum (a ++ b) == py_sum a + py_sum b.
Proof.
  unfold py_sum. rewrite fold_left_app.
  rewrite (fold_left_Qplus_acc b (fold_left Qplus a 0)). ring.
Qed.

Lemma normalizar_bucle_clave_ausente s columna columna_salida
      (l1 : list (Dict Q)) (item : Dict Q) (l2 : list (Dict Q)) :
  Forall (expone columna) l1 ->
  dict_get item columna = None ->
  normalizar_bucle s columna columna_salida (l1 ++ item :: l2)
  = (map (anotar s columna columna_salida) l1 ++ item :: l2, Some (KeyError columna)).
Proof.
  intros Hx Hn. induction Hx as [| it l Hit Hl IH]; simpl.
  - now rewrite Hn.
  - unfold expone in Hit. unfold anotar at 1, peso_o_cero.
    destruct (dict_get it columna) as [w |]; [| congruence].
    now rewrite IH.
Qed.

Lemma normalizar_bucle_marco s columna columna_salida (lista : list (Dict Q)) :
  Forall2 (fun antes despues =>
             forall k, k <> columna_salida -> dict_get despues k = dict_get antes k)
          lista (fst (normalizar_bucle s columna columna_salida lista)).
Proof.
  induction lista as [| item l IH]; simpl; [constructor |].
  destruct (dict_get item columna) as [w |] eqn:E.
  - destruct (normalizar_bucle s columna columna_salida l) as [resto' e]; simpl in *.
    constructor; [| exact IH].
    intros k Hk. now apply dict_get_set_otra.
  - simpl. clear IH. constructor; [auto |].
    induction l; constructor; auto.
Qed.

Lemma isclose_uno_tol (a tol : Q) :
  2 # 1000000000 <= tol ->
  isclose a 1 tol = true <-> Qabs (a - 1) <= tol.
Proof.
  intros Ht. unfold isclose. rewrite Qle_bool_iff.
  change (Qabs 1) with 1.
  split; intros Hc.
  - destruct (Q.max_spec ((1 # 1000000000) * Qmax (Qabs a) 1) tol)
      as [[_ E] | [Hle E]]; rewrite E in Hc; [exact Hc |].
    apply Qabs_Qle_condition in Hc. apply Qabs_Qle_condition.
    destruct (Q.max_spec (Qabs a) 1) as [[_ E1] | [_ E1]]; rewrite E1 in *.
    + split; lra.
    + destruct (Qlt_le_dec a 0) as [Hn | Hp].
      * rewrite (Qabs_neg a) in * by lra. split; lra.
      * rewrite (Qabs_pos a) in * by lra. split; lra.
  - eapply Qle_trans; [exact Hc | apply Q.le_max_r].
Qed.

(** X1. An item without the weight key in the middle of the list. The total
    counts the item as 0. When the total is zero the call raises the
    [ValueError] and leaves the list as it was; otherwise it raises a
    [KeyError] for the column after annotating every item before the
    offending one, and leaves that item and the ones after it untouched. *)
Theorem normalizar_pesos_clave_ausente
        (l1 : list (Dict Q)) (item : Dict Q) (l2 : list (Dict Q))
        (columna columna_salida : string) :
  Forall (expone columna) l1 ->
  dict_get item columna = None ->
  let lista := (l1 ++ item :: l2)%list in
  let total := py_sum (map (peso_o_cero columna) lista) in
  let out := normalizar_pesos lista columna columna_salida in
  total == py_sum (map (peso_o_cero columna) (l1 ++ l2)%list) /\
  (total == 0 ->
     excepcion out = Some (ValueError msg_suma_cero) /\ lista_final out = lista) /\
  (~ total == 0 ->
     excepcion out = Some (KeyError columna) /\
     lista_final out
     = (map (anotar total columna columna_salida) l1 ++ item :: l2)%list).
Proof.
  intros Hx Hn lista total out. split; [| split].
  - subst total lista. rewrite !map_app. cbn [map].
    rewrite !py_sum_app, py_sum_cons.
    unfold peso_o_cero at 2. rewrite Hn. ring.
  - intros Hz. subst out.
    rewrite (normalizar_pesos_total_cero lista columna columna_salida Hz).
    split; reflexivity.
  - intros Hz. subst out. unfold normalizar_pesos. fold total.
    destruct (Qeq_bool total 0) eqn:E.
    + apply Qeq_bool_iff in E. contradiction.
    + subst lista. rewrite normalizar_bucle_clave_ausente by assumption.
      split; reflexivity.
Qed.

Lemma normalizar_pesos_clave_ausente_witness :
  let out := normalizar_pesos [[("Peso"%string, 1)]; [("Otro"%string, 5)]; [("Peso"%string, 3)]]
                              col_peso col_salida in
  excepcion out = Some (KeyError col_peso) /\
  lista_final out
  = [[("Peso"%string, 1); ("Peso_Normalizado"%string, 1 # 4)];
     [("Otro"%string, 5)]; [("Peso"%string, 3)]].
Proof.
  pose proof (normalizar_pesos_clave_ausente
                [[("Peso"%string, 1)]] [("Otro"%string, 5)] [[("Peso"%string, 3)]]
                col_peso col_salida) as H.
  destruct H as [_ [_ H]].
  - repeat constructor. discriminate.
  - reflexivity.
  - apply H. vm_compute. discriminate.
Defined.

(** X2. Whatever the outcome (success, [ValueError], [KeyError]), the
    normaliser keeps the number of items and their order, and on every item
    each key other than the output column reads as before. *)
Theorem normalizar_pesos_conserva_campos
        (lista : list (Dict Q)) (columna columna_salida : string) :
  let out := normalizar_pesos lista columna columna_salida in
  List.length (lista_final out) = List.length lista /\
  Forall2 (fun antes despues =>
             forall k, k <> columna_salida -> dict_get despues k = dict_get antes k)
          lista (lista_final out).
Proof.
  intros out.
  assert (H2 : Forall2 (fun antes despues : Dict Q =>
             forall k, k <> columna_salida -> dict_get despues k = dict_get antes k)
          lista (lista_final out)).
  { subst out. unfold normalizar_pesos.
    destruct (Qeq_bool _ 0).
    - cbn [lista_final]. induction lista; constructor; auto.
    - pose proof (normalizar_bucle_marco
                    (py_sum (map (peso_o_cero columna) lista)) columna columna_salida lista) as Hm.
      destruct (normalizar_bucle _ columna columna_salida lista) as [l' e].
      exact Hm. }
  split; [| exact H2].
  symmetry. eapply Forall2_length. exact H2.
Qed.

Import Validacion.

(** X3. For a tolerance of at least 2e-9 the validator logs exactly one
    record: the confirmation when the total of the weights (a missing key
    counting as 0) is within the tolerance of 1, the warning when it is
    further away; on an empty list it warns exactly when the tolerance is
    below 1. *)
Theorem validar_pesos_aviso_sii_fuera_de_tolerancia
        (lista : list (Dict Q)) (llave_peso nombre_entidad : string) (tolerancia : Q) :
  2 # 1000000000 <= tolerancia ->
  let total := py_sum (map (peso_o_cero llave_peso) lista) in
  (Qabs (total - 1) <= tolerancia ->
     validar_pesos lista llave_peso nombre_entidad tolerancia
     = [LogInfo (msg_validados nombre_entidad)]) /\
  (tolerancia < Qabs (total - 1) ->
     validar_pesos lista llave_peso nombre_entidad tolerancia
     = [LogWarning (msg_integridad nombre_entidad)]) /\
  (lista = [] ->
     validar_pesos lista llave_peso nombre_entidad tolerancia
     = [LogWarning (msg_integridad nombre_entidad)] <-> tolerancia < 1).
Proof.
  intros Ht total.
  assert (Hok : Qabs (total - 1) <= tolerancia ->
     validar_pesos lista llave_peso nombre_entidad tolerancia
     = [LogInfo (msg_validados nombre_entidad)]).
  { intros Hc. unfold validar_pesos. fold total.
    apply (isclose_uno_tol total tolerancia Ht) in Hc. now rewrite Hc. }
  assert (Hko : tolerancia < Qabs (total - 1) ->
     validar_pesos lista llave_peso nombre_entidad tolerancia
     = [LogWarning (msg_integridad nombre_entidad)]).
  { intros Hc. unfold validar_pesos. fold total.
    destruct (isclose total 1 tolerancia) eqn:E; [| reflexivity].
    apply (isclose_uno_tol total tolerancia Ht) in E. lra. }
  split; [exact Hok | split; [exact Hko |]].
  intros ->. subst total.
  assert (E1 : Qabs (py_sum (map (peso_o_cero llave_peso) []) - 1) == 1) by reflexivity.
  split.
  - intros Hw. destruct (Qlt_le_dec tolerancia 1) as [Hlt | Hge]; [exact Hlt |].
    rewrite Hok in Hw by (rewrite E1; exact Hge). discriminate.
  - intros Hlt. apply Hko. rewrite E1. exact Hlt.
Qed.

Lemma validar_pesos_aviso_sii_fuera_de_tolerancia_witness :
  validar_pesos (items_de [1 # 2; 1 # 4]) col_peso "canales" tolerancia_defecto
  = [LogWarning (msg_integridad "canales")].
Proof.
  refine (proj1 (proj2 (validar_pesos_aviso_sii_fuera_de_tolerancia
            (items_de [1 # 2; 1 # 4]) col_peso "canales" tolerancia_defecto _)) _).
  - vm_compute. discriminate.
  - vm_compute. reflexivity.
Defined.



End PesosMas.

Section EsquemaMas.

Import Esquema.

Section EnforcerMas.

Variable cast_valores : DType -> DType -> list Valor -> option (list Valor).

Lemma flat_map_ext_en {A B : Type} (f g : A -> list B) (l : list A) :
  (forall x, In x l -> f x = g x) -> flat_map f l = flat_map g l.
Proof.
  induction l as [| x l IH]; intros Hext; [reflexivity |].
  cbn [flat_map]. rewrite (Hext x) by now left.
  rewrite IH; [reflexivity |]. intros y Hy. apply Hext. now right.
Qed.

Lemma dtype_eqb_eq (a b : DType) : dtype_eqb a b = true <-> a = b.
Proof. destruct a, b; simpl; split; intros E; congruence. Qed.

(** The column a schema entry leaves behind for an input column [c]. *)
Local Abbreviation convertida col t c :=
  (if dtype_eqb (dtype c) t then c
   else match cast_valores (dtype c) t (valores c) with
        | Some vs => {| nombre := col; dtype := t; valores := vs |}
        | None => c
        end).

(** The warnings a schema entry adds for an input frame [df]. *)
Local Abbreviation avisos_de df :=
  (fun e : string * DType =>
     match buscar_columna df (fst e) with
     | Some c =>
         if dtype_eqb (dtype c) (snd e) then []
         else match cast_valores (dtype c) (snd e) (valores c) with
              | Some _ => []
              | None => [LogWarning (msg_cast (fst e))]
              end
     | None => []
     end).

Lemma paso_columna_presente_valor vd df logs col t c :
  buscar_columna df col = Some c ->
  buscar_columna (fst (paso_columna cast_valores vd (df, logs) (col, t))) col
  = Some (convertida col t c) /\
  snd (paso_columna cast_valores vd (df, logs) (col, t))
  = (logs ++ avisos_de df (col, t))%list.
Proof.
  intros Hb. unfold paso_columna. cbn [fst snd].
  assert (Ht : tiene_columna df col = true).
  { apply tiene_columna_buscar. rewrite Hb. discriminate. }
  rewrite Ht, Hb. cbn [negb].
  destruct (dtype_eqb (dtype c) t); cbn [negb fst snd].
  - split; [exact Hb | now rewrite app_nil_r].
  - destruct (cast_valores (dtype c) t (valores c)) as [vs |]; cbn [fst snd].
    + split; [| now rewrite app_nil_r].
      pose proof (buscar_columna_reemplazar_misma df
                    {| nombre := col; dtype := t; valores := vs |}) as Hr.
      cbn [nombre] in Hr. apply Hr. rewrite Hb. discriminate.
    + split; [exact Hb | reflexivity].
Qed.

Lemma paso_columna_ausente_registro vd df logs col t :
  buscar_columna df col = None ->
  snd (paso_columna cast_valores vd (df, logs) (col, t))
  = (logs ++ avisos_de df (col, t))%list.
Proof.
  intros Hb. unfold paso_columna. cbn [fst snd].
  apply tiene_columna_false_buscar in Hb as Ht. rewrite Ht, Hb. cbn [negb snd].
  now rewrite app_nil_r.
Qed.

Lemma bucle_registro vd schema df logs :
  NoDup (map fst schema) ->
  snd (bucle_esquema cast_valores vd schema (df, logs))
  = (logs ++ flat_map (avisos_de df) schema)%list.
Proof.
  revert df logs. induction schema as [| [col t] schema IH]; intros df logs Hnd.
  - simpl. now rewrite app_nil_r.
  - cbn [map fst] in Hnd. inversion Hnd as [| ? ? Hni Hnd']; subst.
    rewrite bucle_cons.
    destruct (paso_columna cast_valores vd (df, logs) (col, t)) as [df1 logs1] eqn:Ep.
    rewrite IH by assumption.
    assert (Hl : logs1 = (logs ++ avisos_de df (col, t))%list).
    { replace logs1 with (snd (paso_columna cast_valores vd (df, logs) (col, t)))
        by now rewrite Ep.
      destruct (buscar_columna df col) as [c |] eqn:Eb.
      - pose proof (paso_columna_presente_valor vd df logs col t c Eb) as [_ Hs].
        rewrite Hs. cbn [fst snd]. now rewrite Eb.
      - rewrite (paso_columna_ausente_registro vd df logs col t Eb).
        cbn [fst snd]. now rewrite Eb. }
    rewrite Hl. cbn [flat_map]. rewrite <- app_assoc. f_equal. f_equal.
    apply flat_map_ext_en.
    intros [col' t'] Hin. cbn [fst snd].
    assert (Hne : col <> col').
    { intros E. subst col'. apply Hni. apply in_map_iff. exists (col, t'). auto. }
    replace df1 with (fst (paso_columna cast_valores vd (df, logs) (col, t)))
      by now rewrite Ep.
    now rewrite (paso_columna_otra cast_valores vd (df, logs) col t col' Hne).
Qed.

Lemma bucle_presente_valor vd schema df logs col t c :
  NoDup (map fst schema) -> In (col, t) schema ->
  buscar_columna df col = Some c ->
  buscar_columna (fst (bucle_esquema cast_valores vd schema (df, logs))) col
  = Some (convertida col t c).
Proof.
  revert df logs. induction schema as [| [col' t'] schema IH];
    intros df logs Hnd Hin Hb; cbn [map fst In] in *.
  - contradiction.
  - inversion Hnd as [| ? ? Hni Hnd']; subst.
    destruct Hin as [E | Hin].
    + inversion E; subst.
      rewrite bucle_cons, (bucle_otra cast_valores vd) by assumption.
      apply (paso_columna_presente_valor vd df logs col t c Hb).
    + assert (Hne : col' <> col).
      { intros E. subst col'. apply Hni. apply in_map_iff. exists (col, t). auto. }
      rewrite bucle_cons.
      destruct (paso_columna cast_valores vd (df, logs) (col', t')) as [df1 logs1] eqn:Ep.
      apply IH; auto.
      replace df1 with (fst (paso_columna cast_valores vd (df, logs) (col', t')))
        by now rewrite Ep.
      rewrite (paso_columna_otra cast_valores vd) by assumption. exact Hb.
Qed.

Lemma buscar_columna_unica df x :
  NoDup (columnas df) -> In x df -> buscar_columna df (nombre x) = Some x.
Proof.
  unfold buscar_columna, columnas.
  induction df as [| c df IH]; intros Hnd Hin; [contradiction |].
  cbn [map] in Hnd. inversion Hnd as [| ? ? Hni Hnd']; subst.
  simpl. destruct Hin as [-> | Hin].
  - now rewrite String.eqb_refl.
  - destruct (String.eqb (nombre c) (nombre x)) eqn:E.
    + apply String.eqb_eq in E. exfalso. apply Hni. rewrite E. now apply in_map.
    + now apply IH.
Qed.

Lemma seleccionar_propia df :
  NoDup (columnas df) -> seleccionar df (columnas df) = Some df.
Proof.
  intros Hnd.
  assert (Hgen : forall l, (forall x, In x l -> In x df) ->
                           seleccionar df (columnas l) = Some l).
  { induction l as [| x l IH]; intros Hsub; [reflexivity |].
    cbn [columnas map seleccionar]. fold (columnas l).
    rewrite (buscar_columna_unica df x Hnd) by (apply Hsub; now left).
    rewrite IH by (intros y Hy; apply Hsub; now right). reflexivity. }
  apply Hgen. auto.
Qed.

Lemma asegurar_columnas_forma vd df schema :
  NoDup (map fst schema) ->
  exists out,
    asegurar_columnas cast_valores df schema vd
    = (Some out, flat_map (avisos_de df) schema) /\
    columnas out = map fst schema /\
    forall col, In col (map fst schema) ->
      buscar_columna out col
      = buscar_columna (fst (bucle_esquema cast_valores vd schema (df, []))) col.
Proof.
  intros Hnd. unfold asegurar_columnas.
  pose proof (bucle_registro vd schema df [] Hnd) as Hlog.
  destruct (bucle_esquema cast_valores vd schema (df, [])) as [df' logs] eqn:Eb.
  cbn [fst snd app] in *.
  assert (Hall : forall c, In c (map fst schema) -> buscar_columna df' c <> None).
  { intros c Hc.
    replace df' with (fst (bucle_esquema cast_valores vd schema (df, [])))
      by now rewrite Eb.
    now apply bucle_presente. }
  rewrite filter_todas.
  2:{ intros c Hc. apply tiene_columna_buscar. now apply Hall. }
  destruct (seleccionar_todas df' (map fst schema) Hall) as (out & Hs & Hc & Hi & _).
  exists out. rewrite Hs, Hlog.
  split; [reflexivity |]. split; [exact Hc |].
  intros col Hin. destruct (Hi col Hin) as (x & Hx & Hxin).
  rewrite Hx. rewrite <- (buscar_columna_nombre df' col x Hx).
  apply buscar_columna_unica; [now rewrite Hc | exact Hxin].
Qed.

(** X5. A schema column the input frame already has. With distinct schema
    names the output carries, under that name, the input column itself when
    its type is the schema's, the converted cells with the schema's type
    when the cast succeeds, and the input column unchanged (so of a type
    other than the schema's) when the cast raises, in which case the log
    holds the warning for that column. *)
Theorem asegurar_columnas_columna_presente
        (df : DataFrame) (schema : Schema) (valores_defecto : Dict Valor)
        (col : string) (t : DType) (c : Columna) :
  NoDup (map fst schema) ->
  In (col, t) schema ->
  buscar_columna df col = Some c ->
  exists out,
    fst (asegurar_columnas cast_valores df schema valores_defecto) = Some out /\
    (dtype c = t -> buscar_columna out col = Some c) /\
    (forall vs, dtype c <> t -> cast_valores (dtype c) t (valores c) = Some vs ->
       buscar_columna out col = Some {| nombre := col; dtype := t; valores := vs |}) /\
    (dtype c <> t -> cast_valores (dtype c) t (valores c) = None ->
       buscar_columna out col = Some c /\
       In (LogWarning (msg_cast col))
          (snd (asegurar_columnas cast_valores df schema valores_defecto))).
Proof.
  intros Hnd Hin Hb.
  destruct (asegurar_columnas_forma valores_defecto df schema Hnd) as (out & E & _ & Hcol).
  exists out. rewrite E. cbn [fst snd].
  assert (Hk : In col (map fst schema)).
  { apply in_map_iff. exists (col, t). auto. }
  pose proof (Hcol col Hk) as Hv.
  rewrite (bucle_presente_valor valores_defecto schema df [] col t c Hnd Hin Hb) in Hv.
  split; [reflexivity |]. split; [| split].
  - intros Ht. apply dtype_eqb_eq in Ht. now rewrite Ht in Hv.
  - intros vs Ht Hcast.
    destruct (dtype_eqb (dtype c) t) eqn:Ed; [apply dtype_eqb_eq in Ed; contradiction |].
    now rewrite Hcast in Hv.
  - intros Ht Hcast.
    destruct (dtype_eqb (dtype c) t) eqn:Ed; [apply dtype_eqb_eq in Ed; contradiction |].
    rewrite Hcast in Hv. split; [exact Hv |].
    apply in_flat_map. exists (col, t). split; [exact Hin |].
    cbn [fst snd]. rewrite Hb, Ed, Hcast. now left.
Qed.

(** X6. The log of the enforcer, for distinct schema names: one warning
    per schema column that the input has with another type and whose cast
    raises, in schema order, and nothing else; no record at all when every
    such cast succeeds. *)
Theorem asegurar_columnas_avisos
        (df : DataFrame) (schema : Schema) (valores_defecto : Dict Valor) :
  NoDup (map fst schema) ->
  snd (asegurar_columnas cast_valores df schema valores_defecto)
  = flat_map (fun e : string * DType =>
                match buscar_columna df (fst e) with
                | Some c =>
                    if dtype_eqb (dtype c) (snd e) then []
                    else match cast_valores (dtype c) (snd e) (valores c) with
                         | Some _ => []
                         | None => [LogWarning (msg_cast (fst e))]
                         end
                | None => []
                end) schema /\
  ((forall col t c, In (col, t) schema -> buscar_columna df col = Some c ->
      dtype c = t \/ cast_valores (dtype c) t (valores c) <> None) ->
   snd (asegurar_columnas cast_valores df schema valores_defecto) = []).
Proof.
  intros Hnd.
  destruct (asegurar_columnas_forma valores_defecto df schema Hnd) as (out & E & _ & _).
  rewrite E. cbn [snd]. split; [reflexivity |].
  intros Hok. clear E.
  induction schema as [| [col t] schema IH]; [reflexivity |].
  cbn [flat_map fst snd].
  cbn [map fst] in Hnd. inversion Hnd as [| ? ? _ Hnd']; subst.
  rewrite IH; [| assumption | intros col' t' c' Hin; apply Hok; now right].
  rewrite app_nil_r.
  destruct (buscar_columna df col) as [c |] eqn:Eb; [| reflexivity].
  destruct (Hok col t c (or_introl eq_refl) Eb) as [Ht | Hc].
  - apply dtype_eqb_eq in Ht. now rewrite Ht.
  - destruct (dtype_eqb (dtype c) t); [reflexivity |].
    destruct (cast_valores (dtype c) t (valores c)); [reflexivity | congruence].
Qed.

Lemma bucle_punto_fijo vd schema out logs :
  (forall col t, In (col, t) schema ->
     exists c, buscar_columna out col = Some c /\
               (dtype c = t \/ cast_valores (dtype c) t (valores c) = None)) ->
  fst (bucle_esquema cast_valores vd schema (out, logs)) = out.
Proof.
  revert logs. induction schema as [| [col t] schema IH]; intros logs Hinv; [reflexivity |].
  rewrite bucle_cons.
  destruct (Hinv col t (or_introl eq_refl)) as (c & Hb & Hc).
  assert (Hp : fst (paso_columna cast_valores vd (out, logs) (col, t)) = out).
  { unfold paso_columna.
    assert (Ht : tiene_columna out col = true).
    { apply tiene_columna_buscar. rewrite Hb. discriminate. }
    rewrite Ht, Hb. cbn [negb].
    destruct (dtype_eqb (dtype c) t) eqn:Ed; [reflexivity |].
    destruct Hc as [Hc | Hc]; [apply dtype_eqb_eq in Hc; congruence |].
    now rewrite Hc. }
  destruct (paso_columna cast_valores vd (out, logs) (col, t)) as [df1 logs1].
  cbn [fst] in Hp. subst df1.
  apply IH. intros col' t' Hin. apply Hinv. now right.
Qed.

(** X7. The enforcer is idempotent on frames: applied to its own output
    with the same schema (and any defaults) it returns that output
    again. *)
Theorem asegurar_columnas_idempotente
        (df : DataFrame) (schema : Schema) (vd vd' : Dict Valor) (out : DataFrame) :
  NoDup (map fst schema) ->
  fst (asegurar_columnas cast_valores df schema vd) = Some out ->
  fst (asegurar_columnas cast_valores out schema vd') = Some out.
Proof.
  intros Hnd E1.
  destruct (asegurar_columnas_forma vd df schema Hnd) as (out0 & E & Hc & Hcol).
  rewrite E in E1. cbn [fst] in E1. inversion E1; subst out0. clear E1.
  assert (Hinv : forall col t, In (col, t) schema ->
     exists c, buscar_columna out col = Some c /\
               (dtype c = t \/ cast_valores (dtype c) t (valores c) = None)).
  { intros col t Hin.
    assert (Hk : In col (map fst schema)).
    { apply in_map_iff. exists (col, t). auto. }
    rewrite (Hcol col Hk).
    destruct (buscar_columna df col) as [c |] eqn:Eb.
    - rewrite (bucle_presente_valor vd schema df [] col t c Hnd Hin Eb).
      eexists. split; [reflexivity |].
      destruct (dtype_eqb (dtype c) t) eqn:Ed.
      + left. now apply dtype_eqb_eq.
      + destruct (cast_valores (dtype c) t (valores c)) eqn:Ecast.
        * left. reflexivity.
        * right. exact Ecast.
    - destruct (bucle_ausente cast_valores vd schema df [] col t Hnd Hin Eb) as [k Hk'].
      rewrite Hk'. eexists. split; [reflexivity |]. left. reflexivity. }
  unfold asegurar_columnas.
  pose proof (bucle_punto_fijo vd' schema out [] Hinv) as Hfix.
  destruct (bucle_esquema cast_valores vd' schema (out, [])) as [df' logs'].
  cbn [fst] in *. subst df'.
  rewrite filter_todas.
  2:{ intros c Hin. apply tiene_columna_buscar.
      apply in_map_iff in Hin. destruct Hin as ([col t] & <- & Hin).
      destruct (Hinv col t Hin) as (x & Hx & _). cbn [fst]. rewrite Hx. discriminate. }
  rewrite <- Hc. apply seleccionar_propia. now rewrite Hc.
Qed.

End EnforcerMas.

End EsquemaMas.

Section FiscalFacts.

Import Tiempo Fiscal.
Local Open Scope Z_scope.

Lemma mes_fiscal_rango (m : Z) : 1 <= m <= 12 -> 1 <= mes_fiscal m <= 12.
Proof. intros Hm. unfold mes_fiscal. destruct (Z.geb_spec m 7); lia. Qed.

Lemma trimestre_fiscal_div (mf : Z) :
  1 <= mf <= 12 -> trimestre_fiscal mf = (mf - 1) / 3 + 1.
Proof.
  intros Hm.
  assert (Hc : mf = 1 \/ mf = 2 \/ mf = 3 \/ mf = 4 \/ mf = 5 \/ mf = 6 \/
               mf = 7 \/ mf = 8 \/ mf = 9 \/ mf = 10 \/ mf = 11 \/ mf = 12) by lia.
  repeat (destruct Hc as [-> | Hc]; [reflexivity |]). subst mf. reflexivity.
Qed.

(** X8. Fiscal calendar of DimTiempo (fiscal year from July). For calendar
    months 1..12 the fiscal month lies in 1..12, the calendar month and year
    are recovered from the fiscal ones, the fiscal quarter is
    [(fiscal month - 1) / 3 + 1] and lies in 1..4, and chronological order
    of (year, month) is the same as the order of (fiscal year, fiscal
    month). *)
Theorem calendario_fiscal_ordenado (a m a' m' : Z) :
  1 <= m <= 12 -> 1 <= m' <= 12 ->
  let af := anio_fiscal a m in
  let mf := mes_fiscal m in
  1 <= mf <= 12 /\
  m = (if mf <=? 6 then mf + 6 else mf - 6) /\
  a = (if mf <=? 6 then af else af + 1) /\
  trimestre_fiscal mf = (mf - 1) / 3 + 1 /\
  1 <= trimestre_fiscal mf <= 4 /\
  (antes_ym a m a' m' <->
   antes_ym af mf (anio_fiscal a' m') (mes_fiscal m')).
Proof.
  intros Hm Hm' af mf.
  pose proof (mes_fiscal_rango m Hm) as Hr. fold mf in Hr.
  pose proof (trimestre_fiscal_div mf Hr) as Ht.
  split; [exact Hr |].
  split; [| split; [| split; [exact Ht | split]]].
  - subst mf. unfold mes_fiscal. destruct (Z.geb_spec m 7).
    + destruct (Z.leb_spec (m - 6) 6); lia.
    + destruct (Z.leb_spec (m + 6) 6); lia.
  - subst af mf. unfold mes_fiscal, anio_fiscal. destruct (Z.geb_spec m 7).
    + destruct (Z.leb_spec (m - 6) 6); lia.
    + destruct (Z.leb_spec (m + 6) 6); lia.
  - rewrite Ht.
    assert (0 <= (mf - 1) / 3 <= 3); [| lia].
    split; [apply Z.div_pos; lia |].
    apply Z.lt_succ_r. apply Z.div_lt_upper_bound; lia.
  - subst af mf. unfold antes_ym, mes_fiscal, anio_fiscal.
    destruct (Z.geb_spec m 7), (Z.geb_spec m' 7); lia.
Qed.

Lemma calendario_fiscal_ordenado_witness :
  antes_ym 2023 6 2023 7 /\
  antes_ym (anio_fiscal 2023 6) (mes_fiscal 6) (anio_fiscal 2023 7) (mes_fiscal 7) /\
  (anio_fiscal 2023 6, mes_fiscal 6, anio_fiscal 2023 7, mes_fiscal 7)
  = (2022, 12, 2023, 1).
Proof.
  assert (H : antes_ym 2023 6 2023 7) by (right; lia).
  split; [exact H |]. split; [| reflexivity].
  refine (proj1 (proj2 (proj2 (proj2 (proj2 (proj2
            (calendario_fiscal_ordenado 2023 6 2023 7 _ _)))))) H); lia.
Defined.

(** X9. The date key [ID_Tiempo] (the digits of yyyymmdd). For dates with
    year 1..9999, month 1..12, day 1..31: year, month and day are read back
    from the key by division, the key fits a 32-bit integer, keys compare
    as the dates do, and two dates with the same key are the same date. *)
Theorem id_tiempo_clave_ordenada (f g : Fecha) :
  fecha_en_rango f -> fecha_en_rango g ->
  anio f = id_tiempo f / 10000 /\
  mes f = (id_tiempo f / 100) mod 100 /\
  dia f = id_tiempo f mod 100 /\
  10101 <= id_tiempo f <= 99991231 /\
  (id_tiempo f < id_tiempo g <->
   anio f < anio g \/
   (anio f = anio g /\ (mes f < mes g \/ (mes f = mes g /\ dia f < dia g)))) /\
  (id_tiempo f = id_tiempo g -> f = g).
Proof.
  destruct f as [a m d], g as [a' m' d'].
  unfold fecha_en_rango, id_tiempo. cbn [anio mes dia].
  intros (Ha & Hm & Hd) (Ha' & Hm' & Hd').
  assert (E1 : (a * 10000 + m * 100 + d) / 10000 = a).
  { replace (a * 10000 + m * 100 + d) with ((m * 100 + d) + a * 10000) by ring.
    rewrite Z.div_add by lia. rewrite Z.div_small by lia. lia. }
  assert (E2 : (a * 10000 + m * 100 + d) / 100 = a * 100 + m).
  { replace (a * 10000 + m * 100 + d) with (d + (a * 100 + m) * 100) by ring.
    rewrite Z.div_add by lia. rewrite Z.div_small by lia. lia. }
  assert (E3 : (a * 10000 + m * 100 + d) mod 100 = d).
  { replace (a * 10000 + m * 100 + d) with (d + (a * 100 + m) * 100) by ring.
    rewrite Z.mod_add by lia. apply Z.mod_small. lia. }
  assert (E4 : (a * 100 + m) mod 100 = m).
  { replace (a * 100 + m) with (m + a * 100) by ring.
    rewrite Z.mod_add by lia. apply Z.mod_small. lia. }
  rewrite E1, E2, E3, E4.
  repeat split; try lia.
  intros E. f_equal; lia.
Qed.

Lemma id_tiempo_clave_ordenada_witness :
  id_tiempo (F 2024 2 29) = 20240229 /\
  (id_tiempo (F 2024 2 29) < id_tiempo (F 2024 3 1) <->
   2024 < 2024 \/ (2024 = 2024 /\ (2 < 3 \/ (2 = 3 /\ 29 < 1)))).
Proof.
  split; [reflexivity |].
  refine (proj1 (proj2 (proj2 (proj2 (proj2
            (id_tiempo_clave_ordenada (F 2024 2 29) (F 2024 3 1) _ _)))))).
  - unfold fecha_en_rango; cbn; lia.
  - unfold fecha_en_rango; cbn; lia.
Defined.

End FiscalFacts.

Section ClientesMas.

Import Clientes.
Local Open Scope nat_scope.

Lemma py_sum_repeat (c : Q) (n : nat) :
  (py_sum (repeat c n) == inject_Z (Z.of_nat n) * c)%Q.
Proof.
  induction n as [| n IH]; [reflexivity |].
  cbn [repeat]. rewrite py_sum_cons, IH.
  rewrite Nat2Z.inj_succ. unfold Z.succ. rewrite inject_Z_plus. ring.
Qed.

Lemma Qltb_true (a b : Q) : Qltb a b = true <-> (a < b)%Q.
Proof.
  unfold Qltb. destruct (Qlt_le_dec a b) as [Hl | Hg]; split; intros Hx; auto.
  - discriminate.
  - exfalso. apply (Qlt_not_le a b); assumption.
Qed.

Lemma forallb_no_negativos (p : list Q) :
  forallb (Qle_bool 0) p = true <-> Forall (fun x => (0 <= x)%Q) p.
Proof.
  rewrite forallb_forall, Forall_forall.
  split; intros Hx x Hin.
  - apply Qle_bool_iff. auto.
  - apply Qle_bool_iff. auto.
Qed.

Lemma p_valida_partes (n : nat) (p : list Q) :
  p_valida n p = true <->
  0 < n /\ List.length p = n /\ Forall (fun x => (0 <= x)%Q) p /\ (py_sum p == 1)%Q.
Proof.
  unfold p_valida. rewrite !andb_true_iff, Nat.ltb_lt, Nat.eqb_eq,
    forallb_no_negativos, Qeq_bool_iff. tauto.
Qed.

(** X10. The sampling weights of the customer generator ([w / w.sum()], or
    uniform weights when the sum is not positive) keep the length of [w],
    and pass numpy's checks on a probability vector exactly when [w] is not
    empty and, if its sum is positive, none of its entries is negative. *)
Theorem normalizar_array_valida (w : list Q) :
  List.length (normalizar_array w) = List.length w /\
  (p_valida (List.length w) (normalizar_array w) = true <->
   w <> [] /\ ((0 < py_sum w)%Q -> Forall (fun x => (0 <= x)%Q) w)).
Proof.
  assert (Hlen : List.length (normalizar_array w) = List.length w).
  { unfold normalizar_array. destruct (Qltb 0 (py_sum w)).
    - apply length_map.
    - apply repeat_length. }
  split; [exact Hlen |].
  rewrite p_valida_partes. split.
  - intros (Hn & _ & Hf & _). split.
    + intros ->. simpl in Hn. lia.
    + intros Hpos. unfold normalizar_array in Hf.
      apply Qltb_true in Hpos as Hb. rewrite Hb in Hf.
      rewrite Forall_forall in *. intros x Hin.
      specialize (Hf (x / py_sum w)%Q (in_map _ _ _ Hin)). cbv beta in Hf.
      assert (E : (x == x / py_sum w * py_sum w)%Q) by (field; lra).
      rewrite E. apply Qmult_le_0_compat; lra.
  - intros (Hne & Hpos).
    assert (Hn : 0 < List.length w) by (destruct w; simpl; [congruence | lia]).
    split; [exact Hn |]. split; [exact Hlen |].
    unfold normalizar_array.
    destruct (Qltb 0 (py_sum w)) eqn:Eb.
    + apply Qltb_true in Eb. specialize (Hpos Eb). split.
      * rewrite Forall_forall in *. intros y Hy.
        apply in_map_iff in Hy. destruct Hy as (x & <- & Hx).
        apply Qle_shift_div_l; [exact Eb |]. specialize (Hpos x Hx). lra.
      * rewrite py_sum_div. field. lra.
    + assert (Hq : (0 < inject_Z (Z.of_nat (List.length w)))%Q).
      { change 0%Q with (inject_Z 0). rewrite <- Zlt_Qlt. lia. }
      split.
      * apply Forall_forall. intros y Hy. apply repeat_spec in Hy. subst y.
        apply Qle_shift_div_l; [exact Hq | lra].
      * rewrite py_sum_repeat. field. lra.
Qed.

Section Corridas.

Context `{Azar} `{!AzarLegal}.
Variable cfg : Config.
Variable df_geo : list Geografia.
Variable df_canal : list Canal.

Local Abbreviation clientes := (clientes_activos_historicos).

Lemma objetivo_alcanzado i ano target st st' :
  objetivo cfg ano = Some target ->
  paso_anual cfg df_geo df_canal i ano st = Some st' ->
  (target <= Z.of_nat (contar_activos (clientes st')))%Z.
Proof.
  intros Ho E. unfold paso_anual in E. rewrite Ho in E.
  apply paso_crecimiento_spec in E. destruct E as (nuevos & Hcl & Hlen & Hnew & _).
  rewrite Hcl, contar_activos_app, (contar_activos_todos nuevos).
  - rewrite Hlen. unfold num_nuevos. lia.
  - eapply Forall_impl; [| exact Hnew]. intros c [Ha _]. exact Ha.
Qed.

Lemma bucle_anos_app a b : forall i st,
  bucle_anos cfg df_geo df_canal i (a ++ b) st
  = match bucle_anos cfg df_geo df_canal i a st with
    | Some st1 => bucle_anos cfg df_geo df_canal (i + List.length a) b st1
    | None => None
    end.
Proof.
  induction a as [| ano a IH]; intros i st; simpl.
  - now rewrite Nat.add_0_r.
  - destruct (paso_anual cfg df_geo df_canal i ano st) as [st1 |]; [| reflexivity].
    rewrite IH. now rewrite Nat.add_succ_r.
Qed.

Lemma bucle_anos_sin_objetivo anos : forall i st,
  (exists ano, In ano anos /\ objetivo cfg ano = None) ->
  bucle_anos cfg df_geo df_canal i anos st = None.
Proof.
  induction anos as [| a anos IH]; intros i st (ano & Hin & Ho).
  - contradiction.
  - cbn [bucle_anos]. destruct Hin as [-> | Hin].
    + unfold paso_anual. now rewrite Ho.
    + destruct (paso_anual cfg df_geo df_canal i a st) as [st1 |]; [| reflexivity].
      apply IH. exists ano. auto.
Qed.

Lemma nuevo_cliente_sin_tablas ano st :
  df_geo = [] \/ df_canal = [] ->
  nuevo_cliente cfg df_geo df_canal ano st = None.
Proof.
  intros Hv. unfold nuevo_cliente.
  destruct Hv as [Hg | Hc].
  - unfold rng_choice_p at 1, ids_geo. rewrite Hg. reflexivity.
  - destruct (rng_choice_p (ids_geo df_geo) (pesos_geo df_geo) (rng st))
      as [[geo g1] |]; [| reflexivity].
    unfold rng_choice_p at 1. rewrite Hc. reflexivity.
Qed.

(** X11. Outcome of the customer simulation. With sampling inputs that
    pass numpy's checks and a target for every simulated year it returns a
    table whose active rows reach the target of the last year; a simulated
    year without a target makes it raise (the [KeyError]); and an empty
    geography or channel table makes it raise as soon as the first year
    asks for a customer. *)
Theorem generar_dim_cliente_masiva_termina_o_falla (r : PyRand) (f : FakerSt) :
  (muestreo_valido cfg df_geo df_canal = true ->
   (forall ano, In ano (ANOS_SIMULACION cfg) -> objetivo cfg ano <> None) ->
   exists tabla,
     generar_dim_cliente_masiva cfg df_geo df_canal r f = Some tabla /\
     forall anos ultimo target,
       ANOS_SIMULACION cfg = (anos ++ [ultimo])%list ->
       objetivo cfg ultimo = Some target ->
       (target <= Z.of_nat (contar_activos tabla))%Z) /\
  ((exists ano, In ano (ANOS_SIMULACION cfg) /\ objetivo cfg ano = None) ->
   generar_dim_cliente_masiva cfg df_geo df_canal r f = None) /\
  (df_geo = [] \/ df_canal = [] ->
   forall ano resto target,
     ANOS_SIMULACION cfg = ano :: resto ->
     objetivo cfg ano = Some target -> (0 < target)%Z ->
     generar_dim_cliente_masiva cfg df_geo df_canal r f = None).
Proof.
  split; [| split].
  - intros Hval Hobj. unfold generar_dim_cliente_masiva.
    destruct (bucle_anos_ok cfg df_geo df_canal Hval (ANOS_SIMULACION cfg) 0
                (estado_inicial cfg r f) Hobj) as [st' E].
    rewrite E. exists (clientes st'). split; [reflexivity |].
    intros anos ultimo target Ha Ho.
    rewrite Ha, bucle_anos_app in E.
    destruct (bucle_anos cfg df_geo df_canal 0 anos (estado_inicial cfg r f))
      as [st1 |]; [| discriminate].
    cbn [bucle_anos] in E.
    destruct (paso_anual cfg df_geo df_canal (0 + List.length anos) ultimo st1)
      as [st2 |] eqn:Ep; [| discriminate].
    inversion E; subst st2.
    eapply objetivo_alcanzado; eauto.
  - intros Hex. unfold generar_dim_cliente_masiva.
    now rewrite (bucle_anos_sin_objetivo (ANOS_SIMULACION cfg) 0 (estado_inicial cfg r f) Hex).
  - intros Hv ano resto target Ha Ho Hpos. unfold generar_dim_cliente_masiva.
    rewrite Ha. cbn [bucle_anos]. unfold paso_anual. rewrite Ho.
    rewrite paso_churn_primer_ano. unfold paso_crecimiento.
    assert (Hn : num_nuevos target (clientes (estado_inicial cfg r f)) = Z.to_nat target).
    { unfold num_nuevos, estado_inicial. cbn. f_equal. lia. }
    rewrite Hn.
    destruct (Z.to_nat target) as [| k] eqn:Ek; [lia |].
    cbn [Nat.ltb Nat.leb crecer].
    now rewrite (nuevo_cliente_sin_tablas ano (estado_inicial cfg r f) Hv).
Qed.

Local Abbreviation fila_bien_formada validos :=
  (Integridad.cliente_bien_formado validos df_geo df_canal).

Lemma elegir_segmento_cluster nombre g seg clu g' :
  elegir_segmento cfg nombre g = Some (seg, clu, g') ->
  if (String.eqb seg "A" || String.eqb seg "B")%bool
  then In clu [1; 2]%Z else In clu [3; 4]%Z.
Proof.
  unfold elegir_segmento.
  destruct (dict_get (PESO_SEGMENTACION_CANAL cfg) nombre) as [[| kv ps] |].
  - intros E. inversion E; subst. simpl. auto.
  - destruct (rng_choice_p _ _ g) as [[seg0 g1] |]; [| discriminate].
    destruct (String.eqb seg0 "A" || String.eqb seg0 "B")%bool eqn:Eab.
    + destruct (rng_choice_p [1; 2]%Z _ g1) as [[c g2] |] eqn:E2; [| discriminate].
      intros E. inversion E; subst. rewrite Eab.
      eapply rng_choice_p_In. exact E2.
    + destruct (rng_choice_p [3; 4]%Z _ g1) as [[c g2] |] eqn:E2; [| discriminate].
      intros E. inversion E; subst. rewrite Eab.
      eapply rng_choice_p_In. exact E2.
  - intros E. inversion E; subst. simpl. auto.
Qed.

Lemma nuevo_cliente_fila ano st c st' :
  nuevo_cliente cfg df_geo df_canal ano st = Some (c, st') ->
  fila_bien_formada (fun a => a = ano) c.
Proof.
  unfold nuevo_cliente. intros E.
  destruct (rng_choice_p (ids_geo df_geo) (pesos_geo df_geo) (rng st))
    as [[geo g1] |] eqn:Eg; [| discriminate].
  destruct (rng_choice_p (seq 0 (List.length df_canal)) (pesos_canal_global df_canal) g1)
    as [[idx g2] |]; [| discriminate].
  destruct (nth_error df_canal idx) as [canal |] eqn:En; [| discriminate].
  destruct (elegir_segmento cfg (Nombre_Canal canal) g2) as [[[seg clu] g3] |] eqn:Es;
    [| discriminate].
  pose proof (py_randint_range 1 12 (rnd st) ltac:(lia)) as Hm.
  destruct (py_randint 1 12 (rnd st)) as [m r1].
  pose proof (py_randint_range 1 28 r1 ltac:(lia)) as Hd.
  destruct (py_randint 1 28 r1) as [d r2].
  destruct (py_random r2) as [u r3].
  destruct (if Qltb u (7 # 10) then faker_company (fk st) else faker_name (fk st))
    as [nombre f1].
  destruct (np_uniform 18 (198 # 10) g3) as [lat g4].
  destruct (np_uniform (- (715 # 10)) (- (685 # 10)) g4) as [lon g5].
  inversion E; subst. cbn [fst] in Hm, Hd.
  apply rng_choice_p_In in Eg. apply nth_error_In in En.
  apply elegir_segmento_cluster in Es.
  unfold Integridad.cliente_bien_formado. cbn.
  repeat split; try lia; auto.
  now apply in_map.
Qed.

Lemma crecer_filas (P : Cliente -> Prop) ano :
  (forall st c st', nuevo_cliente cfg df_geo df_canal ano st = Some (c, st') -> P c) ->
  forall k st cs st',
    crecer cfg df_geo df_canal ano k st = Some (cs, st') -> Forall P cs.
Proof.
  intros HP. induction k as [| k IH]; intros st cs st' E; simpl in E.
  - inversion E; subst. constructor.
  - destruct (nuevo_cliente cfg df_geo df_canal ano st) as [[c st1] |] eqn:En;
      [| discriminate].
    destruct (crecer cfg df_geo df_canal ano k st1) as [[resto st2] |] eqn:Ec;
      [| discriminate].
    inversion E; subst; clear E. constructor; eauto.
Qed.

Lemma paso_anual_filas (P : Cliente -> Prop) i ano st st' :
  (forall c, P c -> P (desactivar c)) ->
  (forall st0 c st1, nuevo_cliente cfg df_geo df_canal ano st0 = Some (c, st1) -> P c) ->
  Forall P (clientes st) ->
  paso_anual cfg df_geo df_canal i ano st = Some st' ->
  Forall P (clientes st').
Proof.
  intros Hd Hn Hst E. unfold paso_anual in E.
  destruct (objetivo cfg ano) as [target |]; [| discriminate].
  assert (Hch : Forall P (clientes (paso_churn cfg i ano st))).
  { destruct (paso_churn_cambio cfg i ano st) as [H2 _].
    revert Hst. induction H2 as [| c c' l l' Hc Hl IH]; intros Hst; constructor.
    - inversion Hst; subst. destruct Hc as [-> | [_ ->]]; auto.
    - inversion Hst; subst. auto. }
  unfold paso_crecimiento in E.
  destruct (0 <? num_nuevos target (clientes (paso_churn cfg i ano st))).
  - destruct (crecer cfg df_geo df_canal ano _ (paso_churn cfg i ano st))
      as [[nuevos st1] |] eqn:Ec; [| discriminate].
    inversion E; subst; clear E. cbn [clientes_activos_historicos].
    apply Forall_app. split.
    + apply crecer_spec in Ec. destruct Ec as (_ & _ & _ & _ & Hcl).
      rewrite Hcl. exact Hch.
    + eapply crecer_filas; eauto.
  - inversion E; subst. exact Hch.
Qed.

Lemma bucle_anos_filas (validos : Z -> Prop) anos : forall i st st',
  (forall a, In a anos -> validos a) ->
  Forall (fila_bien_formada validos) (clientes st) ->
  bucle_anos cfg df_geo df_canal i anos st = Some st' ->
  Forall (fila_bien_formada validos) (clientes st').
Proof.
  induction anos as [| ano anos IH]; intros i st st' Hv Hst E; cbn [bucle_anos] in E.
  - inversion E; subst. exact Hst.
  - destruct (paso_anual cfg df_geo df_canal i ano st) as [st1 |] eqn:Ep; [| discriminate].
    apply (IH (S i) st1 st'); [intros a Ha; apply Hv; now right | | exact E].
    apply (paso_anual_filas (fila_bien_formada validos) i ano st st1);
      [| | exact Hst | exact Ep].
    + intros c Hc. exact Hc.
    + intros st0 c st2 En. apply nuevo_cliente_fila in En.
      destruct En as (H1 & H2 & H3 & H4). split; [exact H1 |]. split; [exact H2 |].
      split; [| exact H4]. rewrite H3. apply Hv. now left.
Qed.

(** X12. Every row of the customer table, rows deactivated by churn
    included, refers to a province of the geography table and a channel of
    the channel table, was created in a simulated year, has a sign-up date
    in its creation year with month 1..12 and day 1..28, and has cluster 1
    or 2 when its segment is A or B and cluster 3 or 4 otherwise. *)
Theorem clientes_bien_formados (r : PyRand) (f : FakerSt) (tabla : list Cliente) :
  generar_dim_cliente_masiva cfg df_geo df_canal r f = Some tabla ->
  Forall (Integridad.cliente_bien_formado
            (fun a => In a (ANOS_SIMULACION cfg)) df_geo df_canal) tabla.
Proof.
  unfold generar_dim_cliente_masiva. intros E.
  destruct (bucle_anos cfg df_geo df_canal 0 (ANOS_SIMULACION cfg) (estado_inicial cfg r f))
    as [st' |] eqn:Eb; [| discriminate].
  inversion E; subst tabla.
  apply (bucle_anos_filas (fun a => In a (ANOS_SIMULACION cfg))
           (ANOS_SIMULACION cfg) 0 (estado_inicial cfg r f) st'); auto.
Qed.

End Corridas.

End ClientesMas.

Section FlotaMas0.

Import Flota Integridad.
Local Open Scope Z_scope.

Lemma id_vehiculo_inyectiva (n m : nat) : id_vehiculo n = id_vehiculo m -> n = m.
Proof.
  unfold id_vehiculo. simpl. intros E.
  injection E as E. now apply zfill_inyectiva in E.
Qed.

Lemma NoDup_ids_consecutivos (f : nat -> string) (a k : nat) :
  (forall n m, f n = f m -> n = m) -> NoDup (map f (seq a k)).
Proof.
  intros Hinj. apply NoDup_map_inyectiva; [exact Hinj | apply seq_NoDup].
Qed.

Section FlotaMas.

Context `{Azar} `{!AzarLegal}.

Lemma rng_choice_ok {A : Type} (a : list A) (g : NpGen) :
  a <> [] -> exists x g', rng_choice a g = Some (x, g') /\ In x a.
Proof.
  intros Ha. unfold rng_choice. destruct a as [| a0 a]; [congruence |].
  pose proof (np_choice_unif_lt (List.length (a0 :: a)) g) as Hi.
  destruct (np_choice_unif (List.length (a0 :: a)) g) as [i g'].
  specialize (Hi ltac:(simpl; lia)). cbn [fst] in Hi.
  destruct (nth_error (a0 :: a) i) as [x |] eqn:Ex.
  - exists x, g'. split; auto. eapply nth_error_In; eauto.
  - apply nth_error_None in Ex. lia.
Qed.

Lemma rng_integers_rango lo hi g x g' :
  rng_integers lo hi g = Some (x, g') -> lo <= x < hi.
Proof.
  unfold rng_integers. destruct (Z.ltb_spec lo hi) as [Hlt | Hge]; [| discriminate].
  intros E. pose proof (np_integers_range lo hi g Hlt) as Hr.
  destruct (np_integers lo hi g) as [v g1]. cbn [fst] in Hr.
  inversion E; subst. exact Hr.
Qed.

Lemma rng_integers_ok lo hi g :
  lo < hi -> exists x g', rng_integers lo hi g = Some (x, g').
Proof.
  intros Hlt. unfold rng_integers.
  destruct (Z.ltb_spec lo hi) as [_ | Hge]; [| lia].
  destruct (np_integers lo hi g) as [v g1]. eauto.
Qed.

Lemma pesos_tipo_validos ep :
  p_valida (List.length TIPOS_VEHICULOS) (pesos_tipo ep) = true.
Proof. destruct ep; vm_compute; reflexivity. Qed.

(** What one turn of the inner loop puts in the row. *)
Lemma nuevo_vehiculo_fila hoy cedi_id ep cons g v g' :
  nuevo_vehiculo hoy cedi_id ep cons g = Some (v, g') ->
  ID_Vehiculo v = id_vehiculo cons /\
  CEDI_Asignado_ID v = cedi_id /\
  forall df_cedis, In cedi_id (map CEDI_ID df_cedis) ->
                   vehiculo_bien_formado hoy df_cedis v.
Proof.
  unfold nuevo_vehiculo.
  destruct (rng_choice_p TIPOS_VEHICULOS (pesos_tipo ep) g) as [[tipo ga] |] eqn:Et;
    [| discriminate].
  destruct (rng_choice ["A"; "B"; "C"; "D"; "L"]%string ga) as [[letra gb] |];
    [| discriminate].
  destruct (rng_integers 100000 999999 gb) as [[nums gc] |]; [| discriminate].
  destruct (rng_integers 2015 2023 gc) as [[anho gd] |] eqn:Ea; [| discriminate].
  destruct (kilometraje_actual hoy anho gd) as [[km ge] |] eqn:Ek; [| discriminate].
  destruct (rng_choice_p _ _ ge) as [[estado gf] |] eqn:Ee; [| discriminate].
  destruct (rng_choice _ gf) as [[gps gg] |]; [| discriminate].
  destruct (np_uniform _ _ gg) as [val gh].
  intros E. inversion E; subst; clear E.
  apply rng_choice_p_In in Et. apply rng_choice_p_In in Ee.
  apply rng_integers_rango in Ea. apply kilometraje_rango in Ek.
  split; [reflexivity |]. split; [reflexivity |].
  intros df_cedis Hin. unfold vehiculo_bien_formado. cbn.
  split; [exact Hin |]. split; [exact Ee |]. split; [lia |]. split; [exact Ek |].
  exists tipo. repeat split; auto.
Qed.

Lemma flota_de_cedi_spec hoy cedi_id ep k : forall cons g vs c' g',
  flota_de_cedi hoy cedi_id ep k cons g = Some (vs, c', g') ->
  List.length vs = k /\ c' = (cons + k)%nat /\
  map ID_Vehiculo vs = map id_vehiculo (seq cons k) /\
  Forall (fun v => CEDI_Asignado_ID v = cedi_id) vs /\
  forall df_cedis, In cedi_id (map CEDI_ID df_cedis) ->
                   Forall (vehiculo_bien_formado hoy df_cedis) vs.
Proof.
  induction k as [| k IH]; intros cons g vs c' g' E; cbn [flota_de_cedi] in E.
  - inversion E; subst. cbn. repeat split; auto.
  - destruct (nuevo_vehiculo hoy cedi_id ep cons g) as [[v g1] |] eqn:En; [| discriminate].
    destruct (flota_de_cedi hoy cedi_id ep k (S cons) g1) as [[[resto c1] g2] |] eqn:Ef;
      [| discriminate].
    inversion E; subst; clear E.
    apply nuevo_vehiculo_fila in En. destruct En as (Hid & Hc & Hw).
    apply IH in Ef. destruct Ef as (Hl & Hc' & Hids & Ha & Hws).
    cbn [List.length map seq]. repeat split.
    + now rewrite Hl.
    + lia.
    + now rewrite Hid, Hids.
    + constructor; auto.
    + intros df_cedis Hin. constructor; auto.
Qed.

Lemma n_vehiculos_rango (ep : bool) (r : PyRand) :
  let n := fst (if ep then py_randint 30 45 r else py_randint 15 20 r) in
  if ep then 30 <= n <= 45 else 15 <= n <= 20.
Proof.
  destruct ep; cbv zeta.
  - apply py_randint_range. lia.
  - apply py_randint_range. lia.
Qed.

Lemma flota_bucle_cedis_spec hoy cedis : forall cons g r tabla,
  bucle_cedis hoy cedis cons g r = Some tabla ->
  map ID_Vehiculo tabla = map id_vehiculo (seq cons (List.length tabla)) /\
  (forall df_cedis, incl (map CEDI_ID cedis) (map CEDI_ID df_cedis) ->
                    Forall (vehiculo_bien_formado hoy df_cedis) tabla) /\
  exists bloques, tabla = List.concat bloques /\ Forall2 bloque_de_cedi cedis bloques.
Proof.
  induction cedis as [| c cedis IH]; intros cons g r tabla E; cbn [bucle_cedis] in E.
  - inversion E; subst. cbn. repeat split; auto.
    exists []. split; [reflexivity | constructor].
  - pose proof (n_vehiculos_rango (es_cedi_principal c) r) as Hn. cbv zeta in Hn.
    destruct (if es_cedi_principal c then py_randint 30 45 r else py_randint 15 20 r)
      as [n r1]. cbn [fst] in Hn.
    destruct (flota_de_cedi hoy (CEDI_ID c) (es_cedi_principal c) (Z.to_nat n) cons g)
      as [[[vs c1] g1] |] eqn:Ef; [| discriminate].
    destruct (bucle_cedis hoy cedis c1 g1 r1) as [rs |] eqn:Eb; [| discriminate].
    inversion E; subst tabla; clear E.
    apply flota_de_cedi_spec in Ef. destruct Ef as (Hl & Hc1 & Hids & Ha & Hw).
    apply IH in Eb. destruct Eb as (Hids' & Hw' & bloques & Hcat & Hbl).
    split; [| split].
    + rewrite map_app, length_app, seq_app, map_app.
      rewrite Hids, Hids', Hl, Hc1. reflexivity.
    + intros df_cedis Hincl. apply Forall_app. split.
      * apply Hw. apply Hincl. cbn. now left.
      * apply Hw'. intros x Hx. apply Hincl. cbn. now right.
    + exists (vs :: bloques). split; [cbn; now rewrite Hcat |].
      constructor; [| exact Hbl].
      split; [exact Ha |]. rewrite Hl.
      destruct (es_cedi_principal c); lia.
Qed.

Lemma nuevo_vehiculo_ok hoy cedi_id ep cons g :
  2021 <= hoy -> exists v g', nuevo_vehiculo hoy cedi_id ep cons g = Some (v, g').
Proof.
  intros Hh. unfold nuevo_vehiculo.
  destruct (rng_choice_p_ok TIPOS_VEHICULOS (pesos_tipo ep) g (pesos_tipo_validos ep))
    as (tipo & ga & -> & _).
  destruct (rng_choice_ok ["A"; "B"; "C"; "D"; "L"]%string ga ltac:(discriminate))
    as (letra & gb & -> & _).
  destruct (rng_integers_ok 100000 999999 gb ltac:(lia)) as (nums & gc & ->).
  destruct (rng_integers_ok 2015 2023 gc ltac:(lia)) as (anho & gd & Ea).
  rewrite Ea. apply rng_integers_rango in Ea.
  destruct (rng_integers_ok (Z.max 1000 (kilometraje_base hoy anho - 10000))
              (kilometraje_base hoy anho + 30000) gd) as (km & ge & Ek).
  { unfold kilometraje_base. lia. }
  unfold kilometraje_actual. rewrite Ek.
  destruct (rng_choice_p_ok ["Operativo"; "En Taller"; "Baja"]%string
              [85 # 100; 12 # 100; 3 # 100]%Q ge eq_refl) as (estado & gf & -> & _).
  destruct (rng_choice_ok [true; true; false] gf ltac:(discriminate))
    as (gps & gg & -> & _).
  destruct (np_uniform _ _ gg) as [val gh]. eauto.
Qed.

Lemma flota_de_cedi_ok hoy cedi_id ep k : forall cons g,
  2021 <= hoy ->
  exists vs c' g', flota_de_cedi hoy cedi_id ep k cons g = Some (vs, c', g').
Proof.
  induction k as [| k IH]; intros cons g Hh; cbn [flota_de_cedi]; [eauto |].
  destruct (nuevo_vehiculo_ok hoy cedi_id ep cons g Hh) as (v & g1 & ->).
  destruct (IH (S cons) g1 Hh) as (vs & c' & g' & ->). eauto.
Qed.

Lemma flota_bucle_cedis_ok hoy cedis : forall cons g r,
  2021 <= hoy -> exists tabla, bucle_cedis hoy cedis cons g r = Some tabla.
Proof.
  induction cedis as [| c cedis IH]; intros cons g r Hh; cbn [bucle_cedis]; [eauto |].
  destruct (if es_cedi_principal c then py_randint 30 45 r else py_randint 15 20 r)
    as [n r1].
  destruct (flota_de_cedi_ok hoy (CEDI_ID c) (es_cedi_principal c) (Z.to_nat n) cons g Hh)
    as (vs & c' & g' & ->).
  destruct (IH c' g' r1 Hh) as (tabla & ->). eauto.
Qed.

Lemma nuevo_vehiculo_falla hoy cedi_id ep cons g :
  hoy <= 2013 -> nuevo_vehiculo hoy cedi_id ep cons g = None.
Proof.
  intros Hh. unfold nuevo_vehiculo.
  destruct (rng_choice_p TIPOS_VEHICULOS (pesos_tipo ep) g) as [[tipo ga] |];
    [| reflexivity].
  destruct (rng_choice ["A"; "B"; "C"; "D"; "L"]%string ga) as [[letra gb] |];
    [| reflexivity].
  destruct (rng_integers 100000 999999 gb) as [[nums gc] |]; [| reflexivity].
  destruct (rng_integers 2015 2023 gc) as [[anho gd] |] eqn:Ea; [| reflexivity].
  apply rng_integers_rango in Ea.
  unfold kilometraje_actual, rng_integers, kilometraje_base.
  destruct (Z.ltb_spec (Z.max 1000 ((hoy - anho) * 20000 - 10000))
                       ((hoy - anho) * 20000 + 30000)) as [Hlt | Hge]; [lia |].
  reflexivity.
Qed.

(** X13. Fleet identifiers are ["VEH-"] followed by the zero-padded values
    1, 2, ... of one counter that runs across all centres, in row order, and
    are pairwise distinct. *)
Theorem flota_identificadores_consecutivos
        (hoy : Z) (df_cedis : list Cedi) (r : PyRand) (tabla : list Vehiculo) :
  generar_dim_vehiculo hoy df_cedis r = Some tabla ->
  map ID_Vehiculo tabla = map id_vehiculo (seq 1 (List.length tabla)) /\
  NoDup (map ID_Vehiculo tabla).
Proof.
  unfold generar_dim_vehiculo. intros E.
  apply flota_bucle_cedis_spec in E. destruct E as (Hids & _).
  split; [exact Hids |]. rewrite Hids.
  apply NoDup_ids_consecutivos. exact id_vehiculo_inyectiva.
Qed.

(** X14. Every fleet row is assigned to a centre of the input table, has
    state Operativo, En Taller or Baja, a year of manufacture in
    2015..2022, a mileage inside the window drawn from
    ([max(1000, base - 10000) <= km < base + 30000] with
    [base = (current year - year of manufacture) * 20000]), and the
    technical columns of one entry of the vehicle catalogue. *)
Theorem flota_bien_formada
        (hoy : Z) (df_cedis : list Cedi) (r : PyRand) (tabla : list Vehiculo) :
  generar_dim_vehiculo hoy df_cedis r = Some tabla ->
  Forall (vehiculo_bien_formado hoy df_cedis) tabla.
Proof.
  unfold generar_dim_vehiculo. intros E.
  apply flota_bucle_cedis_spec in E. destruct E as (_ & Hw & _).
  apply Hw. apply incl_refl.
Qed.

Lemma bloques_longitud cedis bloques :
  Forall2 bloque_de_cedi cedis bloques ->
  (15 * List.length cedis <= List.length (List.concat bloques) <= 45 * List.length cedis)%nat.
Proof.
  induction 1 as [| c b cedis bloques [_ Hb] _ IH]; cbn [List.concat List.length]; [lia |].
  rewrite length_app. destruct (es_cedi_principal c); lia.
Qed.

(** X15. The fleet table is the concatenation of one block per centre, in
    the order of the centres; a block holds only rows of its centre, 30 to
    45 of them for a principal centre and 15 to 20 otherwise, so the table
    has between 15 and 45 rows per centre. *)
Theorem flota_por_cedi
        (hoy : Z) (df_cedis : list Cedi) (r : PyRand) (tabla : list Vehiculo) :
  generar_dim_vehiculo hoy df_cedis r = Some tabla ->
  (exists bloques, tabla = List.concat bloques /\ Forall2 bloque_de_cedi df_cedis bloques) /\
  (15 * List.length df_cedis <= List.length tabla <= 45 * List.length df_cedis)%nat.
Proof.
  unfold generar_dim_vehiculo. intros E.
  apply flota_bucle_cedis_spec in E. destruct E as (_ & _ & bloques & Hcat & Hbl).
  split; [exists bloques; auto |].
  rewrite Hcat. now apply bloques_longitud.
Qed.

(** X16. With at least one centre, the fleet rows can be built in every
    calendar year from 2021 on (and there are at least 15 of them), and in
    no calendar year up to 2013: there the mileage window of the first
    vehicle is empty and the draw raises. *)
Theorem flota_segun_el_anio (hoy : Z) (df_cedis : list Cedi) (r : PyRand) :
  df_cedis <> [] ->
  (2021 <= hoy ->
   exists tabla, generar_dim_vehiculo hoy df_cedis r = Some tabla /\
                 (15 <= List.length tabla)%nat) /\
  (hoy <= 2013 -> generar_dim_vehiculo hoy df_cedis r = None).
Proof.
  intros Hne. split.
  - intros Hh. unfold generar_dim_vehiculo.
    destruct (flota_bucle_cedis_ok hoy df_cedis 1%nat (np_default_rng SEED_VAL) r Hh)
      as (tabla & E).
    exists tabla. split; [exact E |].
    apply flota_bucle_cedis_spec in E. destruct E as (_ & _ & bloques & Hcat & Hbl).
    rewrite Hcat. pose proof (bloques_longitud df_cedis bloques Hbl) as Hl.
    destruct df_cedis; [congruence | cbn [List.length] in Hl; lia].
  - intros Hh. unfold generar_dim_vehiculo.
    destruct df_cedis as [| c resto]; [congruence |]. cbn [bucle_cedis].
    pose proof (n_vehiculos_rango (es_cedi_principal c) r) as Hn. cbv zeta in Hn.
    destruct (if es_cedi_principal c then py_randint 30 45 r else py_randint 15 20 r)
      as [n r1]. cbn [fst] in Hn.
    destruct (Z.to_nat n) as [| k] eqn:Ek.
    { destruct (es_cedi_principal c); lia. }
    cbn [flota_de_cedi]. now rewrite nuevo_vehiculo_falla.
Qed.

End FlotaMas.

End FlotaMas0.

Section RutasMas0.

Import Flota Rutas Integridad.
Local Open Scope nat_scope.

Lemma id_ruta_inyectiva (n m : nat) : id_ruta n = id_ruta m -> n = m.
Proof.
  unfold id_ruta. simpl. intros E.
  injection E as E. now apply zfill_inyectiva in E.
Qed.

(** Rounding never goes below an integer the value has reached. *)
Lemma py_round_cota_inferior (x : Q) (m : Z) (nd : nat) :
  (inject_Z m <= x)%Q -> (inject_Z m <= py_round x nd)%Q.
Proof.
  intros Hx.
  pose proof (pow10_pos nd) as Hp.
  set (k := (m * 10 ^ Z.of_nat nd)%Z).
  assert (Hk : (inject_Z k <= x * pow10 nd)%Q).
  { unfold k. rewrite inject_Z_mult. fold (pow10 nd).
    apply Qmult_le_compat_r; lra. }
  assert (Hr : (k <= round_half_even (x * pow10 nd))%Z).
  { assert (Hf : (k <= Qfloor (x * pow10 nd))%Z).
    { rewrite <- (Qfloor_Z k). apply Qfloor_resp_le. exact Hk. }
    destruct (round_half_even_cases (x * pow10 nd)) as [[-> _] | [-> _]]; lia. }
  unfold py_round. rewrite Qred_correct.
  apply Qle_shift_div_l; [exact Hp |].
  rewrite Zle_Qle in Hr. unfold k in Hr. rewrite inject_Z_mult in Hr.
  fold (pow10 nd) in Hr. exact Hr.
Qed.

Lemma tipo_ruta_geografica_casos (d : Q) (region : string) :
  In (tipo_ruta_geografica d region) (map fst VELOCIDAD_PROMEDIO_KMH) /\
  (tipo_ruta_geografica d region = "Urbana Densa"%string ->
   In region ["Ozama"; "Cibao Central"]%string).
Proof.
  unfold tipo_ruta_geografica.
  destruct (Qltb d 25 && (String.eqb region "Ozama" || String.eqb region "Cibao Central"))%bool
    eqn:Eb.
  - split; [cbn; auto |]. intros _.
    apply andb_true_iff in Eb. destruct Eb as [_ Eb].
    apply orb_true_iff in Eb. destruct Eb as [Eb | Eb]; apply String.eqb_eq in Eb;
      subst; cbn; auto.
  - destruct (Qltb d 50); [split; [cbn; auto | discriminate] |].
    destruct (Qltb d 150); split; cbn; auto; discriminate.
Qed.

Section RutasMas.

Context `{Azar} `{!AzarLegal}.
Variable geodesic_km : Q * Q -> Q * Q -> Q.
Variable df_geo : list Clientes.Geografia.
Variable df_vehiculo : list Vehiculo.
Variable df_vendedor : list Vendedor.

Local Abbreviation destino_valido c :=
  (fun p : Clientes.Geografia =>
     In p df_geo /\
     ((exists q, In q df_geo /\ Clientes.Region q = Region_Operacion c) ->
      Clientes.Region p = Region_Operacion c)).

Lemma random_choices_In {A : Type} (l : list A) (w : list Q) (r r' : PyRand) (x : A) :
  random_choices l w r = Some (x, r') -> In x l.
Proof.
  unfold random_choices.
  destruct ((List.length l =? List.length w) && negb (List.length l =? 0))%bool;
    [| discriminate].
  destruct (py_choices_idx w r) as [i r1].
  destruct (nth_error l i) as [y |] eqn:Ey; [| discriminate].
  intros E. inversion E; subst. eapply nth_error_In; eauto.
Qed.

Lemma df_sample_incl {A : Type} (l : list A) (n : nat) (seed : Z) (x : A) :
  In x (df_sample l n seed) -> In x l.
Proof.
  unfold df_sample. intros Hin. apply in_flat_map in Hin.
  destruct Hin as (i & _ & Hx).
  destruct (nth_error l i) as [y |] eqn:Ey; [| contradiction].
  destruct Hx as [<- | []]. eapply nth_error_In; eauto.
Qed.

Lemma geos_objetivo_spec c g geos g' :
  geos_objetivo df_geo c g = Some (geos, g') ->
  Forall (destino_valido c) geos.
Proof.
  unfold geos_objetivo.
  destruct (filter (fun p => String.eqb (Clientes.Region p) (Region_Operacion c)) df_geo)
    as [| p ps] eqn:Ef.
  - destruct (rng_integers 0 10000 g) as [[seed g1] |]; [| discriminate].
    intros E. inversion E; subst; clear E.
    apply Forall_forall. intros x Hx. cbn [fst] in Hx.
    apply df_sample_incl in Hx. split; [exact Hx |].
    intros (q & Hq & Hr). exfalso.
    assert (Hin : In q (filter (fun p => String.eqb (Clientes.Region p) (Region_Operacion c))
                               df_geo)).
    { apply filter_In. split; [exact Hq | now apply String.eqb_eq]. }
    rewrite Ef in Hin. contradiction.
  - intros E. inversion E; subst; clear E. rewrite <- Ef.
    apply Forall_forall. intros x Hx. apply filter_In in Hx.
    destruct Hx as [Hx Hr]. apply String.eqb_eq in Hr. split; auto.
Qed.

Lemma nueva_ruta_fila c geos vehs vends st r st' :
  nueva_ruta geodesic_km c geos vehs vends st = Some (r, st') ->
  ID_Ruta r = id_ruta (consecutivo_ruta st) /\
  consecutivo_ruta st' = S (consecutivo_ruta st) /\
  (Forall (destino_valido c) geos -> ruta_bien_formada df_geo c r).
Proof.
  unfold nueva_ruta. intros E.
  destruct (random_choice vehs (rnd st)) as [[vehiculo r1] |]; [| discriminate].
  destruct (random_choice vends r1) as [[vendedor r2] |]; [| discriminate].
  destruct (random_choice geos r2) as [[geo r3] |] eqn:E3; [| discriminate].
  destruct (np_uniform (13 # 10) (16 # 10) (rng st)) as [factor g1].
  destruct (random_choices _ _ r3) as [[frecuencia r4] |] eqn:E4; [| discriminate].
  match type of E with
  | match ?x with _ => _ end = _ => destruct x as [[dias r5] |] eqn:E5; [| discriminate]
  end.
  destruct (faker_city_suffix (fake st)) as [sufijo f1].
  destruct (faker_street_name f1) as [calle f2].
  destruct (random_choices _ _ r5) as [[peaje r6] |] eqn:E6; [| discriminate].
  inversion E; subst; clear E. cbn [ID_Ruta consecutivo_ruta].
  split; [reflexivity |]. split; [reflexivity |].
  intros Hgeos. unfold ruta_bien_formada. cbn.
  apply random_choice_In in E3. apply random_choices_In in E4.
  apply random_choices_In in E6.
  rewrite Forall_forall in Hgeos. destruct (Hgeos geo E3) as [Hin Hreg].
  set (dist := Qmax 5 (geodesic_km (Latitud c, Longitud c)
                         (Clientes.Latitud geo, Clientes.Longitud geo) * factor)).
  destruct (tipo_ruta_geografica_casos dist (Region_Operacion c)) as [Ht1 Ht2].
  split; [reflexivity |]. split; [reflexivity |]. split; [reflexivity |].
  split.
  { apply (py_round_cota_inferior dist 5 2). unfold dist. apply Q.le_max_l. }
  split; [exact Ht1 |]. split; [exact Ht2 |].
  split.
  { exists geo. repeat split; auto. }
  split.
  { cbn in E6. cbn. tauto. }
  cbn in E4. destruct E4 as [<- | [<- | [<- | []]]].
  - left. cbn in E5. inversion E5; subst. split; reflexivity.
  - right; left. cbn -[random_choice] in E5. apply random_choice_In in E5.
    split; [reflexivity | exact E5].
  - right; right. cbn -[random_choice] in E5. apply random_choice_In in E5.
    split; [reflexivity | exact E5].
Qed.

Lemma bucle_rutas_filas c geos vehs vends k : forall st rutas st',
  bucle_rutas geodesic_km c geos vehs vends k st = Some (rutas, st') ->
  List.length rutas = k /\
  map ID_Ruta rutas = map id_ruta (seq (consecutivo_ruta st) k) /\
  consecutivo_ruta st' = consecutivo_ruta st + k /\
  (Forall (destino_valido c) geos -> Forall (ruta_bien_formada df_geo c) rutas).
Proof.
  induction k as [| k IH]; intros st rutas st' E; simpl in E.
  - inversion E; subst. cbn. repeat split; auto.
  - destruct (nueva_ruta geodesic_km c geos vehs vends st) as [[r st1] |] eqn:E1;
      [| discriminate].
    destruct (bucle_rutas geodesic_km c geos vehs vends k st1) as [[rs st2] |] eqn:E2;
      [| discriminate].
    inversion E; subst; clear E.
    apply nueva_ruta_fila in E1. destruct E1 as (Hid & Hc & Hw).
    destruct (IH _ _ _ E2) as (Hl & Hids & Hc2 & Hws).
    cbn [List.length map seq]. repeat split.
    + now rewrite Hl.
    + rewrite Hid, Hids, Hc. reflexivity.
    + rewrite Hc2, Hc. lia.
    + intros Hg. constructor; auto.
Qed.

Lemma rutas_de_cedi_filas c st rutas st' :
  rutas_de_cedi geodesic_km df_geo df_vehiculo df_vendedor c st = Some (rutas, st') ->
  map ID_Ruta rutas = map id_ruta (seq (consecutivo_ruta st) (List.length rutas)) /\
  consecutivo_ruta st' = consecutivo_ruta st + List.length rutas /\
  Forall (ruta_bien_formada df_geo c) rutas.
Proof.
  unfold rutas_de_cedi. intros E.
  destruct (geos_objetivo df_geo c (rng st)) as [[geos g1] |] eqn:Eg; [| discriminate].
  apply geos_objetivo_spec in Eg.
  destruct (vehiculos_disponibles df_vehiculo (CEDI_ID c)) as [| v vehs].
  { inversion E; subst. cbn. repeat split; auto. }
  destruct (vendedores_disponibles df_vendedor (CEDI_ID c)) as [| a vends].
  { inversion E; subst. cbn. repeat split; auto. }
  apply bucle_rutas_filas in E. destruct E as (Hl & Hids & Hc & Hw).
  cbn [consecutivo_ruta] in *. rewrite Hl. repeat split; auto.
Qed.

Lemma bucle_cedis_filas cedis : forall st rutas,
  bucle_cedis geodesic_km df_geo df_vehiculo df_vendedor cedis st = Some rutas ->
  map ID_Ruta rutas = map id_ruta (seq (consecutivo_ruta st) (List.length rutas)) /\
  Forall (fun r => exists c, In c cedis /\ ruta_bien_formada df_geo c r) rutas.
Proof.
  induction cedis as [| c cedis IH]; intros st rutas E; cbn [bucle_cedis] in E.
  - inversion E; subst. cbn. split; auto.
  - destruct (rutas_de_cedi geodesic_km df_geo df_vehiculo df_vendedor c st)
      as [[rs st1] |] eqn:E1; [| discriminate].
    destruct (bucle_cedis geodesic_km df_geo df_vehiculo df_vendedor cedis st1)
      as [mas |] eqn:E2; [| discriminate].
    inversion E; subst; clear E.
    apply rutas_de_cedi_filas in E1. destruct E1 as (Hids & Hc & Hw).
    apply IH in E2. destruct E2 as (Hids' & Hw').
    split.
    + rewrite map_app, length_app, seq_app, map_app, Hids, Hids', Hc. reflexivity.
    + apply Forall_app. split.
      * eapply Forall_impl; [| exact Hw]. intros r Hr. exists c. split; [now left | exact Hr].
      * eapply Forall_impl; [| exact Hw']. intros r (c' & Hin & Hr).
        exists c'. split; [now right | exact Hr].
Qed.

(** X17. Route identifiers are ["RUT-"] followed by the zero-padded values
    1, 2, ... of one counter across all centres, in row order, and are
    pairwise distinct: a centre that is skipped uses up no number. *)
Theorem rutas_identificadores_consecutivos
        (df_cedi : list Cedi) (f : FakerSt) (rutas : list Ruta) :
  generar_dim_ruta geodesic_km df_geo df_vehiculo df_vendedor df_cedi f = Some rutas ->
  map ID_Ruta rutas = map id_ruta (seq 1 (List.length rutas)) /\
  NoDup (map ID_Ruta rutas).
Proof.
  unfold generar_dim_ruta. intros E.
  apply bucle_cedis_filas in E. destruct E as (Hids & _). cbn [consecutivo_ruta] in Hids.
  split; [exact Hids |]. rewrite Hids.
  apply NoDup_ids_consecutivos. exact id_ruta_inyectiva.
Qed.

(** X18. Every route row belongs to a centre [c] of the input table and
    carries its identifier and name; it is active, at least 5 km long, of
    one of the four geographic types, and of type Urbana Densa only when
    the centre operates in Ozama or Cibao Central; its destination is a
    province of the geography table, in the centre's region whenever that
    region has a province; its toll is 0, 50, 100 or 200; and its operating
    days fit its visit frequency. *)
Theorem rutas_bien_formadas
        (df_cedi : list Cedi) (f : FakerSt) (rutas : list Ruta) :
  generar_dim_ruta geodesic_km df_geo df_vehiculo df_vendedor df_cedi f = Some rutas ->
  Forall (fun r => exists c, In c df_cedi /\ ruta_bien_formada df_geo c r) rutas.
Proof.
  unfold generar_dim_ruta. intros E.
  apply bucle_cedis_filas in E. tauto.
Qed.

Lemma rutas_de_cedi_ok c st :
  df_geo <> [] ->
  exists rutas st',
    rutas_de_cedi geodesic_km df_geo df_vehiculo df_vendedor c st = Some (rutas, st') /\
    (vehiculos_disponibles df_vehiculo (CEDI_ID c) <> [] ->
     vendedores_disponibles df_vendedor (CEDI_ID c) <> [] ->
     10 <= List.length rutas).
Proof.
  intros Hg.
  assert (exists rutas st',
             rutas_de_cedi geodesic_km df_geo df_vehiculo df_vendedor c st
             = Some (rutas, st')) as (rutas & st' & E).
  { unfold rutas_de_cedi.
    destruct (geos_objetivo_ok df_geo c (rng st) Hg) as (geos & g1 & Eg & Hgeos).
    rewrite Eg.
    destruct (vehiculos_disponibles df_vehiculo (CEDI_ID c)) as [| v vehs]; [eauto |].
    destruct (vendedores_disponibles df_vendedor (CEDI_ID c)) as [| a vends]; [eauto |].
    apply bucle_rutas_ok; auto; discriminate. }
  exists rutas, st'. split; [exact E |].
  intros Hv Ha.
  destruct (rutas_de_cedi_spec geodesic_km df_geo df_vehiculo df_vendedor c st rutas st' E)
    as [_ Hn].
  specialize (Hn Hv Ha). unfold num_rutas_por_cedi in Hn. lia.
Qed.

Lemma rutas_bucle_cedis_ok cedis : forall st,
  df_geo <> [] ->
  exists rutas,
    bucle_cedis geodesic_km df_geo df_vehiculo df_vendedor cedis st = Some rutas /\
    ((exists c, In c cedis /\
                vehiculos_disponibles df_vehiculo (CEDI_ID c) <> [] /\
                vendedores_disponibles df_vendedor (CEDI_ID c) <> []) ->
     10 <= List.length rutas).
Proof.
  induction cedis as [| c cedis IH]; intros st Hg; cbn [bucle_cedis].
  - exists []. split; [reflexivity |]. intros (c & [] & _).
  - destruct (rutas_de_cedi_ok c st Hg) as (rs & st1 & E1 & Hn). rewrite E1.
    destruct (IH st1 Hg) as (mas & E2 & Hm). rewrite E2.
    exists (rs ++ mas)%list. split; [reflexivity |].
    intros (c' & [<- | Hin] & Hv & Ha); rewrite length_app.
    + specialize (Hn Hv Ha). lia.
    + assert (10 <= List.length mas) by (apply Hm; eauto). lia.
Qed.

Lemma rutas_de_cedi_sin_geografia c st :
  df_geo = [] ->
  vehiculos_disponibles df_vehiculo (CEDI_ID c) <> [] ->
  vendedores_disponibles df_vendedor (CEDI_ID c) <> [] ->
  rutas_de_cedi geodesic_km df_geo df_vehiculo df_vendedor c st = None.
Proof.
  intros Hg Hv Ha. unfold rutas_de_cedi.
  destruct (geos_objetivo df_geo c (rng st)) as [[geos g1] |] eqn:Eg; [| reflexivity].
  assert (Hgeos : geos = []).
  { apply geos_objetivo_spec in Eg. destruct geos as [| p ps]; [reflexivity |].
    apply Forall_inv in Eg. destruct Eg as [Hin _]. rewrite Hg in Hin. contradiction. }
  subst geos.
  pose proof (rutas_de_cedi_spec geodesic_km df_geo df_vehiculo df_vendedor c st) as Hs.
  destruct (vehiculos_disponibles df_vehiculo (CEDI_ID c)) as [| v vehs] eqn:Ev;
    [congruence |].
  destruct (vendedores_disponibles df_vendedor (CEDI_ID c)) as [| a vends] eqn:Ea;
    [congruence |].
  assert (Hk : (10 <= num_rutas_por_cedi (List.length (v :: vehs)) (Capacidad_Pallets c))%Z).
  { unfold num_rutas_por_cedi. lia. }
  destruct (Z.to_nat (num_rutas_por_cedi (List.length (v :: vehs)) (Capacidad_Pallets c)))
    as [| k] eqn:Ek; [lia |].
  cbn [bucle_rutas]. unfold nueva_ruta. cbn [rnd].
  destruct (random_choice (v :: vehs) (rnd st)) as [[vehiculo r1] |]; [| reflexivity].
  destruct (random_choice (a :: vends) r1) as [[vendedor r2] |]; [| reflexivity].
  reflexivity.
Qed.

Lemma bucle_cedis_sin_geografia cedis : forall st,
  df_geo = [] ->
  (exists c, In c cedis /\
             vehiculos_disponibles df_vehiculo (CEDI_ID c) <> [] /\
             vendedores_disponibles df_vendedor (CEDI_ID c) <> []) ->
  bucle_cedis geodesic_km df_geo df_vehiculo df_vendedor cedis st = None.
Proof.
  induction cedis as [| c cedis IH]; intros st Hg (c' & Hin & Hv & Ha).
  - contradiction.
  - cbn [bucle_cedis]. destruct Hin as [<- | Hin].
    + now rewrite rutas_de_cedi_sin_geografia.
    + destruct (rutas_de_cedi geodesic_km df_geo df_vehiculo df_vendedor c st)
        as [[rs st1] |]; [| reflexivity].
      rewrite IH; [reflexivity | exact Hg | eauto].
Qed.

(** X19. When some centre has an operational vehicle and an active agent,
    the route rows can be built, and are at least ten, if the geography
    table has a row; with an empty geography table the generator raises
    (the choice of a destination from an empty list). *)
Theorem rutas_termina_o_falla (df_cedi : list Cedi) (f : FakerSt) :
  (exists c, In c df_cedi /\
             vehiculos_disponibles df_vehiculo (CEDI_ID c) <> [] /\
             vendedores_disponibles df_vendedor (CEDI_ID c) <> []) ->
  (df_geo <> [] ->
   exists rutas,
     generar_dim_ruta geodesic_km df_geo df_vehiculo df_vendedor df_cedi f = Some rutas /\
     10 <= List.length rutas) /\
  (df_geo = [] ->
   generar_dim_ruta geodesic_km df_geo df_vehiculo df_vendedor df_cedi f = None).
Proof.
  intros Hc. unfold generar_dim_ruta. split.
  - intros Hg.
    destruct (rutas_bucle_cedis_ok df_cedi
                {| rng := np_default_rng SEED_VAL; rnd := py_seed SEED_VAL; fake := f;
                   consecutivo_ruta := 1 |} Hg) as (rutas & E & Hn).
    exists rutas. split; [exact E | now apply Hn].
  - intros Hg. now apply bucle_cedis_sin_geografia.
Qed.

End RutasMas.

End RutasMas0.

Section EmpleadosFacts.

Import Empleados.
Local Open Scope nat_scope.

Lemma buscar_ultimo_In {V : Type} (pares : list (string * V)) (k : string) (v : V) :
  buscar_ultimo pares k = Some v -> In (k, v) pares.
Proof.
  induction pares as [| [k' v'] pares IH]; cbn [buscar_ultimo]; [discriminate |].
  destruct (buscar_ultimo pares k) as [x |].
  - intros E. inversion E; subst. right. now apply IH.
  - destruct (String.eqb k' k) eqn:Ek; [| discriminate].
    apply String.eqb_eq in Ek. intros E. inversion E; subst. now left.
Qed.

Lemma buscar_ultimo_None {V : Type} (pares : list (string * V)) (k : string) :
  buscar_ultimo pares k = None -> ~ In k (map fst pares).
Proof.
  induction pares as [| [k' v'] pares IH]; cbn [buscar_ultimo map fst]; [auto |].
  destruct (buscar_ultimo pares k) as [x |]; [discriminate |].
  destruct (String.eqb k' k) eqn:Ek; [discriminate |].
  apply String.eqb_neq in Ek. intros _ [E | Hin]; [congruence | now apply IH].
Qed.

Lemma buscar_ultimo_unico {V : Type} (pares : list (string * V)) (k : string) (v : V) :
  NoDup (map fst pares) -> In (k, v) pares -> buscar_ultimo pares k = Some v.
Proof.
  induction pares as [| [k' v'] pares IH]; intros Hnd Hin; [contradiction |].
  cbn [map fst] in Hnd. inversion Hnd as [| ? ? Hni Hnd']; subst.
  cbn [buscar_ultimo]. destruct Hin as [E | Hin].
  - inversion E; subst.
    destruct (buscar_ultimo pares k) as [x |] eqn:Eb.
    + apply buscar_ultimo_In in Eb. exfalso. apply Hni.
      apply in_map_iff. exists (k, x). auto.
    + now rewrite String.eqb_refl.
  - now rewrite (IH Hnd' Hin).
Qed.

Section AsignacionFacts.

Context `{Azar} `{!AzarLegal}.
Variable df_geografia : list Clientes.Geografia.
Variable df_cedi : list Flota.Cedi.

Lemma cedis_por_region_In reg cedi :
  In cedi (cedis_por_region df_cedi reg) <->
  exists c, In c df_cedi /\ Flota.CEDI_ID c = cedi /\ Flota.Region_Operacion c = reg.
Proof.
  unfold cedis_por_region. rewrite in_map_iff. split.
  - intros (c & Hid & Hin). apply filter_In in Hin. destruct Hin as [Hin Hr].
    apply String.eqb_eq in Hr. eauto.
  - intros (c & Hin & Hid & Hr). exists c. split; [exact Hid |].
    apply filter_In. split; [exact Hin | now apply String.eqb_eq].
Qed.

(** X20. Centre of an employee. [provincia_a_cedi] always returns: the
    principal centre ["CEDI-PRIN-01"], without consuming randomness, when
    the province is missing, unknown, or in a region where no centre
    operates; otherwise a centre of the input table operating in the region
    of the province (for unique province identifiers). *)
Theorem provincia_a_cedi_asigna (prov_id : option string) (r : PyRand) :
  exists cedi r',
    provincia_a_cedi df_geografia df_cedi prov_id r = Some (cedi, r') /\
    ((cedi = cedi_principal /\ r' = r) \/
     (exists p g c, prov_id = Some p /\
                    In g df_geografia /\ Clientes.ID_Provincia g = p /\
                    In c df_cedi /\ Flota.CEDI_ID c = cedi /\
                    Flota.Region_Operacion c = Clientes.Region g)) /\
    (prov_id = None -> cedi = cedi_principal /\ r' = r) /\
    (forall p, prov_id = Some p ->
               ~ In p (map Clientes.ID_Provincia df_geografia) ->
               cedi = cedi_principal /\ r' = r) /\
    (forall p g, prov_id = Some p ->
                 NoDup (map Clientes.ID_Provincia df_geografia) ->
                 In g df_geografia -> Clientes.ID_Provincia g = p ->
                 ((exists c, In c df_cedi /\
                             Flota.Region_Operacion c = Clientes.Region g) ->
                  exists c, In c df_cedi /\ Flota.CEDI_ID c = cedi /\
                            Flota.Region_Operacion c = Clientes.Region g) /\
                 ((forall c, In c df_cedi ->
                             Flota.Region_Operacion c <> Clientes.Region g) ->
                  cedi = cedi_principal /\ r' = r)).
Proof.
  assert (Hmap : map fst (region_por_prov df_geografia)
                 = map Clientes.ID_Provincia df_geografia).
  { unfold region_por_prov. rewrite map_map. reflexivity. }
  assert (Hpar : forall p g, In g df_geografia -> Clientes.ID_Provincia g = p ->
                             In (p, Clientes.Region g) (region_por_prov df_geografia)).
  { intros p g Hin <-. unfold region_por_prov.
    apply in_map_iff. exists g. auto. }
  unfold provincia_a_cedi.
  destruct prov_id as [p |].
  2:{ exists cedi_principal, r. split; [reflexivity |].
      split; [left; split; reflexivity |].
      split; [intros; split; reflexivity |]. split; intros; discriminate. }
  destruct (buscar_ultimo (region_por_prov df_geografia) p) as [reg |] eqn:Er.
  2:{ exists cedi_principal, r. split; [reflexivity |]. split; [left; split; reflexivity |].
      split; [discriminate |]. split; [intros; split; reflexivity |].
      intros p' g E. injection E as <-. intros _ Hin Hid.
      apply buscar_ultimo_None in Er. exfalso. apply Er. rewrite Hmap.
      rewrite <- Hid. now apply in_map. }
  pose proof (buscar_ultimo_In _ _ _ Er) as Hreg.
  unfold region_por_prov in Hreg. apply in_map_iff in Hreg.
  destruct Hreg as (g0 & Eg0 & Hg0).
  assert (Ep : Clientes.ID_Provincia g0 = p) by congruence.
  assert (Erg : Clientes.Region g0 = reg) by congruence.
  clear Eg0. subst reg.
  destruct (cedis_por_region df_cedi (Clientes.Region g0)) as [| c0 cs] eqn:Ec.
  - exists cedi_principal, r. split; [reflexivity |]. split; [left; split; reflexivity |].
    split; [discriminate |]. split; [intros; split; reflexivity |].
    intros p' g E. injection E as <-. intros Hnd Hin Hid.
    assert (Hg : Clientes.Region g = Clientes.Region g0).
    { pose proof (buscar_ultimo_unico _ _ _ ltac:(rewrite Hmap; exact Hnd)
                    (Hpar _ g Hin Hid)) as Eu.
      rewrite Er in Eu. congruence. }
    split; [| intros; split; reflexivity].
    intros (c & Hc & Hr). exfalso.
    assert (Hin' : In (Flota.CEDI_ID c) (cedis_por_region df_cedi (Clientes.Region g0))).
    { apply cedis_por_region_In. exists c. rewrite <- Hg. auto. }
    rewrite Ec in Hin'. contradiction.
  - destruct (random_choice_ok (c0 :: cs) r ltac:(discriminate)) as (cedi & r' & E & Hin).
    rewrite E. exists cedi, r'. split; [reflexivity |].
    rewrite <- Ec in Hin. apply cedis_por_region_In in Hin.
    destruct Hin as (c & Hc & Hid & Hr).
    split; [right; exists p, g0, c; auto 10 |].
    split; [discriminate |]. split.
    + intros p' E'. injection E' as <-. intros Hno. exfalso. apply Hno.
      rewrite <- Ep. now apply in_map.
    + intros p' g E'. injection E' as <-. intros Hnd Hin Hidg.
      assert (Hg : Clientes.Region g = Clientes.Region g0).
      { pose proof (buscar_ultimo_unico _ _ _ ltac:(rewrite Hmap; exact Hnd)
                      (Hpar _ g Hin Hidg)) as Eu.
        rewrite Er in Eu. congruence. }
      split.
      * intros _. exists c. rewrite Hg. auto.
      * intros Hno. exfalso. apply (Hno c Hc). now rewrite Hg.
Qed.

End AsignacionFacts.

End EmpleadosFacts.

Section TestigosMas.

Import Prueba.
Local Open Scope nat_scope.

Lemma asegurar_columnas_columna_presente_witness :
  exists out,
    fst (Esquema.asegurar_columnas cast_prueba df_prueba schema_prueba []) = Some out /\
    Esquema.buscar_columna out "Cluster_ID"
    = Some {| Esquema.nombre := "Cluster_ID"; Esquema.dtype := Esquema.Int8;
              Esquema.valores := [Esquema.VInt 1; Esquema.VInt 4] |}.
Proof.
  destruct (asegurar_columnas_columna_presente cast_prueba df_prueba schema_prueba []
              "Cluster_ID" Esquema.Int8
              {| Esquema.nombre := "Cluster_ID"; Esquema.dtype := Esquema.Int64;
                 Esquema.valores := [Esquema.VInt 1; Esquema.VInt 4] |})
    as (out & E & _ & Hcast & _).
  - repeat constructor; simpl; intuition discriminate.
  - simpl. auto.
  - reflexivity.
  - exists out. split; [exact E |].
    apply (Hcast [Esquema.VInt 1; Esquema.VInt 4]); [discriminate | reflexivity].
Defined.

Lemma asegurar_columnas_avisos_witness :
  snd (Esquema.asegurar_columnas (fun _ _ _ => None) df_prueba schema_prueba [])
  = [LogWarning (Esquema.msg_cast "Cluster_ID")].
Proof.
  assert (Hnd : NoDup (map fst schema_prueba)).
  { repeat constructor; simpl; intuition discriminate. }
  rewrite (proj1 (asegurar_columnas_avisos (fun _ _ _ => None) df_prueba
                    schema_prueba [] Hnd)).
  reflexivity.
Defined.

Lemma asegurar_columnas_idempotente_witness :
  exists out,
    fst (Esquema.asegurar_columnas cast_prueba df_prueba schema_prueba
           [("Activo"%string, Esquema.VBool true)]) = Some out /\
    fst (Esquema.asegurar_columnas cast_prueba out schema_prueba []) = Some out.
Proof.
  assert (Hnd : NoDup (map fst schema_prueba)).
  { repeat constructor; simpl; intuition discriminate. }
  let v := eval vm_compute in
      (fst (Esquema.asegurar_columnas cast_prueba df_prueba schema_prueba
              [("Activo"%string, Esquema.VBool true)])) in
  lazymatch v with
  | Some ?t =>
      assert (E : fst (Esquema.asegurar_columnas cast_prueba df_prueba schema_prueba
                         [("Activo"%string, Esquema.VBool true)]) = Some t)
        by (vm_compute; reflexivity);
      exists t
  end.
  split; [exact E |].
  exact (asegurar_columnas_idempotente cast_prueba df_prueba schema_prueba
           [("Activo"%string, Esquema.VBool true)] [] _ Hnd E).
Defined.

Lemma generar_dim_cliente_masiva_termina_o_falla_witness :
  exists tabla,
    @Clientes.generar_dim_cliente_masiva azar_prueba cfg_prueba geo_prueba
      canales_prueba 7%Z 9%Z = Some tabla /\
    (5 <= Z.of_nat (Clientes.contar_activos tabla))%Z.
Proof.
  destruct (proj1 (@generar_dim_cliente_masiva_termina_o_falla azar_prueba
                     azar_prueba_legal cfg_prueba geo_prueba canales_prueba 7%Z 9%Z))
    as (tabla & E & Hult).
  - vm_compute. reflexivity.
  - intros ano Hin. cbn in Hin.
    destruct Hin as [<- | [<- | []]]; vm_compute; discriminate.
  - exists tabla. split; [exact E |].
    apply (Hult [2021%Z] 2022%Z 5%Z); reflexivity.
Defined.

Lemma clientes_bien_formados_witness :
  exists tabla,
    @Clientes.generar_dim_cliente_masiva azar_prueba cfg_prueba geo_prueba
      canales_prueba 7%Z 9%Z = Some tabla /\
    Forall (Integridad.cliente_bien_formado
              (fun a => In a (Clientes.ANOS_SIMULACION cfg_prueba))
              geo_prueba canales_prueba) tabla.
Proof.
  let v := eval vm_compute in
      (@Clientes.generar_dim_cliente_masiva azar_prueba cfg_prueba geo_prueba
         canales_prueba 7%Z 9%Z) in
  lazymatch v with
  | Some ?t =>
      assert (E : @Clientes.generar_dim_cliente_masiva azar_prueba cfg_prueba
                    geo_prueba canales_prueba 7%Z 9%Z = Some t)
        by (vm_compute; reflexivity);
      exists t
  end.
  split; [exact E |].
  exact (@clientes_bien_formados azar_prueba azar_prueba_legal cfg_prueba geo_prueba
           canales_prueba 7%Z 9%Z _ E).
Defined.

Lemma flota_identificadores_consecutivos_witness :
  exists tabla,
    @Flota.generar_dim_vehiculo azar_prueba 2024 [cedi_prueba] 7%Z = Some tabla /\
    map Flota.ID_Vehiculo tabla
    = map Integridad.id_vehiculo (seq 1 (List.length tabla)) /\
    NoDup (map Flota.ID_Vehiculo tabla).
Proof.
  let v := eval vm_compute in
      (@Flota.generar_dim_vehiculo azar_prueba 2024 [cedi_prueba] 7%Z) in
  lazymatch v with
  | Some ?t =>
      assert (E : @Flota.generar_dim_vehiculo azar_prueba 2024 [cedi_prueba] 7%Z = Some t)
        by (vm_compute; reflexivity);
      exists t
  end.
  split; [exact E |].
  exact (@flota_identificadores_consecutivos azar_prueba azar_prueba_legal 2024%Z
           [cedi_prueba] 7%Z _ E).
Defined.

Lemma flota_bien_formada_witness :
  exists tabla,
    @Flota.generar_dim_vehiculo azar_prueba 2024 [cedi_prueba] 7%Z = Some tabla /\
    Forall (Integridad.vehiculo_bien_formado 2024 [cedi_prueba]) tabla.
Proof.
  let v := eval vm_compute in
      (@Flota.generar_dim_vehiculo azar_prueba 2024 [cedi_prueba] 7%Z) in
  lazymatch v with
  | Some ?t =>
      assert (E : @Flota.generar_dim_vehiculo azar_prueba 2024 [cedi_prueba] 7%Z = Some t)
        by (vm_compute; reflexivity);
      exists t
  end.
  split; [exact E |].
  exact (@flota_bien_formada azar_prueba azar_prueba_legal 2024%Z
           [cedi_prueba] 7%Z _ E).
Defined.

Lemma flota_por_cedi_witness :
  exists tabla,
    @Flota.generar_dim_vehiculo azar_prueba 2024 [cedi_prueba] 7%Z = Some tabla /\
    15 * 1 <= List.length tabla <= 45 * 1.
Proof.
  let v := eval vm_compute in
      (@Flota.generar_dim_vehiculo azar_prueba 2024 [cedi_prueba] 7%Z) in
  lazymatch v with
  | Some ?t =>
      assert (E : @Flota.generar_dim_vehiculo azar_prueba 2024 [cedi_prueba] 7%Z = Some t)
        by (vm_compute; reflexivity);
      exists t
  end.
  split; [exact E |].
  exact (proj2 (@flota_por_cedi azar_prueba azar_prueba_legal 2024%Z
                  [cedi_prueba] 7%Z _ E)).
Defined.

Lemma flota_segun_el_anio_witness :
  (exists tabla,
     @Flota.generar_dim_vehiculo azar_prueba 2024 [cedi_prueba] 7%Z = Some tabla /\
     15 <= List.length tabla) /\
  @Flota.generar_dim_vehiculo azar_prueba 2010 [cedi_prueba] 7%Z = None.
Proof.
  split.
  - apply (proj1 (@flota_segun_el_anio azar_prueba azar_prueba_legal 2024%Z
                    [cedi_prueba] 7%Z ltac:(discriminate))). lia.
  - apply (proj2 (@flota_segun_el_anio azar_prueba azar_prueba_legal 2010%Z
                    [cedi_prueba] 7%Z ltac:(discriminate))). lia.
Defined.

Lemma rutas_identificadores_consecutivos_witness :
  exists rutas,
    @Rutas.generar_dim_ruta azar_prueba geodesic_prueba geo_prueba
      [vehiculo_prueba] [vendedor_prueba] [cedi_prueba] 9%Z = Some rutas /\
    map Rutas.ID_Ruta rutas = map Integridad.id_ruta (seq 1 (List.length rutas)) /\
    NoDup (map Rutas.ID_Ruta rutas).
Proof.
  let v := eval vm_compute in
      (@Rutas.generar_dim_ruta azar_prueba geodesic_prueba geo_prueba
         [vehiculo_prueba] [vendedor_prueba] [cedi_prueba] 9%Z) in
  lazymatch v with
  | Some ?rs =>
      assert (E : @Rutas.generar_dim_ruta azar_prueba geodesic_prueba geo_prueba
                    [vehiculo_prueba] [vendedor_prueba] [cedi_prueba] 9%Z = Some rs)
        by (vm_compute; reflexivity);
      exists rs
  end.
  split; [exact E |].
  exact (@rutas_identificadores_consecutivos azar_prueba geodesic_prueba geo_prueba
           [vehiculo_prueba] [vendedor_prueba] [cedi_prueba] 9%Z _ E).
Defined.

Lemma rutas_bien_formadas_witness :
  exists rutas,
    @Rutas.generar_dim_ruta azar_prueba geodesic_prueba geo_prueba
      [vehiculo_prueba] [vendedor_prueba] [cedi_prueba] 9%Z = Some rutas /\
    Forall (fun r => exists c, In c [cedi_prueba] /\
                               Integridad.ruta_bien_formada geo_prueba c r) rutas.
Proof.
  let v := eval vm_compute in
      (@Rutas.generar_dim_ruta azar_prueba geodesic_prueba geo_prueba
         [vehiculo_prueba] [vendedor_prueba] [cedi_prueba] 9%Z) in
  lazymatch v with
  | Some ?rs =>
      assert (E : @Rutas.generar_dim_ruta azar_prueba geodesic_prueba geo_prueba
                    [vehiculo_prueba] [vendedor_prueba] [cedi_prueba] 9%Z = Some rs)
        by (vm_compute; reflexivity);
      exists rs
  end.
  split; [exact E |].
  exact (@rutas_bien_formadas azar_prueba geodesic_prueba geo_prueba
           [vehiculo_prueba] [vendedor_prueba] [cedi_prueba] 9%Z _ E).
Defined.

Lemma rutas_termina_o_falla_witness :
  (exists rutas,
     @Rutas.generar_dim_ruta azar_prueba geodesic_prueba geo_prueba
       [vehiculo_prueba] [vendedor_prueba] [cedi_prueba] 9%Z = Some rutas /\
     10 <= List.length rutas) /\
  @Rutas.generar_dim_ruta azar_prueba geodesic_prueba []
    [vehiculo_prueba] [vendedor_prueba] [cedi_prueba] 9%Z = None.
Proof.
  assert (Hc : exists c, In c [cedi_prueba] /\
                 Rutas.vehiculos_disponibles [vehiculo_prueba] (Flota.CEDI_ID c) <> [] /\
                 Rutas.vendedores_disponibles [vendedor_prueba] (Flota.CEDI_ID c) <> []).
  { exists cedi_prueba. split; [left; reflexivity |]. split; vm_compute; discriminate. }
  split.
  - apply (proj1 (@rutas_termina_o_falla azar_prueba azar_prueba_legal geodesic_prueba
                    geo_prueba [vehiculo_prueba] [vendedor_prueba] [cedi_prueba] 9%Z Hc)).
    discriminate.
  - apply (proj2 (@rutas_termina_o_falla azar_prueba azar_prueba_legal geodesic_prueba
                    [] [vehiculo_prueba] [vendedor_prueba] [cedi_prueba] 9%Z Hc)).
    reflexivity.
Defined.

Lemma provincia_a_cedi_asigna_witness :
  exists cedi r',
    @Empleados.provincia_a_cedi azar_prueba geo_prueba [cedi_prueba]
      (Some "SANTI04"%string) 7%Z = Some (cedi, r') /\
    exists c, In c [cedi_prueba] /\ Flota.CEDI_ID c = cedi /\
              Flota.Region_Operacion c = "Cibao Norte"%string.
Proof.
  destruct (@provincia_a_cedi_asigna azar_prueba azar_prueba_legal geo_prueba
              [cedi_prueba] (Some "SANTI04"%string) 7%Z)
    as (cedi & r' & E & _ & _ & _ & Hreg).
  exists cedi, r'. split; [exact E |].
  refine (proj1 (Hreg "SANTI04"%string (nth 1 geo_prueba (nth 0 geo_prueba (nth 0 geo_prueba
            {| Clientes.ID_Provincia := ""; Clientes.Nombre_Provincia := "";
               Clientes.Region := ""; Clientes.Latitud := 0%Q; Clientes.Longitud := 0%Q;
               Clientes.Peso_Normalizado := 0%Q |}))) eq_refl _ _ eq_refl) _).
  - repeat constructor; simpl; intuition discriminate.
  - right. left. reflexivity.
  - exists cedi_prueba. split; [left; reflexivity | reflexivity].
Defined.

End TestigosMas.

